(** * Log retrieval of the ECS crash notifier

    A shallow embedding of the log-resolution pipeline of the crash-notifier
    lambda: [detect_log_destination], the three backend adapters
    ([get_elasticsearch_logs], [get_coralogix_logs], [get_cloudwatch_logs])
    and the orchestrator [get_recent_logs], followed by the properties the
    specification states about them.

    Python values are an inductive type of JSON-shaped data, [crash_info] and
    [os.environ] are finite maps, and every function of the source that
    mutates [crash_info], talks to the network or can raise lives in a small
    state-and-exception monad whose state also records, in order, each
    network call and each write of the [log_source] field. *)

From stdpp Require Import gmap strings list.
From Stdlib Require Import ZArith Ascii String Sorted.

Set Warnings "-register-all".

Local Open Scope string_scope.
Local Open Scope Z_scope.

(** ** Python values *)

(** JSON-shaped Python values.  Numbers are integers: the code never does
    arithmetic on payload numbers, it only tests them for truth and type.
    A dict is an association list in insertion order. *)
Inductive pyval : Type :=
| PNone
| PBool (b : bool)
| PInt (n : Z)
| PStr (s : string)
| PList (l : list pyval)
| PDict (d : list (string * pyval)).

(** Python's truth value of an object ([if x:], [not x]). *)
Definition truthy (v : pyval) : bool :=
  match v with
  | PNone => false
  | PBool b => b
  | PInt n => negb (n =? 0)
  | PStr s => negb (String.eqb s EmptyString)
  | PList l => match l with [] => false | _ => true end
  | PDict d => match d with [] => false | _ => true end
  end.

(** [d.get(k)] on the association list of a dict. *)
Fixpoint dict_get (k : string) (d : list (string * pyval)) : option pyval :=
  match d with
  | [] => None
  | (k', v) :: d' => if String.eqb k k' then Some v else dict_get k d'
  end.

(** [v == s] for a string literal [s]. *)
Definition is_str (s : string) (v : pyval) : bool :=
  match v with
  | PStr s' => String.eqb s' s
  | _ => false
  end.

(** ** Strings *)

Definition ascii_lower (c : ascii) : ascii :=
  let n := nat_of_ascii c in
  if (Nat.leb 65 n && Nat.leb n 90)%bool then ascii_of_nat (n + 32) else c.

(** [s.lower()] on the bytes of [s]; the code only compares the result with
    ['true'], and no character outside ASCII has one of its letters as lower
    case. *)
Fixpoint lower (s : string) : string :=
  match s with
  | EmptyString => EmptyString
  | String c s' => String (ascii_lower c) (lower s')
  end.

(** A string is the UTF-8 encoding of Python's [str], byte by byte.  The
    characters [str.strip()] removes are those for which [str.isspace] holds;
    encoded they are one, two or three bytes long. *)

(** U+0009 to U+000D, U+001C to U+001F and the space. *)
Definition is_space1 (c : ascii) : bool :=
  let n := nat_of_ascii c in
  ((Nat.leb 9 n && Nat.leb n 13) || Nat.eqb n 32 || (Nat.leb 28 n && Nat.leb n 31))%bool.

(** U+0085 and U+00A0: [C2 85] and [C2 A0]. *)
Definition is_space2 (c1 c2 : ascii) : bool :=
  let b := nat_of_ascii c2 in
  (Nat.eqb (nat_of_ascii c1) 194 && (Nat.eqb b 133 || Nat.eqb b 160))%bool.

(** U+1680 ([E1 9A 80]), U+2000 to U+200A ([E2 80 80] to [E2 80 8A]),
    U+2028, U+2029 and U+202F ([E2 80 A8], [E2 80 A9], [E2 80 AF]), U+205F
    ([E2 81 9F]) and U+3000 ([E3 80 80]). *)
Definition is_space3 (c1 c2 c3 : ascii) : bool :=
  let a := nat_of_ascii c1 in
  let b := nat_of_ascii c2 in
  let c := nat_of_ascii c3 in
  ((Nat.eqb a 225 && Nat.eqb b 154 && Nat.eqb c 128)
   || (Nat.eqb a 226 && Nat.eqb b 128
       && ((Nat.leb 128 c && Nat.leb c 138)
           || Nat.eqb c 168 || Nat.eqb c 169 || Nat.eqb c 175))
   || (Nat.eqb a 226 && Nat.eqb b 129 && Nat.eqb c 159)
   || (Nat.eqb a 227 && Nat.eqb b 128 && Nat.eqb c 128))%bool.

(** What follows the whitespace character [s] starts with, if it starts with
    one. *)
Definition ws_head (s : string) : option string :=
  match s with
  | EmptyString => None
  | String c1 s1 =>
      if is_space1 c1 then Some s1
      else match s1 with
           | EmptyString => None
           | String c2 s2 =>
               if is_space2 c1 c2 then Some s2
               else match s2 with
                    | EmptyString => None
                    | String c3 s3 => if is_space3 c1 c2 c3 then Some s3 else None
                    end
           end
  end.

(** [s.lstrip()] *)
Fixpoint lstrip (s : string) : string :=
  match s with
  | EmptyString => EmptyString
  | String c1 s1 =>
      if is_space1 c1 then lstrip s1
      else match s1 with
           | EmptyString => s
           | String c2 s2 =>
               if is_space2 c1 c2 then lstrip s2
               else match s2 with
                    | EmptyString => s
                    | String c3 s3 => if is_space3 c1 c2 c3 then lstrip s3 else s
                    end
           end
  end.

(** [s] is whitespace from end to end. *)
Definition blank (s : string) : bool :=
  match lstrip s with
  | EmptyString => true
  | String _ _ => false
  end.

(** [s.rstrip()]: the shortest prefix of [s] that only whitespace follows. *)
Fixpoint rstrip (s : string) : string :=
  match s with
  | EmptyString => EmptyString
  | String c s' => if blank s then EmptyString else String c (rstrip s')
  end.

(** [s.strip()] *)
Definition strip (s : string) : string := rstrip (lstrip s).

(** [s.rstrip(chars)] for a set [sp] of one-byte characters. *)
Fixpoint rstrip_with (sp : ascii -> bool) (s : string) : string :=
  match s with
  | EmptyString => EmptyString
  | String c s' =>
      match rstrip_with sp s' with
      | EmptyString => if sp c then EmptyString else String c EmptyString
      | r => String c r
      end
  end.

(** [s.rstrip('/')] *)
Definition rstrip_slash (s : string) : string :=
  rstrip_with (fun c => Ascii.eqb c "/"%char) s.

(** [s.split(sep)] for a one-character separator: never empty. *)
Fixpoint split_on (sep : ascii) (s : string) : list string :=
  match s with
  | EmptyString => [EmptyString]
  | String c s' =>
      if Ascii.eqb c sep then EmptyString :: split_on sep s'
      else match split_on sep s' with
           | [] => [String c EmptyString]
           | h :: t => String c h :: t
           end
  end.

(** [s.split('/')[-1]]. *)
Definition last_segment (s : string) : string :=
  List.last (split_on "/"%char s) EmptyString.

Fixpoint prefixb (p s : string) : bool :=
  match p, s with
  | EmptyString, _ => true
  | String a p', String b s' => (Ascii.eqb a b && prefixb p' s')%bool
  | String _ _, EmptyString => false
  end.

(** [needle in hay] for strings. *)
Fixpoint substringb (needle hay : string) : bool :=
  (prefixb needle hay ||
   match hay with
   | EmptyString => false
   | String _ hay' => substringb needle hay'
   end)%bool.

(** [s.replace('Z', '+00:00')]. *)
Fixpoint replace_Z (s : string) : string :=
  match s with
  | EmptyString => EmptyString
  | String c s' =>
      if Ascii.eqb c "Z"%char then "+00:00" +:+ replace_Z s'
      else String c (replace_Z s')
  end.

(** ** The outside world *)

(** Shapes of the AWS responses the code reads (boto3 returns them typed). *)
Record LogConfiguration := {
  logDriver : option string;
  options : option (gmap string string)
}.

Record ContainerDefinition := {
  cd_name : option string;
  logConfiguration : option LogConfiguration
}.

Record TaskDefinition := {
  containerDefinitions : list ContainerDefinition
}.

Record LogEvent := {
  ev_timestamp : Z;
  ev_message : string
}.

(** Everything outside the process.  Each endpoint answers [None] when the
    call raises (transport error, error status, body that is not JSON). *)
Record World := {
  (** [os.environ] *)
  environ : gmap string string;
  (** [requests.post(url, auth=(username, password), json=body).json()] *)
  es_search : string -> string -> string -> pyval -> option pyval;
  (** [requests.post(url, headers=Bearer api_key, json=payload).text] *)
  cx_query : string -> string -> pyval -> option string;
  (** [ecs_client.describe_task_definition(taskDefinition=arn)] *)
  ecs_describe_task_definition : pyval -> option TaskDefinition;
  (** [describe_log_streams(logGroupName, logStreamNamePrefix, limit=1)]:
      the names of the streams returned *)
  cw_streams_by_prefix : string -> string -> option (list string);
  (** [describe_log_streams(logGroupName, orderBy='LastEventTime',
      descending=True, limit=50)] *)
  cw_streams_recent : string -> option (list string);
  (** [filter_log_events(logGroupName, logStreamNames=[stream], limit=100)] *)
  cw_filter_log_events : string -> string -> option (list LogEvent);
  (** the [k]-th reading of [int(datetime.now().timestamp() * 1000)] *)
  clock : nat -> Z
}.

(** Library functions of the interpreter that the model does not expand. *)
Record Runtime := {
  (** [str(v)], also what an f-string does to [v] *)
  py_str : pyval -> string;
  (** [json.loads(s)]; [None] is [json.JSONDecodeError] *)
  json_loads : string -> option pyval;
  (** [int(datetime.fromisoformat(s).timestamp() * 1000)]; [None] when
      either call raises *)
  fromisoformat_ms : string -> option Z
}.

(** ** Backends, network calls and the trace of a run *)

Inductive backend := Elasticsearch | Coralogix | CloudWatch.

Definition backend_name (b : backend) : string :=
  match b with
  | Elasticsearch => "elasticsearch"
  | Coralogix => "coralogix"
  | CloudWatch => "cloudwatch"
  end.

Inductive api :=
| EsSearch
| CxQuery
| EcsDescribeTaskDefinition
| CwDescribeLogStreams
| CwFilterLogEvents.

(** What a run does that an observer outside the function can see, in order:
    a call over the network, or an assignment to [crash_info['log_source']]. *)
Inductive event :=
| Net (a : api)
| HintWrite (b : backend).

Definition is_net (e : event) : bool :=
  match e with Net _ => true | HintWrite _ => false end.

(** The backend a network call belongs to; the control-plane lookup of the
    task definition is part of the CloudWatch path. *)
Definition api_backend (a : api) : backend :=
  match a with
  | EsSearch => Elasticsearch
  | CxQuery => Coralogix
  | EcsDescribeTaskDefinition | CwDescribeLogStreams | CwFilterLogEvents => CloudWatch
  end.

Definition net_calls (t : list event) : list api :=
  omap (fun e => match e with Net a => Some a | HintWrite _ => None end) t.

Definition hint_writes (t : list event) : list backend :=
  omap (fun e => match e with HintWrite b => Some b | Net _ => None end) t.

(** ** State and exceptions *)

(** The state a run threads: the [crash_info] dict (shared and mutated in
    place by every layer), the trace so far, and how often the clock was read. *)
Record Run := {
  crash_info : gmap string pyval;
  trace : list event;
  ticks : nat
}.

Inductive res (A : Type) : Type :=
| Ok (a : A)
| Raise.
Arguments Ok {A} a.
Arguments Raise {A}.

(** A computation that may mutate the state and may raise; what it did to the
    state before raising stays done. *)
Definition M (A : Type) : Type := Run -> res A * Run.

Definition ret {A} (a : A) : M A := fun st => (Ok a, st).

Definition bind {A B} (m : M A) (k : A -> M B) : M B :=
  fun st =>
    match m st with
    | (Ok a, st') => k a st'
    | (Raise, st') => (Raise, st')
    end.

Definition raise {A} : M A := fun st => (Raise, st).

(** [try: m  except Exception: h] *)
Definition try_except {A} (m : M A) (h : M A) : M A :=
  fun st =>
    match m st with
    | (Ok a, st') => (Ok a, st')
    | (Raise, st') => h st'
    end.

Declare Scope py_scope.
Delimit Scope py_scope with py.
Notation "x <- m ;; k" := (bind m (fun x => k))
  (at level 100, m at next level, right associativity) : py_scope.
Notation "m ;;; k" := (bind m (fun _ => k))
  (at level 100, right associativity) : py_scope.
Local Open Scope py_scope.

Definition get_crash_info : M (gmap string pyval) :=
  fun st => (Ok (crash_info st), st).

Definition emit (e : event) : M unit :=
  fun st => (Ok tt, {| crash_info := crash_info st;
                       trace := (trace st ++ [e])%list;
                       ticks := ticks st |}).

(** [crash_info[k] = v] *)
Definition set_item (k : string) (v : pyval) : M unit :=
  fun st => (Ok tt, {| crash_info := <[k := v]> (crash_info st);
                       trace := trace st;
                       ticks := ticks st |}).

(** [crash_info['log_source'] = '<backend>'] *)
Definition set_log_source (b : backend) : M unit :=
  set_item "log_source" (PStr (backend_name b)) ;;; emit (HintWrite b).

(** A call over the network: recorded, then its answer or its exception. *)
Definition call {A} (a : api) (answer : option A) : M A :=
  emit (Net a) ;;;
  match answer with
  | Some r => ret r
  | None => raise
  end.

(** [int(datetime.now().timestamp() * 1000)] *)
Definition now_ms (w : World) : M Z :=
  fun st => (Ok (clock w (ticks st)),
             {| crash_info := crash_info st;
                trace := trace st;
                ticks := S (ticks st) |}).

(** [for x in l: f(x)], collecting the results. *)
Fixpoint mapM {A B} (f : A -> M B) (l : list A) : M (list B) :=
  match l with
  | [] => ret []
  | x :: l' => y <- f x ;; ys <- mapM f l' ;; ret (y :: ys)
  end.

(** [v.get(k, dflt)]: [AttributeError] unless [v] is a dict. *)
Definition py_get (v : pyval) (k : string) (dflt : pyval) : M pyval :=
  match v with
  | PDict d => ret (default dflt (dict_get k d))
  | _ => raise
  end.

Fixpoint chars (s : string) : list pyval :=
  match s with
  | EmptyString => []
  | String c s' => PStr (String c EmptyString) :: chars s'
  end.

(** [for x in v]: the elements of a list, the keys of a dict, the characters
    of a string; [TypeError] otherwise. *)
Definition py_iter (v : pyval) : M (list pyval) :=
  match v with
  | PList l => ret l
  | PDict d => ret (map (fun kv => PStr (fst kv)) d)
  | PStr s => ret (chars s)
  | _ => raise
  end.

(** ** Backend selection: [elasticsearch_utils.detect_log_destination] *)

(** [os.environ.get(k)] is a non-empty string. *)
Definition env_set (w : World) (k : string) : bool :=
  match environ w !! k with
  | Some s => negb (String.eqb s EmptyString)
  | None => false
  end.

(** [os.environ.get(k, 'false').lower() == 'true'] *)
Definition env_flag (w : World) (k : string) : bool :=
  String.eqb (lower (default "false" (environ w !! k))) "true".

Definition elasticsearch_ready (w : World) : bool :=
  (env_flag w "ENABLE_ELASTICSEARCH_INTEGRATION"
   && env_set w "ELASTICSEARCH_ENDPOINT"
   && env_set w "ELASTICSEARCH_USERNAME"
   && env_set w "ELASTICSEARCH_PASSWORD")%bool.

Definition coralogix_ready (w : World) : bool :=
  (env_flag w "ENABLE_CORALOGIX_INTEGRATION"
   && env_set w "CORALOGIX_API_KEY"
   && env_set w "CORALOGIX_REGION")%bool.

(** The one destination the orchestrator starts from. *)
Definition detect_log_destination (w : World) : backend :=
  if elasticsearch_ready w then Elasticsearch
  else if coralogix_ready w then Coralogix
  else CloudWatch.

Definition backend_eqb (a b : backend) : bool :=
  match a, b with
  | Elasticsearch, Elasticsearch | Coralogix, Coralogix | CloudWatch, CloudWatch => true
  | _, _ => false
  end.

(** ** Search-engine adapter: [get_elasticsearch_logs] *)

Definition es_search_body (task_arn : pyval) : pyval :=
  PDict [("size", PInt 50);
         ("sort", PList [PDict [("@timestamp", PDict [("order", PStr "desc")])]]);
         ("query", PDict [("term", PDict [("ecs_task_arn", PDict [("value", task_arn)])])])].

(** The log entry built from the [_source] document of one hit. *)
Definition es_entry_of_source (source : list (string * pyval)) : pyval :=
  let field k dflt := default (PStr dflt) (dict_get k source) in
  PDict [("timestamp", field "@timestamp" EmptyString);
         ("message", field "message" EmptyString);
         ("level", field "level" "info");
         ("container_name", field "container_name" EmptyString);
         ("source", field "source" EmptyString);
         ("ecs_cluster", field "ecs_cluster" EmptyString);
         ("ecs_task_arn", field "ecs_task_arn" EmptyString);
         ("ecs_task_definition", field "ecs_task_definition" EmptyString);
         ("app_name", field "appName" EmptyString);
         ("environment", field "environment" EmptyString);
         ("version", field "version" EmptyString);
         ("category_name", field "categoryName" EmptyString);
         ("code", field "code" EmptyString);
         ("raw_log", PDict source)].

Definition es_log_entry (hit : pyval) : M pyval :=
  source <- py_get hit "_source" (PDict []) ;;
  match source with
  | PDict d => ret (es_entry_of_source d)
  | _ => raise
  end.

Definition get_elasticsearch_logs (w : World) : M (list pyval) :=
  try_except
    (if negb (env_set w "ELASTICSEARCH_ENDPOINT"
              && env_set w "ELASTICSEARCH_USERNAME"
              && env_set w "ELASTICSEARCH_PASSWORD")
     then ret []
     else
       ci <- get_crash_info ;;
       let task_arn := default PNone (ci !! "task_arn") in
       if negb (truthy task_arn) then ret []
       else
         set_log_source Elasticsearch ;;;
         let endpoint := default EmptyString (environ w !! "ELASTICSEARCH_ENDPOINT") in
         let username := default EmptyString (environ w !! "ELASTICSEARCH_USERNAME") in
         let password := default EmptyString (environ w !! "ELASTICSEARCH_PASSWORD") in
         let url := rstrip_slash endpoint +:+ "/_search" in
         result <- call EsSearch (es_search w url username password (es_search_body task_arn)) ;;
         outer <- py_get result "hits" (PDict []) ;;
         hits <- py_get outer "hits" (PList []) ;;
         items <- py_iter hits ;;
         log_entries <- mapM es_log_entry items ;;
         set_item "recent_logs" (PList log_entries) ;;;
         set_item "logs_count" (PInt (Z.of_nat (List.length log_entries))) ;;;
         ret log_entries)
    (ret []).

(** ** DataPrime adapter: [get_coralogix_logs] *)

(** ['results' in v] *)
Definition py_contains_results (v : pyval) : M bool :=
  match v with
  | PDict d => ret (match dict_get "results" d with Some _ => true | None => false end)
  | PList l => ret (existsb (is_str "results") l)
  | PStr s => ret (substringb "results" s)
  | _ => raise
  end.

(** [v['results']] *)
Definition py_index_results (v : pyval) : M pyval :=
  match v with
  | PDict d => match dict_get "results" d with Some r => ret r | None => raise end
  | _ => raise
  end.

(** [len(v)] succeeds. *)
Definition py_len (v : pyval) : M unit :=
  match v with
  | PList _ | PDict _ | PStr _ => ret tt
  | _ => raise
  end.

(** [v.keys()] succeeds. *)
Definition py_keys (v : pyval) : M unit :=
  match v with
  | PDict _ => ret tt
  | _ => raise
  end.

(** The loop over the lines of the response: [logs] grows by the
    [result.results] of each line that parses and has them. *)
Fixpoint cx_collect (rt : Runtime) (lines : list string) (logs : list pyval)
  : M (list pyval) :=
  match lines with
  | [] => ret logs
  | line :: rest =>
      match json_loads rt line with
      | None => cx_collect rt rest logs
      | Some line_data =>
          py_keys line_data ;;;
          match line_data with
          | PDict d =>
              match dict_get "result" d with
              | None => cx_collect rt rest logs
              | Some r =>
                  has <- py_contains_results r ;;
                  if has : bool then
                    current_logs <- py_index_results r ;;
                    py_len current_logs ;;;
                    items <- py_iter current_logs ;;
                    let logs' := (logs ++ items)%list in
                    mapM py_keys (take 3 logs') ;;;
                    cx_collect rt rest logs'
                  else cx_collect rt rest logs
              end
          | _ => raise
          end
      end
  end.

(** [x is not None and x != ''] for [x = d.get(k)] *)
Definition filled (o : option pyval) : bool :=
  match o with
  | None | Some PNone => false
  | Some v => negb (is_str EmptyString v)
  end.

(** Message precedence inside one structured blob: [message], then [log],
    then the blob itself as a string. *)
Definition cx_message_of (rt : Runtime) (d : list (string * pyval)) : string :=
  if filled (dict_get "message" d)
  then py_str rt (default PNone (dict_get "message" d))
  else if filled (dict_get "log" d)
  then py_str rt (default PNone (dict_get "log" d))
  else py_str rt (PDict d).

Definition cx_message (rt : Runtime) (log : list (string * pyval)) : M string :=
  let user_data := default (PStr "{}") (dict_get "userData" log) in
  let log_data := default (PDict []) (dict_get "data" log) in
  let raw := if truthy user_data then py_str rt user_data else py_str rt (PDict log) in
  if truthy log_data then
    match log_data with
    | PDict d => ret (cx_message_of rt d)
    | _ => raise
    end
  else
    match user_data with
    | PStr s =>
        match json_loads rt s with
        | Some (PDict d) => ret (cx_message_of rt d)
        | Some _ => raise
        | None => ret raw
        end
    | _ => ret raw
    end.

(** The loop over the metadata pairs: the value of the first pair whose key
    is ["timestamp"], [None] when there is none. *)
Fixpoint cx_find_timestamp (metas : list pyval) : M pyval :=
  match metas with
  | [] => ret PNone
  | meta :: rest =>
      k <- py_get meta "key" PNone ;;
      if is_str "timestamp" k then py_get meta "value" PNone
      else cx_find_timestamp rest
  end.

(** Conversion to epoch milliseconds, the current time on every failure. *)
Definition cx_timestamp_ms (rt : Runtime) (w : World) (timestamp_str : pyval) : M Z :=
  if truthy timestamp_str then
    match timestamp_str with
    | PStr s =>
        match fromisoformat_ms rt (replace_Z s) with
        | Some n => ret n
        | None => now_ms w
        end
    | _ => now_ms w
    end
  else now_ms w.

Definition cx_log_entry (rt : Runtime) (w : World) (log : pyval) : M (Z * string) :=
  py_keys log ;;;
  match log with
  | PDict l =>
      message <- cx_message rt l ;;
      metas <- py_iter (default (PList []) (dict_get "metadata" l)) ;;
      timestamp_str <- cx_find_timestamp metas ;;
      timestamp_ms <- cx_timestamp_ms rt w timestamp_str ;;
      ret (timestamp_ms, message)
  | _ => raise
  end.

(** [log_entries.sort(key=timestamp, reverse=True)]: stable, newest first. *)
Fixpoint insert_desc (x : Z * string) (l : list (Z * string)) : list (Z * string) :=
  match l with
  | [] => [x]
  | y :: l' => if fst y <=? fst x then x :: l else y :: insert_desc x l'
  end.

Definition sort_desc (l : list (Z * string)) : list (Z * string) :=
  foldr insert_desc [] l.

Definition log_entry (e : Z * string) : pyval :=
  PDict [("timestamp", PInt (fst e)); ("message", PStr (snd e))].

Definition cx_query_text (rt : Runtime) (service_name task_arn : pyval) : string :=
  "source logs last 1h | filter $l.subsystemname ~ '" +:+ py_str rt service_name
  +:+ "' | filter $d.ecs_task_arn ~ '" +:+ py_str rt task_arn +:+ "' | limit 50".

Definition get_coralogix_logs (rt : Runtime) (w : World) : M (list pyval) :=
  try_except
    (if negb (env_set w "CORALOGIX_API_KEY" && env_set w "CORALOGIX_REGION")
     then ret []
     else
       ci <- get_crash_info ;;
       let task_arn := default (PStr EmptyString) (ci !! "task_arn") in
       if negb (truthy task_arn) then ret []
       else
         set_log_source Coralogix ;;;
         let api_key := default EmptyString (environ w !! "CORALOGIX_API_KEY") in
         let region := default EmptyString (environ w !! "CORALOGIX_REGION") in
         match ci !! "service_name" with
         | None => raise
         | Some service_name =>
             let query := cx_query_text rt service_name task_arn in
             let url := "https://api." +:+ region +:+ ".coralogix.com/api/v1/dataprime/query" in
             let payload := PDict [("query", PStr query);
                                   ("metadata", PDict [("tier", PStr "TIER_ARCHIVE")])] in
             response_text <- call CxQuery (cx_query w url api_key payload) ;;
             let response_lines :=
               List.filter (fun l => negb (String.eqb l EmptyString))
                 (map strip (split_on (ascii_of_nat 10) (strip response_text))) in
             logs <- cx_collect rt response_lines [] ;;
             match logs with
             | [] => ret []
             | _ =>
                 log_entries <- mapM (cx_log_entry rt w) logs ;;
                 ret (map log_entry (sort_desc log_entries))
             end
         end)
    (ret []).

(** ** CloudWatch adapter: [ecs_utils] and [logs_utils] *)

(** [failed_container.get('name', '') if failed_container else ''] *)
Definition container_name_of (failed_container : pyval) : M pyval :=
  if truthy failed_container then py_get failed_container "name" (PStr EmptyString)
  else ret (PStr EmptyString).

(** The loop over the container definitions: the first one with the crashed
    container's name decides; [awslogs] gives its options, any other driver
    gives [None]. *)
Fixpoint find_log_options (container_name : pyval) (defs : list ContainerDefinition)
  : option (gmap string string) :=
  match defs with
  | [] => None
  | container_def :: rest =>
      if match cd_name container_def with
         | Some n => is_str n container_name
         | None => false
         end
      then
        match logConfiguration container_def with
        | Some log_config =>
            if match logDriver log_config with
               | Some drv => String.eqb drv "awslogs"
               | None => false
               end
            then Some (default ∅ (options log_config))
            else None
        | None => None
        end
      else find_log_options container_name rest
  end.

Definition get_log_configuration_from_task_def (w : World)
  : M (option (gmap string string)) :=
  try_except
    (ci <- get_crash_info ;;
     let task_def_arn := default PNone (ci !! "task_definition_arn") in
     if negb (truthy task_def_arn) then ret None
     else
       task_def <- call EcsDescribeTaskDefinition
                     (ecs_describe_task_definition w task_def_arn) ;;
       container_name <- container_name_of (default (PDict []) (ci !! "failed_container")) ;;
       if negb (truthy container_name) then ret None
       else ret (find_log_options container_name (containerDefinitions task_def)))
    (ret None).

(** [[prefix/]container-name/task-id] *)
Definition stream_name (stream_prefix container_name task_id : string) : string :=
  if String.eqb stream_prefix EmptyString then container_name +:+ "/" +:+ task_id
  else stream_prefix +:+ "/" +:+ container_name +:+ "/" +:+ task_id.

Definition cw_log_entry (e : LogEvent) : pyval :=
  log_entry (ev_timestamp e, strip (ev_message e)).

Definition get_logs_from_stream (w : World) (log_group log_stream : string)
  : M (list pyval) :=
  try_except
    (events <- call CwFilterLogEvents (cw_filter_log_events w log_group log_stream) ;;
     ret (map cw_log_entry events))
    (ret []).

(** The verification of the stream name: the stream to read, or [None] where
    the source returns the empty list. *)
Definition verify_log_stream (w : World) (log_group log_stream task_id : string)
  : M (option string) :=
  try_except
    (streams <- call CwDescribeLogStreams (cw_streams_by_prefix w log_group log_stream) ;;
     match streams with
     | actual_stream :: _ => ret (Some actual_stream)
     | [] =>
         recent <- call CwDescribeLogStreams (cw_streams_recent w log_group) ;;
         ret (head (List.filter (substringb task_id) recent))
     end)
    (ret None).

Definition get_logs_with_config (rt : Runtime) (w : World)
    (log_config : gmap string string) (task_id : string) : M (list pyval) :=
  try_except
    (let log_group := default EmptyString (log_config !! "awslogs-group") in
     let stream_prefix := default EmptyString (log_config !! "awslogs-stream-prefix") in
     if String.eqb log_group EmptyString then ret []
     else
       ci <- get_crash_info ;;
       container_name <- container_name_of (default (PDict []) (ci !! "failed_container")) ;;
       if negb (truthy container_name) then ret []
       else
         let log_stream := stream_name stream_prefix (py_str rt container_name) task_id in
         verified <- verify_log_stream w log_group log_stream task_id ;;
         match verified with
         | Some stream => get_logs_from_stream w log_group stream
         | None => ret []
         end)
    (ret []).

Definition get_cloudwatch_logs (rt : Runtime) (w : World) : M (list pyval) :=
  try_except
    (ci <- get_crash_info ;;
     let failed_container := default PNone (ci !! "failed_container") in
     if negb (truthy failed_container) then ret []
     else
       container_name <- py_get failed_container "name" (PStr EmptyString) ;;
       let task_arn := default (PStr EmptyString) (ci !! "task_arn") in
       if negb (truthy container_name && truthy task_arn) then ret []
       else
         match task_arn with
         | PStr arn =>
             let task_id := last_segment arn in
             log_config <- get_log_configuration_from_task_def w ;;
             match log_config with
             | Some cfg =>
                 if bool_decide (cfg = ∅) then ret []
                 else
                   logs <- get_logs_with_config rt w cfg task_id ;;
                   match logs with
                   | [] => ret []
                   | _ => set_log_source CloudWatch ;;; ret logs
                   end
             | None => ret []
             end
         | _ => raise
         end)
    (ret []).

(** ** Orchestrator: [get_recent_logs] *)

(** [crash_info.get('log_source') not in ['coralogix', 'elasticsearch']] *)
Definition hint_is_free (ci : gmap string pyval) : bool :=
  match ci !! "log_source" with
  | Some v => negb (is_str "coralogix" v || is_str "elasticsearch" v)
  | None => true
  end.

(** The last stage of the orchestrator: read CloudWatch and return whatever it
    has. *)
Definition cloudwatch_stage (rt : Runtime) (w : World) : M (list pyval) :=
  logs <- get_cloudwatch_logs rt w ;;
  ci <- get_crash_info ;;
  (if (truthy (PList logs) && hint_is_free ci)%bool
   then set_log_source CloudWatch else ret tt) ;;;
  ret logs.

(** A primary stage: query the adapter, keep a non-empty answer and re-assert
    the hint; on an empty one go on to [next]. *)
Definition primary_stage (b : backend) (fetch : M (list pyval))
    (next : M (list pyval)) : M (list pyval) :=
  logs <- fetch ;;
  match logs with
  | [] => next
  | _ => set_log_source b ;;; ret logs
  end.

Definition get_recent_logs (rt : Runtime) (w : World) : M (list pyval) :=
  try_except
    (ci <- get_crash_info ;;
     if negb (truthy (default PNone (ci !! "failed_container"))) then ret []
     else
       let log_destination := detect_log_destination w in
       let from_cloudwatch :=
         if (backend_eqb log_destination CloudWatch
             || backend_eqb log_destination Coralogix
             || backend_eqb log_destination Elasticsearch)%bool
         then cloudwatch_stage rt w
         else ret [] in
       let from_coralogix :=
         if backend_eqb log_destination Coralogix
         then primary_stage Coralogix (get_coralogix_logs rt w) from_cloudwatch
         else from_cloudwatch in
       if backend_eqb log_destination Elasticsearch
       then primary_stage Elasticsearch (get_elasticsearch_logs w) from_coralogix
       else from_coralogix)
    (ret []).

(** The state a resolution starts from. *)
Definition initial (ci : gmap string pyval) : Run :=
  {| crash_info := ci; trace := []; ticks := 0 |}.

(** One run from a fresh trace: the entries returned and the final state. *)
Definition resolve (rt : Runtime) (w : World) (ci : gmap string pyval)
  : list pyval * Run :=
  match get_recent_logs rt w (initial ci) with
  | (Ok logs, st) => (logs, st)
  | (Raise, st) => ([], st)
  end.

(** ** Vocabulary of the properties *)

(** The crash context carries a task identifier: [task_arn] is present and
    true as a Python value. *)
Definition has_task_arn (ci : gmap string pyval) : bool :=
  match ci !! "task_arn" with
  | Some v => truthy v
  | None => false
  end.

(** The crash context names a failed container. *)
Definition has_failed_container (ci : gmap string pyval) : bool :=
  match ci !! "failed_container" with
  | Some v => truthy v
  | None => false
  end.

(** The adapter of a backend. *)
Definition fetch (rt : Runtime) (w : World) (b : backend) : M (list pyval) :=
  match b with
  | Elasticsearch => get_elasticsearch_logs w
  | Coralogix => get_coralogix_logs rt w
  | CloudWatch => get_cloudwatch_logs rt w
  end.

(** The value the hint field has when it names backend [b]. *)
Definition hint_names (b : backend) (st : Run) : Prop :=
  crash_info st !! "log_source" = Some (PStr (backend_name b)).

(** [entry['timestamp']] *)
Definition entry_timestamp (entry : pyval) : option pyval :=
  match entry with
  | PDict d => dict_get "timestamp" d
  | _ => None
  end.

(** The timestamp of an entry is a non-negative integer. *)
Definition epoch_ms_timestamp (entry : pyval) : Prop :=
  exists n : Z, entry_timestamp entry = Some (PInt n) /\ 0 <= n.

(** The cascade as the specification words it, for a world where both the
    search engine and DataPrime are enabled and configured: a non-empty
    answer of the search engine keeps DataPrime unqueried, an empty one makes
    DataPrime the very next backend queried. *)
Definition cascade_as_stated (rt : Runtime) (w : World) (ci : gmap string pyval)
  : Prop :=
  elasticsearch_ready w = true -> coralogix_ready w = true ->
  has_task_arn ci = true ->
  forall es_logs st1,
    get_elasticsearch_logs w (initial ci) = (Ok es_logs, st1) ->
    (es_logs <> [] -> CxQuery ∉ net_calls (trace (resolve rt w ci).2)) /\
    (es_logs = [] ->
     exists rest, net_calls (trace (resolve rt w ci).2) = EsSearch :: CxQuery :: rest).

(** The timestamps as the specification words them: whatever adapter
    produced an entry, its timestamp is a non-negative integer. *)
Definition timestamps_as_stated (rt : Runtime) (w : World) (ci : gmap string pyval)
  : Prop :=
  forall b logs st',
    fetch rt w b (initial ci) = (Ok logs, st') ->
    Forall epoch_ms_timestamp logs.

(** ** Specifications of the stages *)

(** [m] neither writes [crash_info] nor adds to the trace; it may read the
    clock and it may raise. *)
Definition quiet {A} (m : M A) : Prop :=
  forall st, crash_info (m st).2 = crash_info st /\ trace (m st).2 = trace st.

(** [m] adds nothing to the trace and leaves the hint field as it is; it may
    write other fields of [crash_info]. *)
Definition keeps {A} (m : M A) : Prop :=
  forall st, trace (m st).2 = trace st /\
             crash_info (m st).2 !! "log_source" = crash_info st !! "log_source".

(** The search-engine adapter's own guard: endpoint and credentials. *)
Definition elasticsearch_configured (w : World) : bool :=
  (env_set w "ELASTICSEARCH_ENDPOINT" && env_set w "ELASTICSEARCH_USERNAME"
   && env_set w "ELASTICSEARCH_PASSWORD")%bool.

(** What the search-engine adapter does to the state: past its guards it
    writes the hint and makes its one call; short of them it does nothing. *)
Definition es_outcome (w : World) (st : Run) (logs : list pyval) (st' : Run) : Prop :=
  if (elasticsearch_configured w && has_task_arn (crash_info st))%bool
  then trace st' = (trace st ++ [HintWrite Elasticsearch; Net EsSearch])%list
       /\ hint_names Elasticsearch st'
  else logs = [] /\ st' = st.

(** The DataPrime adapter's own guard: API key and region. *)
Definition coralogix_configured (w : World) : bool :=
  (env_set w "CORALOGIX_API_KEY" && env_set w "CORALOGIX_REGION")%bool.

(** What the DataPrime adapter does to the state: past its guards it writes
    the hint and, unless the query cannot be built, makes its one call. *)
Definition cx_outcome (w : World) (st : Run) (logs : list pyval) (st' : Run) : Prop :=
  if (coralogix_configured w && has_task_arn (crash_info st))%bool
  then hint_names Coralogix st' /\
       (trace st' = (trace st ++ [HintWrite Coralogix; Net CxQuery])%list \/
        trace st' = (trace st ++ [HintWrite Coralogix])%list /\ logs = [])
  else logs = [] /\ st' = st.

(** [m] only reads CloudWatch: it leaves [crash_info] alone and adds nothing
    to the trace but network calls of the CloudWatch path. *)
Definition cw_reader {A} (m : M A) : Prop :=
  forall st,
    crash_info (m st).2 = crash_info st /\
    exists calls,
      trace (m st).2 = (trace st ++ map Net calls)%list /\
      Forall (fun a => api_backend a = CloudWatch) calls.

(** What the CloudWatch adapter may do to the state: network calls of its own
    path only, and one write of the hint, last, exactly when it has entries
    to return. *)
Definition cw_outcome (st : Run) (r : res (list pyval)) (st' : Run) : Prop :=
  exists calls,
    Forall (fun a => api_backend a = CloudWatch) calls /\
    match r with
    | Ok (_ :: _) =>
        hint_names CloudWatch st' /\
        trace st' = (trace st ++ map Net calls ++ [HintWrite CloudWatch])%list
    | _ =>
        crash_info st' = crash_info st /\
        trace st' = (trace st ++ map Net calls)%list
    end.

(** [m] behaves as [cw_outcome] allows from every state. *)
Definition cw_writer (m : M (list pyval)) : Prop :=
  forall st, cw_outcome st (m st).1 (m st).2.

(** The state after the hint, already naming [b], is written again. *)
Definition reasserted (b : backend) (st : Run) : Run :=
  {| crash_info := crash_info st;
     trace := (trace st ++ [HintWrite b])%list;
     ticks := ticks st |}.

(** The orchestrator with its guard passed: the destination picked once, its
    stage, and CloudWatch behind every primary stage. *)
Definition stages (rt : Runtime) (w : World) : M (list pyval) :=
  match detect_log_destination w with
  | Elasticsearch =>
      primary_stage Elasticsearch (get_elasticsearch_logs w) (cloudwatch_stage rt w)
  | Coralogix =>
      primary_stage Coralogix (get_coralogix_logs rt w) (cloudwatch_stage rt w)
  | CloudWatch => cloudwatch_stage rt w
  end.

(** ** Sample inputs *)

Definition sample_crash_info : gmap string pyval :=
  list_to_map
    [("task_arn", PStr "arn:aws:ecs:eu-west-1:123456789012:task/prod/abc123");
     ("task_definition_arn", PStr "arn:aws:ecs:eu-west-1:123456789012:task-definition/app:7");
     ("service_name", PStr "api");
     ("failed_container", PDict [("name", PStr "web"); ("exitCode", PInt 1)])].

(** The same crash without a task ARN. *)
Definition sample_crash_info_no_task : gmap string pyval :=
  <["task_arn" := PStr EmptyString]> sample_crash_info.

Definition sample_environ : gmap string string :=
  list_to_map
    [("ENABLE_ELASTICSEARCH_INTEGRATION", "true");
     ("ELASTICSEARCH_ENDPOINT", "https://es.example.com/");
     ("ELASTICSEARCH_USERNAME", "reader");
     ("ELASTICSEARCH_PASSWORD", "secret");
     ("ENABLE_CORALOGIX_INTEGRATION", "True");
     ("CORALOGIX_API_KEY", "key");
     ("CORALOGIX_REGION", "eu2")].

(** Only the DataPrime backend enabled and configured. *)
Definition sample_environ_coralogix : gmap string string :=
  delete "ENABLE_ELASTICSEARCH_INTEGRATION" sample_environ.

Definition sample_task_definition : TaskDefinition :=
  {| containerDefinitions :=
       [{| cd_name := Some "sidecar"; logConfiguration := None |};
        {| cd_name := Some "web";
           logConfiguration :=
             Some {| logDriver := Some "awslogs";
                     options := Some (list_to_map
                       [("awslogs-group", "/ecs/app");
                        ("awslogs-stream-prefix", "ecs");
                        ("awslogs-region", "eu-west-1")]) |} |}] |}.

Definition sample_events : list LogEvent :=
  [{| ev_timestamp := 1758448772100; ev_message := "starting  " |};
   {| ev_timestamp := 1758448772900; ev_message := "fatal: out of memory" |}].

(** A search hit whose [@timestamp] is an ISO-8601 string, as the search
    engine stores it. *)
Definition sample_hit : pyval :=
  PDict [("_source", PDict [("@timestamp", PStr "2025-09-21T09:59:32.100Z");
                            ("message", PStr "boom")])].

Definition sample_es_response (hits : list pyval) : pyval :=
  PDict [("took", PInt 3); ("hits", PDict [("total", PInt 1); ("hits", PList hits)])].

(** A world whose search engine answers with [hits], whose DataPrime service
    answers with [cx_text], and whose CloudWatch stream
    [ecs/web/abc123] of group [/ecs/app] holds [sample_events]. *)
Definition sample_world (env : gmap string string) (hits : list pyval)
    (cx_text : string) : World :=
  {| environ := env;
     es_search := fun _ _ _ _ => Some (sample_es_response hits);
     cx_query := fun _ _ _ => Some cx_text;
     ecs_describe_task_definition := fun _ => Some sample_task_definition;
     cw_streams_by_prefix := fun g p =>
       if (String.eqb g "/ecs/app" && String.eqb p "ecs/web/abc123")%bool
       then Some ["ecs/web/abc123"] else Some [];
     cw_streams_recent := fun _ => Some [];
     cw_filter_log_events := fun g s =>
       if (String.eqb g "/ecs/app" && String.eqb s "ecs/web/abc123")%bool
       then Some sample_events else Some [];
     clock := fun k => 1758450000000 + Z.of_nat k |}.

(** The double quote, for the sample JSON lines below. *)
Definition dq : string := String (ascii_of_nat 34) EmptyString.

(** The two lines the sample DataPrime service sends before a line of
    garbage: the query id, then the results. *)
Definition sample_cx_line1 : string :=
  "{" +:+ dq +:+ "queryId" +:+ dq +:+ ":{" +:+ dq +:+ "queryId" +:+ dq +:+ ":"
  +:+ dq +:+ "q1" +:+ dq +:+ "}}".

Definition sample_cx_line2 : string :=
  "{" +:+ dq +:+ "result" +:+ dq +:+ ":{" +:+ dq +:+ "results" +:+ dq +:+ ":[...]}}".

Definition sample_cx_text : string :=
  sample_cx_line1 +:+ String (ascii_of_nat 10) sample_cx_line2
  +:+ String (ascii_of_nat 10) "garbage" +:+ String (ascii_of_nat 10) EmptyString.

(** A runtime good enough for the samples: [str] of a string is the string,
    [json.loads] knows the two lines above, and the ISO parser knows one
    instant. *)
Definition sample_runtime : Runtime :=
  {| py_str := fun v => match v with PStr s => s | _ => "<object>" end;
     json_loads := fun s =>
       if String.eqb s sample_cx_line1
       then Some (PDict [("queryId", PDict [("queryId", PStr "q1")])])
       else if String.eqb s sample_cx_line2
       then Some (PDict [("result", PDict [("results", PList
              [PDict [("metadata", PList [PDict [("key", PStr "timestamp");
                                                 ("value", PStr "2025-09-21T09:59:32.100026178")]]);
                      ("data", PDict [("message", PStr EmptyString); ("log", PStr "boom")])];
               PDict [("metadata", PList [PDict [("key", PStr "severity");
                                                 ("value", PStr "5")]]);
                      ("userData", PStr "not json")]])])])
       else None;
     fromisoformat_ms := fun s =>
       if String.eqb s "2025-09-21T09:59:32.100026178" then Some 1758448772100
       else None |}.

(** ** Further definitions *)

(** ** UI links: [urllib.parse.quote] and the two link generators *)

(** The bytes [quote] never escapes: letters, digits and [_.-~]. *)
Definition always_safe (c : ascii) : bool :=
  let n := nat_of_ascii c in
  ((Nat.leb 65 n && Nat.leb n 90) || (Nat.leb 97 n && Nat.leb n 122)
   || (Nat.leb 48 n && Nat.leb n 57)
   || Nat.eqb n 95 || Nat.eqb n 46 || Nat.eqb n 45 || Nat.eqb n 126)%bool.

(** One digit of ['%02X']. *)
Definition hex_digit (n : nat) : ascii :=
  if Nat.ltb n 10 then ascii_of_nat (48 + n) else ascii_of_nat (55 + n).

(** ['%{:02X}'.format(byte)] *)
Definition percent_encode (c : ascii) : string :=
  let n := nat_of_ascii c in
  String "%"%char (String (hex_digit (n / 16)) (String (hex_digit (n mod 16)) EmptyString)).

(** [urllib.parse.quote(s, safe)] on the UTF-8 bytes of [s]; [safe] tells the
    bytes of the [safe] argument. *)
Fixpoint quote (safe : ascii -> bool) (s : string) : string :=
  match s with
  | EmptyString => EmptyString
  | String c s' =>
      (if (always_safe c || safe c)%bool then String c EmptyString
       else percent_encode c) +:+ quote safe s'
  end.

(** [safe=''] *)
Definition safe_none (c : ascii) : bool := false.

(** [safe='/'], the default. *)
Definition safe_slash (c : ascii) : bool := Ascii.eqb c "/"%char.

(** [elasticsearch_utils.generate_elasticsearch_ui_link]; [None] is the
    [None] of the source, returned also from its [except]. *)
Definition generate_elasticsearch_ui_link (w : World) (ci : gmap string pyval)
  : option string :=
  if negb (env_set w "KIBANA_URL") then None
  else
    let kibana_url := default EmptyString (environ w !! "KIBANA_URL") in
    let task_arn := default PNone (ci !! "task_arn") in
    if negb (truthy task_arn) then None
    else
      match task_arn with
      | PStr arn =>
          let base_url := rstrip_slash kibana_url in
          let discover_path := "/app/discover" in
          let encoded_task_arn := quote safe_none arn in
          let g_param := "(time:(from:now-1h,to:now))" in
          let a_param := "(query:(language:kuery,query:'ecs_task_arn:%22"
                         +:+ encoded_task_arn +:+ "%22'))" in
          Some (base_url +:+ discover_path +:+ "#/?_g=" +:+ g_param
                +:+ "&_a=" +:+ a_param)
      | _ => None
      end.

(** [coralogix_utils.generate_coralogix_ui_link] *)
Definition generate_coralogix_ui_link (rt : Runtime) (w : World)
    (ci : gmap string pyval) (logs_limit : Z) : option string :=
  if negb (env_set w "CORALOGIX_ACCOUNT" && env_set w "CORALOGIX_REGION") then None
  else
    let account := default EmptyString (environ w !! "CORALOGIX_ACCOUNT") in
    let region := default EmptyString (environ w !! "CORALOGIX_REGION") in
    let task_arn := default (PStr EmptyString) (ci !! "task_arn") in
    if negb (truthy task_arn) then None
    else
      match ci !! "service_name" with
      | None => None
      | Some service_name =>
          let query := "source logs  | filter $l.subsystemname ~ '"
                       +:+ py_str rt service_name
                       +:+ "' | filter $d.ecs_task_arn ~ '" +:+ py_str rt task_arn
                       +:+ "' | limit " +:+ py_str rt (PInt logs_limit) in
          let encoded_query := quote safe_slash query in
          let base_url := "https://" +:+ account +:+ ".app." +:+ region
                          +:+ ".coralogix.com" in
          Some (base_url
                +:+ "/#/query-new/archive-logs?time=from:now-1h,to:now&querySyntax=dataprime&query="
                +:+ encoded_query)
      end.

(** [coralogix_utils.is_coralogix_enabled] *)
Definition is_coralogix_enabled (w : World) : bool :=
  let api_key := env_set w "CORALOGIX_API_KEY" in
  let region := env_set w "CORALOGIX_REGION" in
  let account := env_set w "CORALOGIX_ACCOUNT" in
  let enabled :=
    String.eqb (lower (default EmptyString (environ w !! "ENABLE_CORALOGIX_INTEGRATION")))
               "true" in
  (enabled && (api_key && region && account))%bool.

(** ** From the event to the enriched crash context: [ecs_utils] *)

(** [s.replace(old, '')] for a non-empty [old]: [skip] counts the characters
    of a match that are still to be dropped. *)
Fixpoint remove_sub_from (old : string) (skip : nat) (s : string) : string :=
  match s with
  | EmptyString => EmptyString
  | String c s' =>
      match skip with
      | S k => remove_sub_from old k s'
      | O =>
          if prefixb old s then remove_sub_from old (String.length old - 1) s'
          else String c (remove_sub_from old 0 s')
      end
  end.

Definition remove_sub (old s : string) : string := remove_sub_from old 0 s.

(** [v != 0] *)
Definition py_ne_zero (v : pyval) : bool :=
  match v with
  | PInt n => negb (n =? 0)
  | PBool b => b
  | _ => true
  end.

(** The loop over the containers of the event: the first one whose
    [exitCode] differs from zero.  The outer [None] is the [AttributeError]
    of a container that is not a dict. *)
Fixpoint first_failed (containers : list pyval)
  : option (option (list (string * pyval))) :=
  match containers with
  | [] => Some None
  | PDict c :: rest =>
      if py_ne_zero (default (PInt 0) (dict_get "exitCode" c)) then Some (Some c)
      else first_failed rest
  | _ :: _ => None
  end.

(** The elements of [for x in v], without the monad: [None] is [TypeError]. *)
Definition py_elements (v : pyval) : option (list pyval) :=
  match v with
  | PList l => Some l
  | PDict d => Some (map (fun kv => PStr (fst kv)) d)
  | PStr s => Some (chars s)
  | _ => None
  end.

(** [v.split(sep)[-1] if v else dflt]: [None] when [v] is true and is not a
    string. *)
Definition last_part_or (sep : ascii) (dflt : string) (v : pyval) : option pyval :=
  if truthy v then
    match v with
    | PStr s => Some (PStr (List.last (split_on sep s) EmptyString))
    | _ => None
    end
  else Some (PStr dflt).

(** [ecs_utils.extract_crash_info]: the crash context of an event detail.
    [now_iso] is [datetime.now(timezone.utc).isoformat()]; [None] is an
    exception, which the handler answers with status 500. *)
Definition extract_crash_info (now_iso : string) (detail : pyval)
  : option (gmap string pyval) :=
  match detail with
  | PDict d =>
      let get k dflt := default dflt (dict_get k d) in
      let cluster_arn := get "clusterArn" (PStr EmptyString) in
      cluster_name ← last_part_or "/"%char "unknown" cluster_arn;
      let group := get "group" (PStr EmptyString) in
      service_name ← match group with
                     | PStr g =>
                         Some (PStr (if prefixb "service:" g
                                     then remove_sub "service:" g else g))
                     | _ => None
                     end;
      let containers := get "containers" (PList []) in
      items ← py_elements containers;
      found ← first_failed items;
      let '(failed_container, exit_code, container_reason) :=
        match found with
        | Some c =>
            (PDict c, default PNone (dict_get "exitCode" c),
             default (PStr EmptyString) (dict_get "reason" c))
        | None =>
            match items with
            | PDict c :: _ =>
                (PDict c, PNone, default (PStr EmptyString) (dict_get "reason" c))
            | _ => (PNone, PNone, PNone)
            end
        end in
      let task_definition_arn := get "taskDefinitionArn" (PStr EmptyString) in
      task_def_version ← last_part_or ":"%char "N/A" task_definition_arn;
      Some (list_to_map
        [("timestamp", get "createdAt" (PStr now_iso));
         ("started_at", get "startedAt" (PStr EmptyString));
         ("cluster_name", cluster_name);
         ("cluster_arn", cluster_arn);
         ("service_name", service_name);
         ("task_arn", get "taskArn" (PStr EmptyString));
         ("task_definition_arn", task_definition_arn);
         ("task_definition_version", task_def_version);
         ("stopped_reason", get "stoppedReason" (PStr EmptyString));
         ("stop_code", get "stopCode" (PStr EmptyString));
         ("exit_code", exit_code);
         ("container_reason", container_reason);
         ("failed_container", failed_container);
         ("last_status", get "lastStatus" (PStr EmptyString));
         ("desired_status", get "desiredStatus" (PStr EmptyString))])
  | _ => None
  end.

(** What [enrich_crash_data] needs beyond the log retrieval: the fields of
    the task-definition answer that [TaskDefinition] leaves out ([cpu],
    [memory], [networkMode]; [None] when absent), and the text of the two
    exceptions whose message is not a key name. *)
Record EnrichRuntime := {
  td_attrs : TaskDefinition -> pyval * pyval * pyval;
  attribute_error_text : pyval -> string;
  exception_text : string
}.

(** [ecs_utils.get_task_definition_details] *)
Definition get_task_definition_details (er : EnrichRuntime) (w : World)
    (task_def_arn : pyval) : M (list (string * pyval)) :=
  try_except
    (task_def <- call EcsDescribeTaskDefinition
                   (ecs_describe_task_definition w task_def_arn) ;;
     let '(cpu, memory, network_mode) := td_attrs er task_def in
     ret [("cpu", cpu); ("memory", memory); ("network_mode", network_mode);
          ("container_count",
           PInt (Z.of_nat (List.length (containerDefinitions task_def))))])
    (ret []).

(** [d.update(items)] *)
Definition dict_update (items : list (string * pyval)) (d : gmap string pyval)
  : gmap string pyval :=
  foldl (fun acc kv => <[kv.1 := kv.2]> acc) d items.

(** The first half of the [try] block of [enrich_crash_data]: the log
    retrieval.  The result is the enriched dict so far and, when the block
    raised, the text of the exception. *)
Definition enrich_logs (er : EnrichRuntime) (rt : Runtime) (w : World)
    (enriched : gmap string pyval) (st : Run)
  : gmap string pyval * option string * Run :=
  match crash_info st !! "failed_container" with
  | None => (enriched, Some "'failed_container'", st)
  | Some failed_container =>
      if truthy failed_container then
        match failed_container with
        | PDict _ =>
            match get_recent_logs rt w st with
            | (Ok log_entries, st1) =>
                let with_logs := <["recent_logs" := PList log_entries]> enriched in
                (match crash_info st1 !! "log_source" with
                 | Some log_source => <["log_source" := log_source]> with_logs
                 | None => with_logs
                 end, None, st1)
            | (Raise, st1) => (enriched, Some (exception_text er), st1)
            end
        | _ => (enriched, Some (attribute_error_text er failed_container), st)
        end
      else (enriched, None, st)
  end.

(** [ecs_utils.enrich_crash_data]: the enriched copy handed to the notifier,
    and the state the shared [crash_info] is left in. *)
Definition enrich_crash_data (er : EnrichRuntime) (rt : Runtime) (w : World)
    (st : Run) : gmap string pyval * Run :=
  let enriched := crash_info st in
  match enrich_logs er rt w enriched st with
  | (enriched1, Some err, st1) =>
      (<["enrichment_error" := PStr err]> enriched1, st1)
  | (enriched1, None, st1) =>
      match crash_info st1 !! "task_definition_arn" with
      | None =>
          (<["enrichment_error" := PStr "'task_definition_arn'"]> enriched1, st1)
      | Some task_definition_arn =>
          if truthy task_definition_arn then
            match get_task_definition_details er w task_definition_arn st1 with
            | (Ok task_def_details, st2) =>
                (dict_update task_def_details enriched1, st2)
            | (Raise, st2) =>
                (<["enrichment_error" := PStr (exception_text er)]> enriched1, st2)
            end
          else (enriched1, st1)
      end
  end.

(** ** More sample inputs *)

(** The sample world with a search engine that has no hit for the task. *)
Definition sample_world_no_hit : World :=
  sample_world sample_environ [] sample_cx_text.

(** The sample world with DataPrime as the only primary backend. *)
Definition sample_world_coralogix : World :=
  sample_world sample_environ_coralogix [] sample_cx_text.

(** The sample world with neither primary backend enabled. *)
Definition sample_world_cloudwatch : World :=
  sample_world ∅ [] sample_cx_text.

(** A parser for which one instant lies before 1970. *)
Definition sample_runtime_1969 : Runtime :=
  {| py_str := py_str sample_runtime;
     json_loads := json_loads sample_runtime;
     fromisoformat_ms := fun s =>
       if String.eqb s "2025-09-21T09:59:32.100026178" then Some (-1)
       else None |}.

(** The sample crash without a task definition: CloudWatch cannot be read. *)
Definition sample_crash_info_no_task_def : gmap string pyval :=
  delete "task_definition_arn" sample_crash_info.

(** The detail of a task-stopped event: a sidecar that exited cleanly and a
    container that did not. *)
Definition sample_detail : list (string * pyval) :=
  [("clusterArn", PStr "arn:aws:ecs:eu-west-1:123456789012:cluster/prod");
   ("group", PStr "service:api");
   ("taskArn", PStr "arn:aws:ecs:eu-west-1:123456789012:task/prod/abc123");
   ("taskDefinitionArn", PStr "arn:aws:ecs:eu-west-1:123456789012:task-definition/app:7");
   ("containers", PList [PDict [("name", PStr "sidecar"); ("exitCode", PInt 0)];
                         PDict [("name", PStr "web"); ("exitCode", PInt 137);
                                ("reason", PStr "OutOfMemoryError")]])].

(** The same event before any container was started. *)
Definition sample_detail_no_container : list (string * pyval) :=
  [("clusterArn", PStr "arn:aws:ecs:eu-west-1:123456789012:cluster/prod");
   ("group", PStr "service:api");
   ("taskArn", PStr "arn:aws:ecs:eu-west-1:123456789012:task/prod/abc123")].

Definition sample_enrich_runtime : EnrichRuntime :=
  {| td_attrs := fun _ => (PStr "256", PStr "512", PStr "awsvpc");
     attribute_error_text := fun _ => "object has no attribute 'get'";
     exception_text := "error" |}.

(** The crash contexts made from the two sample events. *)
Definition sample_extracted : gmap string pyval :=
  default ∅ (extract_crash_info "2025-09-21T10:00:00+00:00" (PDict sample_detail)).

Definition sample_extracted_no_container : gmap string pyval :=
  default ∅ (extract_crash_info "2025-09-21T10:00:00+00:00"
               (PDict sample_detail_no_container)).

(** The sequences of network calls of one run of the CloudWatch adapter. *)
Definition cloudwatch_call_sequences : list (list api) :=
  [ [];
    [EcsDescribeTaskDefinition];
    [EcsDescribeTaskDefinition; CwDescribeLogStreams];
    [EcsDescribeTaskDefinition; CwDescribeLogStreams; CwDescribeLogStreams];
    [EcsDescribeTaskDefinition; CwDescribeLogStreams; CwFilterLogEvents];
    [EcsDescribeTaskDefinition; CwDescribeLogStreams; CwDescribeLogStreams;
     CwFilterLogEvents] ].

(** [c in s] for one character. *)
Fixpoint has_char (c : ascii) (s : string) : bool :=
  match s with
  | EmptyString => false
  | String c' s' => (Ascii.eqb c' c || has_char c s')%bool
  end.

(** Newest first: no entry is older than one after it. *)
Definition newest_first (l : list (Z * string)) : Prop :=
  StronglySorted (fun a b => b.1 <= a.1) l.

(** A container of the event that did not fail: a dict whose [exitCode] is
    zero, [False] or absent. *)
Definition healthy (x : pyval) : Prop :=
  exists c, x = PDict c /\ py_ne_zero (default (PInt 0) (dict_get "exitCode" c)) = false.

(** The keys [enrich_crash_data] may write into the copy. *)
Definition enrichment_keys : list string :=
  ["recent_logs"; "log_source"; "cpu"; "memory"; "network_mode";
   "container_count"; "enrichment_error"].

(** ** Vocabulary of the timestamp property *)

(** The lines of a DataPrime response that the adapter goes through. *)
Definition cx_response_lines (response_text : string) : list string :=
  List.filter (fun l => negb (String.eqb l EmptyString))
    (map strip (split_on (ascii_of_nat 10) (strip response_text))).

(** [meta.get('key') == 'timestamp'] *)
Definition is_timestamp_pair (meta : list (string * pyval)) : bool :=
  is_str "timestamp" (default PNone (dict_get "key" meta)).

(** A metadata pair that is a dict and is not the timestamp pair. *)
Definition other_pair (meta : pyval) : Prop :=
  exists d, meta = PDict d /\ is_timestamp_pair d = false.

(** [v] is the metadata timestamp of a DataPrime record: the [value] of the
    first pair of its [metadata] whose [key] is ["timestamp"], and [None]
    when no pair has that key. *)
Definition metadata_timestamp (record : list (string * pyval)) (v : pyval) : Prop :=
  exists metas,
    py_elements (default (PList []) (dict_get "metadata" record)) = Some metas /\
    ((exists before meta after,
         metas = (before ++ PDict meta :: after)%list /\
         Forall other_pair before /\
         is_timestamp_pair meta = true /\
         v = default PNone (dict_get "value" meta)) \/
     (Forall other_pair metas /\ v = PNone)).

(** [n] is what becomes of the metadata timestamp [v]: for a non-empty
    string that the ISO parser accepts, once [Z] is replaced by [+00:00],
    the epoch milliseconds the parser gives; for everything else (no
    timestamp, the empty string, a value that is not a string, a string the
    parser refuses) a reading of the clock. *)
Definition converted (rt : Runtime) (w : World) (v : pyval) (n : Z) : Prop :=
  match v with
  | PStr s =>
      if String.eqb s EmptyString then exists k, n = clock w k
      else match fromisoformat_ms rt (replace_Z s) with
           | Some m => n = m
           | None => exists k, n = clock w k
           end
  | _ => exists k, n = clock w k
  end.

(** [hits] are the hits of an answer of the search engine:
    [result.get('hits', {}).get('hits', [])]. *)
Definition es_answer_hits (result : pyval) (hits : list pyval) : Prop :=
  exists r outer,
    result = PDict r /\
    default (PDict []) (dict_get "hits" r) = PDict outer /\
    py_elements (default (PList []) (dict_get "hits" outer)) = Some hits.

(** [v] is the [@timestamp] of a search hit as the search engine sent it, and
    the empty string when the hit's document has none. *)
Definition hit_timestamp (hit : pyval) (v : pyval) : Prop :=
  exists h source,
    hit = PDict h /\
    default (PDict []) (dict_get "_source" h) = PDict source /\
    v = default (PStr EmptyString) (dict_get "@timestamp" source).

(** * Properties *)

(** ** Computations that leave the crash context and the trace alone *)

Lemma quiet_ret {A} (a : A) : quiet (ret a).
Proof. intros st; split; reflexivity. Qed.

Lemma quiet_raise {A} : quiet (@raise A).
Proof. intros st; split; reflexivity. Qed.

Lemma quiet_bind {A B} (m : M A) (k : A -> M B) :
  quiet m -> (forall a, quiet (k a)) -> quiet (bind m k).
Proof.
  intros Hm Hk st. unfold bind.
  destruct (Hm st) as [Hc Ht]. destruct (m st) as [[a|] st1]; simpl in *.
  - destruct (Hk a st1) as [Hc' Ht']. split; congruence.
  - split; assumption.
Qed.

Lemma quiet_try_except {A} (m h : M A) :
  quiet m -> quiet h -> quiet (try_except m h).
Proof.
  intros Hm Hh st. unfold try_except.
  destruct (Hm st) as [Hc Ht]. destruct (m st) as [[a|] st1]; simpl in *.
  - split; assumption.
  - destruct (Hh st1) as [Hc' Ht']. split; congruence.
Qed.

Lemma quiet_mapM {A B} (f : A -> M B) (l : list A) :
  (forall x, quiet (f x)) -> quiet (mapM f l).
Proof.
  intros Hf. induction l as [|x l IH]; simpl.
  - apply quiet_ret.
  - apply quiet_bind; [apply Hf|]. intros y.
    apply quiet_bind; [exact IH|]. intros ys. apply quiet_ret.
Qed.

Lemma quiet_now_ms w : quiet (now_ms w).
Proof. intros st; split; reflexivity. Qed.

Lemma quiet_py_get v k dflt : quiet (py_get v k dflt).
Proof. destruct v; simpl; auto using @quiet_ret, @quiet_raise. Qed.

Lemma quiet_py_iter v : quiet (py_iter v).
Proof. destruct v; simpl; auto using @quiet_ret, @quiet_raise. Qed.

Lemma quiet_py_keys v : quiet (py_keys v).
Proof. destruct v; simpl; auto using @quiet_ret, @quiet_raise. Qed.

Lemma quiet_py_len v : quiet (py_len v).
Proof. destruct v; simpl; auto using @quiet_ret, @quiet_raise. Qed.

Lemma quiet_py_contains_results v : quiet (py_contains_results v).
Proof. destruct v; simpl; auto using @quiet_ret, @quiet_raise. Qed.

Lemma quiet_py_index_results v : quiet (py_index_results v).
Proof.
  destruct v; simpl; auto using @quiet_ret, @quiet_raise.
  destruct (dict_get _ _); auto using @quiet_ret, @quiet_raise.
Qed.

Create HintDb quiet.
#[local] Hint Resolve quiet_ret quiet_raise quiet_now_ms quiet_py_get quiet_py_iter
  quiet_py_keys quiet_py_len quiet_py_contains_results quiet_py_index_results : quiet.

(** Peel one layer of a computation built from quiet parts. *)
Ltac quiet_step :=
  first
    [ apply quiet_bind; [|intros ?]
    | apply quiet_try_except
    | apply quiet_mapM; intros ?
    | solve [auto with quiet]
    | match goal with
      | |- quiet (match ?x with _ => _ end) => destruct x
      | |- quiet (if ?b then _ else _) => destruct b
      end ].

Lemma quiet_es_log_entry hit : quiet (es_log_entry hit).
Proof. unfold es_log_entry. repeat quiet_step. Qed.

Lemma quiet_cx_collect rt lines logs : quiet (cx_collect rt lines logs).
Proof.
  revert logs. induction lines as [|line rest IH]; intros logs; simpl.
  - apply quiet_ret.
  - destruct (json_loads rt line) as [line_data|]; [|apply IH].
    apply quiet_bind; [auto with quiet|]. intros _.
    destruct line_data; auto with quiet.
    destruct (dict_get "result" d) as [r|]; [|apply IH].
    apply quiet_bind; [auto with quiet|]. intros [|]; [|apply IH].
    repeat (apply quiet_bind; [auto using @quiet_mapM with quiet|]; intros ?).
    apply IH.
Qed.

Lemma quiet_cx_message rt log : quiet (cx_message rt log).
Proof. unfold cx_message. repeat quiet_step. Qed.

Lemma quiet_cx_find_timestamp metas : quiet (cx_find_timestamp metas).
Proof.
  induction metas as [|meta rest IH]; simpl; [apply quiet_ret|].
  apply quiet_bind; [auto with quiet|]. intros k.
  destruct (is_str "timestamp" k); auto with quiet.
Qed.

Lemma quiet_cx_timestamp_ms rt w v : quiet (cx_timestamp_ms rt w v).
Proof. unfold cx_timestamp_ms. repeat quiet_step. Qed.

#[local] Hint Resolve quiet_es_log_entry quiet_cx_collect quiet_cx_message
  quiet_cx_find_timestamp quiet_cx_timestamp_ms : quiet.

Lemma quiet_cx_log_entry rt w log : quiet (cx_log_entry rt w log).
Proof. unfold cx_log_entry. repeat quiet_step. Qed.

#[local] Hint Resolve quiet_cx_log_entry : quiet.

Lemma quiet_keeps {A} (m : M A) : quiet m -> keeps m.
Proof. intros H st. destruct (H st) as [Hc Ht]. rewrite Hc. auto. Qed.

Lemma keeps_bind {A B} (m : M A) (k : A -> M B) :
  keeps m -> (forall a, keeps (k a)) -> keeps (bind m k).
Proof.
  intros Hm Hk st. unfold bind.
  destruct (Hm st) as [Ht Hc]. destruct (m st) as [[a|] st1]; simpl in *.
  - destruct (Hk a st1) as [Ht' Hc']. split; congruence.
  - split; assumption.
Qed.

Lemma keeps_set_item k v : k <> "log_source" -> keeps (set_item k v).
Proof. intros Hk st; simpl. split; [reflexivity|]. apply lookup_insert_ne, Hk. Qed.

Lemma truthy_task_arn_None ci :
  truthy (default PNone (ci !! "task_arn")) = has_task_arn ci.
Proof. unfold has_task_arn. destruct (ci !! "task_arn"); reflexivity. Qed.

Lemma truthy_task_arn_empty ci :
  truthy (default (PStr EmptyString) (ci !! "task_arn")) = has_task_arn ci.
Proof. unfold has_task_arn. destruct (ci !! "task_arn"); reflexivity. Qed.

Lemma try_except_ret {A} (m : M A) (a : A) st :
  exists x, try_except m (ret a) st = (Ok x, (m st).2) /\
            ((m st).1 = Ok x \/ (m st).1 = Raise /\ x = a).
Proof.
  unfold try_except. destruct (m st) as [[x|] st1]; simpl; eauto.
Qed.

Lemma keeps_after_call {A B} (a : api) (ans : option A) (k : A -> M B) st :
  (forall r, keeps (k r)) ->
  trace (bind (call a ans) k st).2 = (trace st ++ [Net a])%list /\
  crash_info (bind (call a ans) k st).2 !! "log_source" = crash_info st !! "log_source".
Proof.
  intros Hk. unfold bind, call, emit. simpl.
  destruct ans as [r|]; simpl; [|auto].
  destruct (Hk r {| crash_info := crash_info st; trace := (trace st ++ [Net a])%list; ticks := ticks st |}) as [Ht Hc].
  simpl in *. auto.
Qed.

Lemma get_elasticsearch_logs_spec w st :
  exists logs st',
    get_elasticsearch_logs w st = (Ok logs, st') /\ es_outcome w st logs st'.
Proof.
  unfold get_elasticsearch_logs, es_outcome, elasticsearch_configured.
  destruct (env_set w "ELASTICSEARCH_ENDPOINT" && env_set w "ELASTICSEARCH_USERNAME"
            && env_set w "ELASTICSEARCH_PASSWORD")%bool; simpl.
  2: { eexists _, _; split; reflexivity || (split; reflexivity). }
  destruct (has_task_arn (crash_info st)) eqn:Htask.
  2: { exists [], st. split; [|auto].
       unfold try_except, bind, get_crash_info.
       rewrite truthy_task_arn_None, Htask. reflexivity. }
  match goal with |- context [try_except ?m _ st] =>
    destruct (try_except_ret m [] st) as (x & Hx & _);
    exists x, (m st).2; split; [exact Hx|]; clear Hx;
    eassert (E : m st = _);
    [ unfold bind at 1, get_crash_info at 1;
      rewrite truthy_task_arn_None, Htask; simpl;
      unfold bind at 1; simpl; reflexivity
    | rewrite E; clear E ]
  end.
  match goal with |- context [bind (call ?a ?ans) ?k ?s] =>
    destruct (keeps_after_call a ans k s) as [Ht Hc] end.
  { intros r.
    repeat first
      [ apply keeps_bind; [|intros ?]
      | apply keeps_set_item; discriminate
      | apply quiet_keeps; solve [auto using @quiet_mapM with quiet] ]. }
  unfold hint_names. split.
  - rewrite Ht. simpl. rewrite <- app_assoc. reflexivity.
  - rewrite Hc. simpl. apply lookup_insert_eq.
Qed.

Lemma get_coralogix_logs_spec rt w st :
  exists logs st',
    get_coralogix_logs rt w st = (Ok logs, st') /\ cx_outcome w st logs st'.
Proof.
  unfold get_coralogix_logs, cx_outcome, coralogix_configured.
  destruct (env_set w "CORALOGIX_API_KEY" && env_set w "CORALOGIX_REGION")%bool; simpl.
  2: { eexists _, _; split; reflexivity || (split; reflexivity). }
  destruct (has_task_arn (crash_info st)) eqn:Htask.
  2: { exists [], st. split; [|auto].
       unfold try_except, bind, get_crash_info.
       rewrite truthy_task_arn_empty, Htask. reflexivity. }
  destruct (crash_info st !! "service_name") as [service_name|] eqn:Hsn.
  2: { eexists _, _. split.
       - unfold try_except, bind, get_crash_info.
         rewrite truthy_task_arn_empty, Htask, Hsn. reflexivity.
       - split; [apply lookup_insert_eq|]. right. auto. }
  match goal with |- context [try_except ?m _ st] =>
    destruct (try_except_ret m [] st) as (x & Hx & _);
    exists x, (m st).2; split; [exact Hx|]; clear Hx;
    eassert (E : m st = _);
    [ unfold bind at 1, get_crash_info at 1;
      rewrite truthy_task_arn_empty, Htask; simpl;
      unfold bind at 1; simpl; rewrite Hsn; reflexivity
    | rewrite E; clear E ]
  end.
  match goal with |- context [bind (call ?a ?ans) ?k ?s] =>
    destruct (keeps_after_call a ans k s) as [Ht Hc] end.
  { intros r. apply quiet_keeps.
    apply quiet_bind; [auto with quiet|]. intros [|? ?]; [auto with quiet|].
    apply quiet_bind; [auto using @quiet_mapM with quiet|]. auto with quiet. }
  unfold hint_names. split.
  - rewrite Hc. simpl. apply lookup_insert_eq.
  - left. rewrite Ht. simpl. rewrite <- app_assoc. reflexivity.
Qed.

Lemma quiet_cw_reader {A} (m : M A) : quiet m -> cw_reader m.
Proof.
  intros H st. destruct (H st) as [Hc Ht]. split; [exact Hc|].
  exists []. rewrite Ht, app_nil_r. auto.
Qed.

Lemma cw_reader_bind {A B} (m : M A) (k : A -> M B) :
  cw_reader m -> (forall a, cw_reader (k a)) -> cw_reader (bind m k).
Proof.
  intros Hm Hk st. unfold bind.
  destruct (Hm st) as (Hc & calls & Ht & Hf).
  destruct (m st) as [[a|] st1]; simpl in *.
  - destruct (Hk a st1) as (Hc' & calls' & Ht' & Hf').
    split; [congruence|]. exists (calls ++ calls')%list.
    rewrite Ht', Ht, map_app, app_assoc. split; [reflexivity|].
    apply Forall_app; auto.
  - split; [exact Hc|]. eauto.
Qed.

Lemma cw_reader_try_except {A} (m h : M A) :
  cw_reader m -> cw_reader h -> cw_reader (try_except m h).
Proof.
  intros Hm Hh st. unfold try_except.
  destruct (Hm st) as (Hc & calls & Ht & Hf).
  destruct (m st) as [[a|] st1]; simpl in *.
  - split; [exact Hc|]. eauto.
  - destruct (Hh st1) as (Hc' & calls' & Ht' & Hf').
    split; [congruence|]. exists (calls ++ calls')%list.
    rewrite Ht', Ht, map_app, app_assoc. split; [reflexivity|].
    apply Forall_app; auto.
Qed.

Lemma cw_reader_call {A} (a : api) (ans : option A) :
  api_backend a = CloudWatch -> cw_reader (call a ans).
Proof.
  intros Ha st. unfold call, bind, emit; simpl.
  destruct ans; simpl; (split; [reflexivity|]); exists [a]; auto.
Qed.

Lemma cw_reader_get_crash_info : cw_reader get_crash_info.
Proof. apply quiet_cw_reader. intros st; split; reflexivity. Qed.

Ltac cw_reader_step :=
  first
    [ apply cw_reader_call; reflexivity
    | apply cw_reader_bind; [|intros ?]
    | apply cw_reader_try_except
    | apply cw_reader_get_crash_info
    | apply quiet_cw_reader; solve [auto with quiet]
    | match goal with
      | |- cw_reader (match ?x with _ => _ end) => destruct x
      | |- cw_reader (if ?b then _ else _) => destruct b
      | |- cw_reader (let _ := _ in _) => cbv zeta
      end ].

Lemma quiet_container_name_of v : quiet (container_name_of v).
Proof. unfold container_name_of. repeat quiet_step. Qed.

#[local] Hint Resolve quiet_container_name_of : quiet.

Lemma cw_reader_get_log_configuration_from_task_def w :
  cw_reader (get_log_configuration_from_task_def w).
Proof. unfold get_log_configuration_from_task_def. repeat cw_reader_step. Qed.

Lemma cw_reader_get_logs_from_stream w g s : cw_reader (get_logs_from_stream w g s).
Proof. unfold get_logs_from_stream. repeat cw_reader_step. Qed.

Lemma cw_reader_verify_log_stream w g s t : cw_reader (verify_log_stream w g s t).
Proof. unfold verify_log_stream. repeat cw_reader_step. Qed.

Lemma cw_reader_get_logs_with_config rt w cfg t :
  cw_reader (get_logs_with_config rt w cfg t).
Proof.
  unfold get_logs_with_config.
  repeat first [ apply cw_reader_verify_log_stream
               | apply cw_reader_get_logs_from_stream
               | cw_reader_step ].
Qed.

Lemma cw_writer_ret_nil : cw_writer (ret []).
Proof. intros st. exists []. simpl. rewrite app_nil_r. auto. Qed.

Lemma cw_writer_raise : cw_writer raise.
Proof. intros st. exists []. simpl. rewrite app_nil_r. auto. Qed.

Lemma cw_writer_bind {A} (m : M A) (k : A -> M (list pyval)) :
  cw_reader m -> (forall a, cw_writer (k a)) -> cw_writer (bind m k).
Proof.
  intros Hm Hk st. unfold bind.
  destruct (Hm st) as (Hc & calls & Ht & Hf).
  destruct (m st) as [[a|] st1]; simpl in *.
  - destruct (Hk a st1) as (calls' & Hf' & H).
    exists (calls ++ calls')%list. split; [apply Forall_app; auto|].
    rewrite map_app, <- !app_assoc.
    destruct (k a st1) as [[[|x l]|] st2]; simpl in *;
      destruct H as [H1 H2]; rewrite H2, Ht, <- ?app_assoc; split; congruence.
  - exists calls. auto.
Qed.

Lemma cw_writer_try_except (m : M (list pyval)) :
  cw_writer m -> cw_writer (try_except m (ret [])).
Proof.
  intros Hm st. unfold try_except. specialize (Hm st).
  destruct (m st) as [[l|] st1]; simpl in *; exact Hm.
Qed.

Lemma cw_writer_commit x l :
  cw_writer (set_log_source CloudWatch ;;; ret (x :: l)).
Proof.
  intros st. exists []. simpl. split; [constructor|].
  split; [apply lookup_insert_eq|reflexivity].
Qed.

Lemma cw_writer_get_cloudwatch_logs rt w : cw_writer (get_cloudwatch_logs rt w).
Proof.
  unfold get_cloudwatch_logs. apply cw_writer_try_except.
  repeat first
    [ apply cw_writer_ret_nil
    | apply cw_writer_raise
    | apply cw_writer_commit
    | apply cw_writer_bind;
      [ first [ apply cw_reader_get_crash_info
              | apply cw_reader_get_log_configuration_from_task_def
              | apply cw_reader_get_logs_with_config
              | apply quiet_cw_reader; solve [auto with quiet] ]
      | intros ? ]
    | match goal with
      | |- cw_writer (match ?x with _ => _ end) => destruct x
      | |- cw_writer (if ?b then _ else _) => destruct b
      | |- cw_writer (let _ := _ in _) => cbv zeta
      end ].
Qed.

Lemma get_cloudwatch_logs_spec rt w st :
  exists logs st',
    get_cloudwatch_logs rt w st = (Ok logs, st') /\ cw_outcome st (Ok logs) st'.
Proof.
  pose proof (cw_writer_get_cloudwatch_logs rt w st) as H.
  unfold get_cloudwatch_logs in *.
  match goal with |- context [try_except ?m _ st] =>
    destruct (try_except_ret m [] st) as (x & Hx & _) end.
  rewrite Hx in *. simpl in H. eauto.
Qed.

Lemma get_cloudwatch_logs_no_task rt w st :
  has_task_arn (crash_info st) = false ->
  get_cloudwatch_logs rt w st = (Ok [], st).
Proof.
  intros Htask. unfold get_cloudwatch_logs, try_except, bind, get_crash_info.
  rewrite truthy_task_arn_empty, Htask.
  destruct (truthy (default PNone (crash_info st !! "failed_container"))); simpl;
    [|reflexivity].
  destruct (default PNone (crash_info st !! "failed_container")); simpl;
    try reflexivity.
  rewrite andb_false_r. reflexivity.
Qed.

(** ** The orchestrator, stage by stage *)

Lemma net_calls_app t1 t2 : net_calls (t1 ++ t2) = (net_calls t1 ++ net_calls t2)%list.
Proof. unfold net_calls. apply omap_app. Qed.

Lemma net_calls_map_Net calls : net_calls (map Net calls) = calls.
Proof. induction calls as [|a l IH]; simpl; [reflexivity|]. unfold net_calls in *. simpl. congruence. Qed.

(** Writing the hint a second time with the value it has changes nothing but
    the trace. *)
Lemma set_log_source_again b st :
  hint_names b st ->
  set_log_source b st =
  (Ok tt, {| crash_info := crash_info st;
             trace := (trace st ++ [HintWrite b])%list;
             ticks := ticks st |}).
Proof.
  intros H. unfold set_log_source, bind, set_item, emit. simpl.
  rewrite (insert_id _ _ _ H). reflexivity.
Qed.

Lemma cloudwatch_stage_eq rt w st logs st1 :
  get_cloudwatch_logs rt w st = (Ok logs, st1) ->
  cw_outcome st (Ok logs) st1 ->
  cloudwatch_stage rt w st =
  (Ok logs, match logs with [] => st1 | _ => reasserted CloudWatch st1 end).
Proof.
  intros Hrun (calls & _ & Hout). unfold cloudwatch_stage, bind, get_crash_info.
  rewrite Hrun. destruct logs as [|x l]; [reflexivity|].
  destruct Hout as [Hhint _].
  assert (Hfree : hint_is_free (crash_info st1) = true).
  { unfold hint_is_free. rewrite Hhint. reflexivity. }
  rewrite Hfree. cbn [truthy andb].
  rewrite (set_log_source_again _ _ Hhint). reflexivity.
Qed.

Lemma primary_stage_eq b fetch_b next st logs st1 :
  fetch_b st = (Ok logs, st1) ->
  primary_stage b fetch_b next st =
  match logs with
  | [] => next st1
  | _ => match set_log_source b st1 with (_, st2) => (Ok logs, st2) end
  end.
Proof.
  intros Hrun. unfold primary_stage, bind at 1. rewrite Hrun.
  destruct logs; [reflexivity|]. reflexivity.
Qed.

Lemma truthy_failed_container ci :
  truthy (default PNone (ci !! "failed_container")) = has_failed_container ci.
Proof. unfold has_failed_container. destruct (ci !! "failed_container"); reflexivity. Qed.

Lemma get_recent_logs_stages rt w st :
  has_failed_container (crash_info st) = true ->
  get_recent_logs rt w st = try_except (stages rt w) (ret []) st.
Proof.
  intros Hfc. unfold get_recent_logs, stages, try_except, bind at 1, get_crash_info.
  rewrite truthy_failed_container, Hfc. simpl.
  destruct (detect_log_destination w); reflexivity.
Qed.

Lemma get_recent_logs_no_container rt w st :
  has_failed_container (crash_info st) = false ->
  get_recent_logs rt w st = (Ok [], st).
Proof.
  intros Hfc. unfold get_recent_logs, try_except, bind, get_crash_info.
  rewrite truthy_failed_container, Hfc. reflexivity.
Qed.

Lemma get_recent_logs_no_task rt w st :
  has_task_arn (crash_info st) = false ->
  get_recent_logs rt w st = (Ok [], st).
Proof.
  intros Htask.
  destruct (has_failed_container (crash_info st)) eqn:Hfc;
    [|apply get_recent_logs_no_container, Hfc].
  rewrite get_recent_logs_stages by exact Hfc.
  assert (Hcw : cloudwatch_stage rt w st = (Ok [], st)).
  { unfold cloudwatch_stage, bind, get_crash_info.
    rewrite (get_cloudwatch_logs_no_task rt w st Htask). reflexivity. }
  unfold try_except, stages.
  destruct (detect_log_destination w).
  - destruct (get_elasticsearch_logs_spec w st) as (logs & st1 & Hrun & Hout).
    unfold es_outcome in Hout. rewrite Htask, andb_false_r in Hout.
    destruct Hout as [-> ->].
    rewrite (primary_stage_eq _ _ _ _ _ _ Hrun), Hcw. reflexivity.
  - destruct (get_coralogix_logs_spec rt w st) as (logs & st1 & Hrun & Hout).
    unfold cx_outcome in Hout. rewrite Htask, andb_false_r in Hout.
    destruct Hout as [-> ->].
    rewrite (primary_stage_eq _ _ _ _ _ _ Hrun), Hcw. reflexivity.
  - rewrite Hcw. reflexivity.
Qed.

(** C4. A crash context without a task identifier (no [task_arn], or an empty
    one) resolves to the empty sequence, and the run makes no network call to
    any backend or to the control plane; it leaves the crash context as it
    found it. *)
Theorem no_task_arn_no_network rt w ci :
  has_task_arn ci = false ->
  (resolve rt w ci).1 = [] /\
  net_calls (trace (resolve rt w ci).2) = [] /\
  crash_info (resolve rt w ci).2 = ci.
Proof.
  intros Htask. unfold resolve.
  rewrite (get_recent_logs_no_task rt w (initial ci) Htask).
  repeat split.
Qed.

Lemma elasticsearch_ready_selected w :
  elasticsearch_ready w = true ->
  detect_log_destination w = Elasticsearch /\ elasticsearch_configured w = true.
Proof.
  intros H. unfold detect_log_destination. rewrite H. split; [reflexivity|].
  unfold elasticsearch_ready in H. unfold elasticsearch_configured.
  destruct (env_flag w "ENABLE_ELASTICSEARCH_INTEGRATION"); [exact H|discriminate].
Qed.

Lemma resolve_stages rt w ci :
  has_failed_container ci = true ->
  resolve rt w ci =
  match stages rt w (initial ci) with
  | (Ok logs, st) => (logs, st)
  | (Raise, st) => ([], st)
  end.
Proof.
  intros Hfc. unfold resolve.
  rewrite get_recent_logs_stages by exact Hfc.
  unfold try_except. destruct (stages rt w (initial ci)) as [[logs|] st]; reflexivity.
Qed.

Lemma not_CxQuery_in_cloudwatch calls :
  Forall (fun a => api_backend a = CloudWatch) calls -> CxQuery ∉ calls.
Proof.
  intros Hall Hin. rewrite Forall_forall in Hall.
  specialize (Hall _ Hin). discriminate.
Qed.

Lemma coralogix_ready_selected w :
  elasticsearch_ready w = false -> coralogix_ready w = true ->
  detect_log_destination w = Coralogix /\ coralogix_configured w = true.
Proof.
  intros Hes Hcx. unfold detect_log_destination. rewrite Hes, Hcx.
  split; [reflexivity|].
  unfold coralogix_ready in Hcx. unfold coralogix_configured.
  destruct (env_flag w "ENABLE_CORALOGIX_INTEGRATION"); [exact Hcx|discriminate].
Qed.

(** Past its guards the DataPrime adapter makes its one call, unless the
    crash context has no [service_name] to build the query from. *)
Lemma get_coralogix_logs_calls rt w st logs st' :
  coralogix_configured w = true ->
  has_task_arn (crash_info st) = true ->
  get_coralogix_logs rt w st = (Ok logs, st') ->
  match crash_info st !! "service_name" with
  | Some _ => net_calls (trace st') = (net_calls (trace st) ++ [CxQuery])%list
  | None => net_calls (trace st') = net_calls (trace st) /\ logs = []
  end.
Proof.
  unfold get_coralogix_logs, coralogix_configured. intros Hconf Htask.
  rewrite Hconf. simpl.
  destruct (crash_info st !! "service_name") as [service_name|] eqn:Hsn.
  2: { unfold try_except, bind, get_crash_info.
       rewrite truthy_task_arn_empty, Htask, Hsn. simpl.
       intros H. injection H as <- <-. simpl.
       rewrite net_calls_app. simpl. rewrite app_nil_r. auto. }
  match goal with |- context [try_except ?m _ st] =>
    destruct (try_except_ret m [] st) as (x & Hx & _);
    rewrite Hx; intros H; injection H as _ <-;
    eassert (E : m st = _);
    [ unfold bind at 1, get_crash_info at 1;
      rewrite truthy_task_arn_empty, Htask; simpl;
      unfold bind at 1; simpl; rewrite Hsn; reflexivity
    | rewrite E; clear E ]
  end.
  match goal with |- context [bind (call ?a ?ans) ?k ?s] =>
    destruct (keeps_after_call a ans k s) as [Ht _] end.
  { intros r. apply quiet_keeps.
    apply quiet_bind; [auto with quiet|]. intros [|? ?]; [auto with quiet|].
    apply quiet_bind; [auto using @quiet_mapM with quiet|]. auto with quiet. }
  rewrite Ht. simpl. rewrite !net_calls_app. simpl. rewrite app_nil_r. reflexivity.
Qed.

Lemma all_cloudwatch_not_in a calls :
  api_backend a <> CloudWatch ->
  Forall (fun a => api_backend a = CloudWatch) calls -> a ∉ calls.
Proof.
  intros Ha Hall Hin. rewrite Forall_forall in Hall. exact (Ha (Hall _ Hin)).
Qed.

(** C1, as the code has it.  For a crash context with a task identifier and
    a failed container the orchestrator starts from one destination and
    falls back from a primary backend to CloudWatch only.

    - The search engine enabled and configured (whether or not DataPrime is
      too): it is queried first and exactly once and DataPrime is never
      queried; a non-empty answer is returned with no further network call,
      an empty one is followed by the CloudWatch adapter only, whose answer
      is returned.
    - Otherwise DataPrime enabled and configured: it is queried first and
      exactly once (not at all when the crash context has no [service_name]
      to build the query from) and the search engine is never queried; a
      non-empty answer is returned with no further network call, an empty
      one is followed by the CloudWatch adapter only, whose answer is
      returned.
    - Otherwise: the answer of the CloudWatch adapter is returned and every
      network call belongs to the CloudWatch path. *)
Theorem search_engine_then_cloudwatch rt w ci :
  has_task_arn ci = true ->
  has_failed_container ci = true ->
  (elasticsearch_ready w = true ->
   exists es_logs st1,
     get_elasticsearch_logs w (initial ci) = (Ok es_logs, st1) /\
     net_calls (trace st1) = [EsSearch] /\
     (CxQuery ∉ net_calls (trace (resolve rt w ci).2)) /\
     (es_logs <> [] ->
      (resolve rt w ci).1 = es_logs /\
      net_calls (trace (resolve rt w ci).2) = [EsSearch]) /\
     (es_logs = [] ->
      exists cw_logs st2 cw_calls,
        get_cloudwatch_logs rt w st1 = (Ok cw_logs, st2) /\
        (resolve rt w ci).1 = cw_logs /\
        net_calls (trace (resolve rt w ci).2) = EsSearch :: cw_calls /\
        Forall (fun a => api_backend a = CloudWatch) cw_calls)) /\
  (elasticsearch_ready w = false -> coralogix_ready w = true ->
   exists cx_logs st1,
     get_coralogix_logs rt w (initial ci) = (Ok cx_logs, st1) /\
     (is_Some (ci !! "service_name") -> net_calls (trace st1) = [CxQuery]) /\
     (ci !! "service_name" = None -> net_calls (trace st1) = [] /\ cx_logs = []) /\
     (EsSearch ∉ net_calls (trace (resolve rt w ci).2)) /\
     (cx_logs <> [] ->
      (resolve rt w ci).1 = cx_logs /\
      net_calls (trace (resolve rt w ci).2) = [CxQuery]) /\
     (cx_logs = [] ->
      exists cw_logs st2 cw_calls,
        get_cloudwatch_logs rt w st1 = (Ok cw_logs, st2) /\
        (resolve rt w ci).1 = cw_logs /\
        net_calls (trace (resolve rt w ci).2)
        = (net_calls (trace st1) ++ cw_calls)%list /\
        Forall (fun a => api_backend a = CloudWatch) cw_calls)) /\
  (elasticsearch_ready w = false -> coralogix_ready w = false ->
   exists cw_logs st2,
     get_cloudwatch_logs rt w (initial ci) = (Ok cw_logs, st2) /\
     (resolve rt w ci).1 = cw_logs /\
     Forall (fun a => api_backend a = CloudWatch)
            (net_calls (trace (resolve rt w ci).2))).
Proof.
  intros Htask Hfc.
  assert (Hcw : forall st1,
    exists cw_logs st2 cw_calls,
      get_cloudwatch_logs rt w st1 = (Ok cw_logs, st2) /\
      (match cloudwatch_stage rt w st1 with
       | (Ok logs, st) => (logs, st)
       | (Raise, st) => ([], st)
       end).1 = cw_logs /\
      net_calls (trace (match cloudwatch_stage rt w st1 with
                        | (Ok logs, st) => (logs, st)
                        | (Raise, st) => ([], st)
                        end).2)
      = (net_calls (trace st1) ++ cw_calls)%list /\
      Forall (fun a => api_backend a = CloudWatch) cw_calls).
  { intros st1.
    destruct (get_cloudwatch_logs_spec rt w st1) as (cw_logs & st2 & Hrun & Hout).
    rewrite (cloudwatch_stage_eq rt w st1 cw_logs st2 Hrun Hout).
    destruct Hout as (calls & Hcalls & Hshape).
    exists cw_logs, st2, calls. split; [exact Hrun|]. split; [reflexivity|].
    split; [|exact Hcalls].
    destruct cw_logs as [|y k]; destruct Hshape as [_ Ht2]; simpl;
      rewrite Ht2, !net_calls_app, ?net_calls_app, net_calls_map_Net;
      simpl; rewrite ?app_nil_r; reflexivity. }
  rewrite (resolve_stages rt w ci Hfc). unfold stages.
  split; [|split].
  - intros Hready.
    destruct (elasticsearch_ready_selected w Hready) as [Hdest Hconf].
    destruct (get_elasticsearch_logs_spec w (initial ci))
      as (es_logs & st1 & Hrun & Hout).
    unfold es_outcome in Hout. simpl in Hout. rewrite Hconf, Htask in Hout.
    destruct Hout as [Htrace Hhint]. simpl in Htrace.
    assert (Hnet : net_calls (trace st1) = [EsSearch]) by (rewrite Htrace; reflexivity).
    exists es_logs, st1. split; [exact Hrun|]. split; [exact Hnet|].
    rewrite Hdest, (primary_stage_eq _ _ _ _ _ _ Hrun).
    destruct es_logs as [|x l].
    + destruct (Hcw st1) as (cw_logs & st2 & calls & Hcwrun & Hres & Hfinal & Hcalls).
      rewrite Hfinal, Hnet. simpl. split.
      { intros Hin. apply elem_of_cons in Hin as [Hin|Hin]; [discriminate|].
        exact (not_CxQuery_in_cloudwatch calls Hcalls Hin). }
      split; [intros Hne; contradiction|]. intros _.
      exists cw_logs, st2, calls. auto.
    + rewrite (set_log_source_again _ _ Hhint). simpl.
      rewrite net_calls_app, Hnet. simpl. split.
      { intros Hin. apply list_elem_of_singleton in Hin. discriminate. }
      split; [auto|]. intros Hnil. discriminate.
  - intros Hes Hcx.
    destruct (coralogix_ready_selected w Hes Hcx) as [Hdest Hconf].
    destruct (get_coralogix_logs_spec rt w (initial ci))
      as (cx_logs & st1 & Hrun & Hout).
    pose proof (get_coralogix_logs_calls rt w (initial ci) cx_logs st1
                  Hconf Htask Hrun) as Hcalls1.
    simpl in Hcalls1.
    unfold cx_outcome in Hout. simpl in Hout. rewrite Hconf, Htask in Hout.
    destruct Hout as [Hhint _].
    assert (Hnet : net_calls (trace st1) = [CxQuery] \/ net_calls (trace st1) = []).
    { destruct (ci !! "service_name"); [left; exact Hcalls1|right; apply Hcalls1]. }
    exists cx_logs, st1. split; [exact Hrun|].
    split; [intros [sn Hsn]; rewrite Hsn in Hcalls1; exact Hcalls1|].
    split; [intros Hsn; rewrite Hsn in Hcalls1; exact Hcalls1|].
    rewrite Hdest, (primary_stage_eq _ _ _ _ _ _ Hrun).
    destruct cx_logs as [|x l].
    + destruct (Hcw st1) as (cw_logs & st2 & calls & Hcwrun & Hres & Hfinal & Hcalls).
      rewrite Hfinal. split.
      { intros Hin. apply elem_of_app in Hin as [Hin|Hin].
        - destruct Hnet as [E|E]; rewrite E in Hin.
          + apply list_elem_of_singleton in Hin. discriminate.
          + apply elem_of_nil in Hin. exact Hin.
        - revert Hin. apply all_cloudwatch_not_in; [discriminate|exact Hcalls]. }
      split; [intros Hne; contradiction|]. intros _.
      exists cw_logs, st2, calls. auto.
    + assert (Hq : net_calls (trace st1) = [CxQuery]).
      { destruct (ci !! "service_name"); [exact Hcalls1|].
        destruct Hcalls1 as [_ Hnil]. discriminate. }
      rewrite (set_log_source_again _ _ Hhint). simpl.
      rewrite net_calls_app, Hq. simpl. split.
      { intros Hin. apply list_elem_of_singleton in Hin. discriminate. }
      split; [auto|]. intros Hnil. discriminate.
  - intros Hes Hcx.
    assert (Hdest : detect_log_destination w = CloudWatch).
    { unfold detect_log_destination. rewrite Hes, Hcx. reflexivity. }
    rewrite Hdest.
    destruct (Hcw (initial ci)) as (cw_logs & st2 & calls & Hcwrun & Hres & Hfinal & Hcalls).
    exists cw_logs, st2. split; [exact Hcwrun|]. split; [exact Hres|].
    rewrite Hfinal. exact Hcalls.
Qed.

(** C2. When a resolution returns at least one entry, those entries are what
    one backend's adapter returned, either started from the initial state or
    from the state an empty primary backend left; when that adapter returned,
    the hint already named this backend; and from then to the end of the run
    the crash context is not changed again: every later event is a write of
    that same backend's name, so the hint observed after the resolution
    names the backend that supplied the entries. *)
Theorem hint_names_the_supplier rt w ci :
  (resolve rt w ci).1 <> [] ->
  exists b st0 st1 later,
    (st0 = initial ci \/
     exists p, p <> b /\ fetch rt w p (initial ci) = (Ok [], st0)) /\
    fetch rt w b st0 = (Ok (resolve rt w ci).1, st1) /\
    hint_names b st1 /\
    trace (resolve rt w ci).2 = (trace st1 ++ later)%list /\
    Forall (fun e => e = HintWrite b) later /\
    crash_info (resolve rt w ci).2 = crash_info st1 /\
    hint_names b (resolve rt w ci).2.
Proof.
  intros Hne.
  destruct (has_failed_container ci) eqn:Hfc.
  2: { exfalso. apply Hne. unfold resolve.
       rewrite (get_recent_logs_no_container rt w (initial ci) Hfc). reflexivity. }
  revert Hne. rewrite (resolve_stages rt w ci Hfc). unfold stages.
  assert (Hcw : forall st0,
    (st0 = initial ci \/
     exists p, p <> CloudWatch /\ fetch rt w p (initial ci) = (Ok [], st0)) ->
    let out := match cloudwatch_stage rt w st0 with
               | (Ok logs, st) => (logs, st)
               | (Raise, st) => ([], st)
               end in
    out.1 <> [] ->
    exists b st0 st1 later,
      (st0 = initial ci \/
       exists p, p <> b /\ fetch rt w p (initial ci) = (Ok [], st0)) /\
      fetch rt w b st0 = (Ok out.1, st1) /\
      hint_names b st1 /\
      trace out.2 = (trace st1 ++ later)%list /\
      Forall (fun e => e = HintWrite b) later /\
      crash_info out.2 = crash_info st1 /\
      hint_names b out.2).
  { intros st0 Hst0.
    destruct (get_cloudwatch_logs_spec rt w st0) as (cw_logs & st2 & Hrun & Hout).
    rewrite (cloudwatch_stage_eq rt w st0 cw_logs st2 Hrun Hout).
    destruct Hout as (calls & _ & Hshape).
    destruct cw_logs as [|x l]; simpl; [intros H; contradiction|]. intros _.
    destruct Hshape as [Hhint _].
    exists CloudWatch, st0, st2, [HintWrite CloudWatch].
    repeat split; auto. }
  destruct (detect_log_destination w).
  - destruct (get_elasticsearch_logs_spec w (initial ci)) as (logs & st1 & Hrun & Hout).
    rewrite (primary_stage_eq _ _ _ _ _ _ Hrun).
    destruct logs as [|x l].
    + apply Hcw. right. exists Elasticsearch. split; [discriminate|exact Hrun].
    + unfold es_outcome in Hout.
      destruct (elasticsearch_configured w && has_task_arn (crash_info (initial ci)))%bool;
        [|destruct Hout; discriminate].
      destruct Hout as [_ Hhint].
      rewrite (set_log_source_again _ _ Hhint). simpl. intros _.
      exists Elasticsearch, (initial ci), st1, [HintWrite Elasticsearch].
      repeat split; auto.
  - destruct (get_coralogix_logs_spec rt w (initial ci)) as (logs & st1 & Hrun & Hout).
    rewrite (primary_stage_eq _ _ _ _ _ _ Hrun).
    destruct logs as [|x l].
    + apply Hcw. right. exists Coralogix. split; [discriminate|exact Hrun].
    + unfold cx_outcome in Hout.
      destruct (coralogix_configured w && has_task_arn (crash_info (initial ci)))%bool;
        [|destruct Hout; discriminate].
      destruct Hout as [Hhint _].
      rewrite (set_log_source_again _ _ Hhint). simpl. intros _.
      exists Coralogix, (initial ci), st1, [HintWrite Coralogix].
      repeat split; auto.
  - apply Hcw. left. reflexivity.
Qed.

(** ** Reading a successful run backwards *)

Lemma bind_Ok {A B} (m : M A) (k : A -> M B) st b st' :
  bind m k st = (Ok b, st') ->
  exists a st1, m st = (Ok a, st1) /\ k a st1 = (Ok b, st').
Proof.
  unfold bind. destruct (m st) as [[a|] st1]; [eauto|discriminate].
Qed.

Lemma try_except_nil_Ok {A} (m : M (list A)) st logs st' :
  try_except m (ret []) st = (Ok logs, st') ->
  m st = (Ok logs, st') \/ logs = [].
Proof.
  unfold try_except, ret. destruct (m st) as [[a|] st1]; intros H.
  - left. exact H.
  - right. congruence.
Qed.

Lemma ret_Ok {A} (a b : A) st st' : ret a st = (Ok b, st') -> a = b.
Proof. unfold ret. congruence. Qed.

(** ** The properties on the sample inputs *)

(** Both primary backends enabled and configured, a search engine with no
    hit for the task: the run calls the search engine, then the CloudWatch
    path, and never DataPrime. *)
Lemma cascade_as_stated_fails :
  ~ cascade_as_stated sample_runtime
      (sample_world sample_environ [] sample_cx_text) sample_crash_info.
Proof.
  intros H.
  destruct (get_elasticsearch_logs_spec
              (sample_world sample_environ [] sample_cx_text)
              (initial sample_crash_info)) as (es_logs & st1 & Hrun & _).
  assert (E : (get_elasticsearch_logs
                 (sample_world sample_environ [] sample_cx_text)
                 (initial sample_crash_info)).1 = Ok []) by (vm_compute; reflexivity).
  rewrite Hrun in E. simpl in E. injection E as ->.
  destruct (H eq_refl eq_refl eq_refl [] st1 Hrun) as [_ Hb].
  destruct (Hb eq_refl) as [rest Hrest].
  vm_compute in Hrest. discriminate.
Qed.

Lemma search_engine_then_cloudwatch_witness :
  (exists es_logs st1,
     get_elasticsearch_logs sample_world_no_hit (initial sample_crash_info)
     = (Ok es_logs, st1) /\
     net_calls (trace st1) = [EsSearch] /\
     (CxQuery ∉ net_calls (trace (resolve sample_runtime sample_world_no_hit
                                    sample_crash_info).2)) /\
     (es_logs <> [] ->
      (resolve sample_runtime sample_world_no_hit sample_crash_info).1 = es_logs /\
      net_calls (trace (resolve sample_runtime sample_world_no_hit
                          sample_crash_info).2) = [EsSearch]) /\
     (es_logs = [] ->
      exists cw_logs st2 cw_calls,
        get_cloudwatch_logs sample_runtime sample_world_no_hit st1
        = (Ok cw_logs, st2) /\
        (resolve sample_runtime sample_world_no_hit sample_crash_info).1 = cw_logs /\
        net_calls (trace (resolve sample_runtime sample_world_no_hit
                            sample_crash_info).2) = EsSearch :: cw_calls /\
        Forall (fun a => api_backend a = CloudWatch) cw_calls)) /\
  (exists cx_logs st1,
     get_coralogix_logs sample_runtime sample_world_coralogix
       (initial sample_crash_info) = (Ok cx_logs, st1) /\
     net_calls (trace st1) = [CxQuery] /\
     (EsSearch ∉ net_calls (trace (resolve sample_runtime sample_world_coralogix
                                     sample_crash_info).2)) /\
     (cx_logs <> [] ->
      (resolve sample_runtime sample_world_coralogix sample_crash_info).1 = cx_logs /\
      net_calls (trace (resolve sample_runtime sample_world_coralogix
                          sample_crash_info).2) = [CxQuery])) /\
  (exists cw_logs st2,
     get_cloudwatch_logs sample_runtime sample_world_cloudwatch
       (initial sample_crash_info) = (Ok cw_logs, st2) /\
     (resolve sample_runtime sample_world_cloudwatch sample_crash_info).1 = cw_logs /\
     Forall (fun a => api_backend a = CloudWatch)
            (net_calls (trace (resolve sample_runtime sample_world_cloudwatch
                                 sample_crash_info).2))).
Proof.
  split; [|split].
  - apply (search_engine_then_cloudwatch sample_runtime sample_world_no_hit
             sample_crash_info); vm_compute; reflexivity.
  - destruct (proj1 (proj2 (search_engine_then_cloudwatch sample_runtime
                              sample_world_coralogix sample_crash_info
                              eq_refl eq_refl)))
      as (cx_logs & st1 & Hrun & Hq & _ & Hes & Hne & _);
      [vm_compute; reflexivity|vm_compute; reflexivity|].
    exists cx_logs, st1. split; [exact Hrun|].
    split; [apply Hq; vm_compute; eauto|]. split; [exact Hes|exact Hne].
  - apply (search_engine_then_cloudwatch sample_runtime sample_world_cloudwatch
             sample_crash_info); vm_compute; reflexivity.
Defined.

Lemma hint_names_the_supplier_witness :
  exists b st0 st1 later,
    (st0 = initial sample_crash_info \/
     exists p, p <> b /\
       fetch sample_runtime (sample_world sample_environ [] sample_cx_text) p
         (initial sample_crash_info) = (Ok [], st0)) /\
    fetch sample_runtime (sample_world sample_environ [] sample_cx_text) b st0 =
      (Ok (resolve sample_runtime
             (sample_world sample_environ [] sample_cx_text) sample_crash_info).1, st1) /\
    hint_names b st1 /\
    trace (resolve sample_runtime
             (sample_world sample_environ [] sample_cx_text) sample_crash_info).2
      = (trace st1 ++ later)%list /\
    Forall (fun e => e = HintWrite b) later /\
    crash_info (resolve sample_runtime
             (sample_world sample_environ [] sample_cx_text) sample_crash_info).2
      = crash_info st1 /\
    hint_names b (resolve sample_runtime
             (sample_world sample_environ [] sample_cx_text) sample_crash_info).2.
Proof.
  apply (hint_names_the_supplier sample_runtime
           (sample_world sample_environ [] sample_cx_text) sample_crash_info).
  vm_compute. discriminate.
Defined.

(** A search hit with an ISO-8601 [@timestamp]: the entry the search-engine
    adapter returns carries that string, not an integer. *)
Lemma timestamps_as_stated_fails :
  ~ timestamps_as_stated sample_runtime
      (sample_world sample_environ [sample_hit] sample_cx_text) sample_crash_info.
Proof.
  intros H.
  destruct (get_elasticsearch_logs_spec
              (sample_world sample_environ [sample_hit] sample_cx_text)
              (initial sample_crash_info)) as (logs & st1 & Hrun & _).
  pose proof (H Elasticsearch logs st1 Hrun) as Hall.
  assert (E : (get_elasticsearch_logs
                 (sample_world sample_environ [sample_hit] sample_cx_text)
                 (initial sample_crash_info)).1
              = Ok [es_entry_of_source
                      [("@timestamp", PStr "2025-09-21T09:59:32.100Z");
                       ("message", PStr "boom")]]) by (vm_compute; reflexivity).
  rewrite Hrun in E. simpl in E. injection E as ->.
  apply Forall_cons in Hall as [(n & Hn & _) _].
  vm_compute in Hn. discriminate.
Qed.

Lemma no_task_arn_no_network_witness :
  (resolve sample_runtime (sample_world sample_environ [sample_hit] sample_cx_text)
     sample_crash_info_no_task).1 = [] /\
  net_calls (trace (resolve sample_runtime
     (sample_world sample_environ [sample_hit] sample_cx_text)
     sample_crash_info_no_task).2) = [] /\
  crash_info (resolve sample_runtime
     (sample_world sample_environ [sample_hit] sample_cx_text)
     sample_crash_info_no_task).2 = sample_crash_info_no_task.
Proof.
  apply (no_task_arn_no_network sample_runtime
           (sample_world sample_environ [sample_hit] sample_cx_text)
           sample_crash_info_no_task).
  vm_compute. reflexivity.
Defined.

(** The sample DataPrime answer, with DataPrime the only primary backend:
    two entries, newest first, the one without a metadata timestamp stamped
    with the clock, and the hint naming DataPrime. *)
Example coralogix_sample_run :
  (resolve sample_runtime
     (sample_world sample_environ_coralogix [] sample_cx_text) sample_crash_info).1
  = [log_entry (1758450000000, "not json"); log_entry (1758448772100, "boom")].
Proof. vm_compute. reflexivity. Qed.

(** The two stream names the specification gives as examples. *)
Example stream_name_examples :
  stream_name "ecs" "web" "abc123" = "ecs/web/abc123" /\
  stream_name EmptyString "web" "abc123" = "web/abc123".
Proof. split; reflexivity. Qed.

(** * Further properties of the orchestrator *)

Lemma trace_set_log_source b st :
  trace (set_log_source b st).2 = (trace st ++ [HintWrite b])%list /\
  hint_names b (set_log_source b st).2.
Proof. split; [reflexivity|]. apply lookup_insert_eq. Qed.

(** The CloudWatch stage as a whole: it always returns, what it returns is
    the adapter's answer, its network calls are CloudWatch's, and it touches
    [crash_info] only when it has entries, to name CloudWatch. *)
Lemma cloudwatch_stage_run rt w st :
  exists logs st' calls,
    cloudwatch_stage rt w st = (Ok logs, st') /\
    net_calls (trace st') = (net_calls (trace st) ++ calls)%list /\
    Forall (fun a => api_backend a = CloudWatch) calls /\
    match logs with
    | [] => crash_info st' = crash_info st
    | _ => hint_names CloudWatch st'
    end.
Proof.
  destruct (get_cloudwatch_logs_spec rt w st) as (logs & st1 & Hrun & Hout).
  rewrite (cloudwatch_stage_eq rt w st logs st1 Hrun Hout).
  destruct Hout as (calls & Hcalls & Hshape).
  exists logs, (match logs with [] => st1 | _ => reasserted CloudWatch st1 end), calls.
  split; [reflexivity|].
  destruct logs as [|x l]; destruct Hshape as [H1 H2]; simpl; rewrite H2.
  - rewrite net_calls_app, net_calls_map_Net. auto.
  - rewrite !net_calls_app, net_calls_map_Net. simpl. rewrite !app_nil_r. auto.
Qed.

Lemma network_calls_shape_aux rt w ci :
  exists primary cw,
    net_calls (trace (resolve rt w ci).2) = (primary ++ cw)%list /\
    (primary = [] \/
     detect_log_destination w = Elasticsearch /\ primary = [EsSearch] \/
     detect_log_destination w = Coralogix /\ primary = [CxQuery]) /\
    Forall (fun a => api_backend a = CloudWatch) cw.
Proof.
  destruct (has_failed_container ci) eqn:Hfc.
  2: { exists [], []. unfold resolve.
       rewrite (get_recent_logs_no_container rt w (initial ci) Hfc). simpl. auto. }
  rewrite (resolve_stages rt w ci Hfc). unfold stages.
  destruct (detect_log_destination w) eqn:Hdest.
  - destruct (get_elasticsearch_logs_spec w (initial ci)) as (logs & st1 & Hrun & Hout).
    rewrite (primary_stage_eq _ _ _ _ _ _ Hrun).
    assert (Hprim : net_calls (trace st1) = [] \/ net_calls (trace st1) = [EsSearch]).
    { unfold es_outcome in Hout.
      destruct (elasticsearch_configured w && has_task_arn (crash_info (initial ci)))%bool.
      - right. destruct Hout as [-> _]. reflexivity.
      - left. destruct Hout as [_ ->]. reflexivity. }
    destruct logs as [|x l].
    + destruct (cloudwatch_stage_run rt w st1) as (cw_logs & st2 & calls & -> & Hnet & Hcalls & _).
      simpl. rewrite Hnet. exists (net_calls (trace st1)), calls.
      split; [reflexivity|]. split; [|exact Hcalls].
      destruct Hprim as [->| ->]; auto.
    + destruct (trace_set_log_source Elasticsearch st1) as [Ht _].
      destruct (set_log_source Elasticsearch st1) as [r st2]. simpl in *.
      rewrite Ht, net_calls_app. simpl. exists (net_calls (trace st1)), [].
      split; [reflexivity|]. split; [|constructor].
      destruct Hprim as [->| ->]; auto.
  - destruct (get_coralogix_logs_spec rt w (initial ci)) as (logs & st1 & Hrun & Hout).
    rewrite (primary_stage_eq _ _ _ _ _ _ Hrun).
    assert (Hprim : net_calls (trace st1) = [] \/ net_calls (trace st1) = [CxQuery]).
    { unfold cx_outcome in Hout.
      destruct (coralogix_configured w && has_task_arn (crash_info (initial ci)))%bool.
      - destruct Hout as [_ [-> | [-> _]]]; [right|left]; reflexivity.
      - left. destruct Hout as [_ ->]. reflexivity. }
    destruct logs as [|x l].
    + destruct (cloudwatch_stage_run rt w st1) as (cw_logs & st2 & calls & -> & Hnet & Hcalls & _).
      simpl. rewrite Hnet. exists (net_calls (trace st1)), calls.
      split; [reflexivity|]. split; [|exact Hcalls].
      destruct Hprim as [->| ->]; auto.
    + destruct (trace_set_log_source Coralogix st1) as [Ht _].
      destruct (set_log_source Coralogix st1) as [r st2]. simpl in *.
      rewrite Ht, net_calls_app. simpl. exists (net_calls (trace st1)), [].
      split; [reflexivity|]. split; [|constructor].
      destruct Hprim as [->| ->]; auto.
  - destruct (cloudwatch_stage_run rt w (initial ci)) as (cw_logs & st2 & calls & -> & Hnet & Hcalls & _).
    simpl. rewrite Hnet. exists [], calls. simpl. auto.
Qed.

(** Every run, whatever the configuration and the answers: the network calls
    are at most one call to the primary backend that was selected, followed
    by calls of the CloudWatch path only.  So the two primary backends are
    never both queried, and neither is queried after CloudWatch. *)
Theorem network_calls_shape rt w ci :
  exists primary cw,
    net_calls (trace (resolve rt w ci).2) = (primary ++ cw)%list /\
    (primary = [] \/
     detect_log_destination w = Elasticsearch /\ primary = [EsSearch] \/
     detect_log_destination w = Coralogix /\ primary = [CxQuery]) /\
    Forall (fun a => api_backend a = CloudWatch) cw.
Proof. exact (network_calls_shape_aux rt w ci). Qed.

(** The hint is written before the query, not after a success: when the
    search engine is enabled and configured and the crash context has a task
    identifier and a failed container, a resolution that ends with no entry
    at all still leaves the hint naming the search engine. *)
Theorem empty_resolution_keeps_primary_hint rt w ci :
  elasticsearch_ready w = true ->
  has_task_arn ci = true ->
  has_failed_container ci = true ->
  (resolve rt w ci).1 = [] ->
  hint_names Elasticsearch (resolve rt w ci).2.
Proof.
  intros Hready Htask Hfc.
  destruct (elasticsearch_ready_selected w Hready) as [Hdest Hconf].
  destruct (get_elasticsearch_logs_spec w (initial ci)) as (es_logs & st1 & Hrun & Hout).
  unfold es_outcome in Hout. simpl in Hout. rewrite Hconf, Htask in Hout.
  destruct Hout as [_ Hhint].
  rewrite (resolve_stages rt w ci Hfc). unfold stages. rewrite Hdest.
  rewrite (primary_stage_eq _ _ _ _ _ _ Hrun).
  destruct es_logs as [|x l].
  - destruct (cloudwatch_stage_run rt w st1) as (cw_logs & st2 & calls & -> & _ & _ & Hci).
    simpl. intros ->. unfold hint_names in *. rewrite Hci. exact Hhint.
  - destruct (set_log_source Elasticsearch st1) as [r st2]. simpl. discriminate.
Qed.

(** DataPrime as the primary backend: when the search engine is not both
    enabled and configured and DataPrime is, the search engine is never
    queried; entries DataPrime returns are returned as they are and the hint
    names DataPrime; an empty answer is followed by the CloudWatch adapter,
    whose answer is returned. *)
Theorem coralogix_then_cloudwatch rt w ci :
  elasticsearch_ready w = false ->
  coralogix_ready w = true ->
  has_failed_container ci = true ->
  exists cx_logs st1,
    get_coralogix_logs rt w (initial ci) = (Ok cx_logs, st1) /\
    (EsSearch ∉ net_calls (trace (resolve rt w ci).2)) /\
    (cx_logs <> [] ->
     (resolve rt w ci).1 = cx_logs /\
     net_calls (trace (resolve rt w ci).2) = [CxQuery] /\
     hint_names Coralogix (resolve rt w ci).2) /\
    (cx_logs = [] ->
     exists cw_logs st2,
       get_cloudwatch_logs rt w st1 = (Ok cw_logs, st2) /\
       (resolve rt w ci).1 = cw_logs).
Proof.
  intros Hes Hcx Hfc.
  destruct (coralogix_ready_selected w Hes Hcx) as [Hdest Hconf].
  destruct (get_coralogix_logs_spec rt w (initial ci)) as (cx_logs & st1 & Hrun & Hout).
  exists cx_logs, st1. split; [exact Hrun|]. split.
  { destruct (network_calls_shape_aux rt w ci) as (primary & cw & -> & Hprim & Hcw).
    intros Hin. apply elem_of_app in Hin as [Hin|Hin].
    - destruct Hprim as [->|[[Hd _]|[_ ->]]].
      + apply elem_of_nil in Hin. exact Hin.
      + congruence.
      + apply list_elem_of_singleton in Hin. discriminate.
    - rewrite Forall_forall in Hcw. specialize (Hcw _ Hin). discriminate. }
  rewrite (resolve_stages rt w ci Hfc). unfold stages. rewrite Hdest.
  rewrite (primary_stage_eq _ _ _ _ _ _ Hrun).
  destruct cx_logs as [|x l].
  - split; [intros H; contradiction|]. intros _.
    destruct (get_cloudwatch_logs_spec rt w st1) as (cw_logs & st2 & Hcw & Hcwout).
    rewrite (cloudwatch_stage_eq rt w st1 cw_logs st2 Hcw Hcwout).
    exists cw_logs, st2. auto.
  - split; [|intros H; discriminate]. intros _.
    unfold cx_outcome in Hout. simpl in Hout.
    destruct (coralogix_configured w && has_task_arn ci)%bool;
      [|destruct Hout; discriminate].
    destruct Hout as [Hhint [Ht|[_ Hnil]]]; [|discriminate].
    rewrite (set_log_source_again _ _ Hhint). simpl.
    rewrite net_calls_app, Ht. simpl. auto.
Qed.

(** * Further properties of the CloudWatch path *)

Ltac in_list :=
  solve [ repeat first [ apply elem_of_cons; left; reflexivity
                       | apply elem_of_cons; right ] ].

Ltac run_done :=
  simpl; rewrite ?app_nil_r, <- ?app_assoc; repeat split; auto 10.

Lemma container_name_of_stateless v st :
  exists r, container_name_of v st = (r, st).
Proof.
  unfold container_name_of. destruct (truthy v); [|eexists; reflexivity].
  destruct v; eexists; reflexivity.
Qed.

Lemma get_log_configuration_run w st :
  exists cfg st' calls,
    get_log_configuration_from_task_def w st = (Ok cfg, st') /\
    crash_info st' = crash_info st /\
    trace st' = (trace st ++ map Net calls)%list /\
    (calls = [] /\ cfg = None \/ calls = [EcsDescribeTaskDefinition]).
Proof.
  unfold get_log_configuration_from_task_def, try_except, bind at 1, get_crash_info.
  destruct (negb (truthy (default PNone (crash_info st !! "task_definition_arn")))).
  { exists None, st, []. run_done. }
  unfold bind at 1, call, bind at 1, emit. simpl.
  destruct (ecs_describe_task_definition w _) as [task_def|]; simpl.
  2: { eexists None, _, [EcsDescribeTaskDefinition]. run_done. }
  unfold bind.
  match goal with |- context [container_name_of ?v ?s] =>
    destruct (container_name_of_stateless v s) as [r ->] end.
  destruct r as [container_name|]; simpl.
  2: { eexists None, _, [EcsDescribeTaskDefinition]. run_done. }
  destruct (negb (truthy container_name)); simpl;
    eexists _, _, [EcsDescribeTaskDefinition]; run_done.
Qed.

Lemma get_logs_from_stream_run w log_group log_stream st :
  exists logs st',
    get_logs_from_stream w log_group log_stream st = (Ok logs, st') /\
    crash_info st' = crash_info st /\
    trace st' = (trace st ++ [Net CwFilterLogEvents])%list /\
    logs = map cw_log_entry (default [] (cw_filter_log_events w log_group log_stream)).
Proof.
  unfold get_logs_from_stream, try_except, bind, call, bind, emit. simpl.
  destruct (cw_filter_log_events w log_group log_stream) as [events|]; simpl;
    eexists _, _; repeat split; reflexivity.
Qed.

(** The first element of a filtered list: it passes the test, and nothing
    before it in the list does. *)
Lemma head_filter_Some {A} (f : A -> bool) l x :
  head (List.filter f l) = Some x ->
  f x = true /\
  exists before after, l = (before ++ x :: after)%list /\
                       Forall (fun y => f y = false) before.
Proof.
  induction l as [|y l IH]; simpl; [discriminate|].
  destruct (f y) eqn:Hy; simpl.
  - intros H. injection H as ->. split; [exact Hy|].
    exists [], l. split; [reflexivity|constructor].
  - intros H. destruct (IH H) as (Hx & before & after & -> & Hb).
    split; [exact Hx|]. exists (y :: before), after.
    split; [reflexivity|]. constructor; assumption.
Qed.

Lemma head_filter_None {A} (f : A -> bool) l :
  head (List.filter f l) = None -> Forall (fun y => f y = false) l.
Proof.
  induction l as [|y l IH]; simpl; [constructor|].
  destruct (f y) eqn:Hy; simpl; [discriminate|].
  intros H. constructor; auto.
Qed.

Lemma verify_log_stream_run w log_group log_stream task_id st :
  exists found st' calls,
    verify_log_stream w log_group log_stream task_id st = (Ok found, st') /\
    crash_info st' = crash_info st /\
    trace st' = (trace st ++ map Net calls)%list /\
    (calls = [CwDescribeLogStreams] \/
     calls = [CwDescribeLogStreams; CwDescribeLogStreams]) /\
    found =
      match cw_streams_by_prefix w log_group log_stream with
      | Some (actual_stream :: _) => Some actual_stream
      | Some [] =>
          match cw_streams_recent w log_group with
          | Some recent => head (List.filter (substringb task_id) recent)
          | None => None
          end
      | None => None
      end.
Proof.
  unfold verify_log_stream, try_except, bind at 1, call, bind at 1, emit. simpl.
  destruct (cw_streams_by_prefix w log_group log_stream) as [[|actual rest]|]; simpl.
  - unfold bind, emit. simpl.
    destruct (cw_streams_recent w log_group) as [recent|]; simpl;
      eexists _, _, [CwDescribeLogStreams; CwDescribeLogStreams];
      run_done.
  - eexists _, _, [CwDescribeLogStreams]. run_done.
  - eexists _, _, [CwDescribeLogStreams]. run_done.
Qed.

(** The stream the verification settles on: the stream the exact lookup
    returned, when it returned one; otherwise the most recently active
    stream of the group whose name contains the task id, and then no stream
    before it in the listing contains it.  When neither lookup gives one, or
    either fails, there is no stream. *)
Theorem verify_log_stream_choice w log_group log_stream task_id st name st' :
  verify_log_stream w log_group log_stream task_id st = (Ok (Some name), st') ->
  (exists rest, cw_streams_by_prefix w log_group log_stream = Some (name :: rest)) \/
  (cw_streams_by_prefix w log_group log_stream = Some [] /\
   substringb task_id name = true /\
   exists before after,
     cw_streams_recent w log_group = Some (before ++ name :: after)%list /\
     Forall (fun s => substringb task_id s = false) before).
Proof.
  intros Hrun.
  destruct (verify_log_stream_run w log_group log_stream task_id st)
    as (found & st1 & calls & Hrun' & _ & _ & _ & Hfound).
  rewrite Hrun in Hrun'. injection Hrun' as <- <-.
  destruct (cw_streams_by_prefix w log_group log_stream) as [[|actual rest]|];
    [|injection Hfound as ->; eauto|discriminate].
  right. split; [reflexivity|].
  destruct (cw_streams_recent w log_group) as [recent|]; [|discriminate].
  symmetry in Hfound.
  destruct (head_filter_Some _ _ _ Hfound) as (Hx & before & after & -> & Hb).
  eauto 6.
Qed.

Lemma get_logs_with_config_run rt w cfg task_id st :
  exists logs st' calls,
    get_logs_with_config rt w cfg task_id st = (Ok logs, st') /\
    crash_info st' = crash_info st /\
    trace st' = (trace st ++ map Net calls)%list /\
    (calls = [] /\ logs = [] \/
     calls = [CwDescribeLogStreams] /\ logs = [] \/
     calls = [CwDescribeLogStreams; CwDescribeLogStreams] /\ logs = [] \/
     calls = [CwDescribeLogStreams; CwFilterLogEvents] \/
     calls = [CwDescribeLogStreams; CwDescribeLogStreams; CwFilterLogEvents]) /\
    (logs <> [] ->
     exists stream events,
       cw_filter_log_events w (default EmptyString (cfg !! "awslogs-group")) stream
       = Some events /\
       logs = map cw_log_entry events).
Proof.
  assert (Hnil : forall P : Prop, ([] : list pyval) <> [] -> P)
    by (intros P H; contradiction).
  unfold get_logs_with_config, try_except. cbv zeta.
  destruct (String.eqb (default EmptyString (cfg !! "awslogs-group")) EmptyString).
  { exists [], st, []. run_done. apply Hnil. }
  unfold bind at 1, get_crash_info. unfold bind at 1.
  match goal with |- context [container_name_of ?v ?s] =>
    destruct (container_name_of_stateless v s) as [r ->] end.
  destruct r as [container_name|].
  2: { exists [], st, []. run_done. apply Hnil. }
  destruct (negb (truthy container_name)).
  { exists [], st, []. run_done. apply Hnil. }
  unfold bind.
  match goal with |- context [verify_log_stream ?a ?b ?c ?d ?s] =>
    destruct (verify_log_stream_run a b c d s)
      as (found & st1 & calls & -> & Hc1 & Ht1 & Hcalls & _) end.
  destruct found as [stream|].
  - destruct (get_logs_from_stream_run w
                (default EmptyString (cfg !! "awslogs-group")) stream st1)
      as (logs & st2 & -> & Hc2 & Ht2 & Hlogs).
    exists logs, st2, (calls ++ [CwFilterLogEvents])%list.
    split; [reflexivity|]. split; [congruence|].
    split; [rewrite Ht2, Ht1, map_app, app_assoc; reflexivity|].
    split; [destruct Hcalls as [-> | ->]; simpl; auto 6|].
    intros Hne. exists stream.
    destruct (cw_filter_log_events w _ stream) as [events|]; [eauto|].
    simpl in Hlogs. contradiction.
  - exists [], st1, calls. simpl.
    split; [reflexivity|]. split; [exact Hc1|]. split; [exact Ht1|].
    split; [destruct Hcalls as [-> | ->]; auto 6|apply Hnil].
Qed.

Lemma get_cloudwatch_logs_run rt w st :
  exists logs st' calls,
    get_cloudwatch_logs rt w st = (Ok logs, st') /\
    net_calls (trace st') = (net_calls (trace st) ++ calls)%list /\
    calls ∈ cloudwatch_call_sequences /\
    (logs <> [] ->
     last calls = Some CwFilterLogEvents /\
     exists log_group stream events,
       cw_filter_log_events w log_group stream = Some events /\
       logs = map cw_log_entry events).
Proof.
  assert (Hnone : forall s : Run,
    exists (logs : list pyval) (st' : Run) calls,
      (Ok [], s) = (Ok logs, st') /\
      net_calls (trace st') = (net_calls (trace s) ++ calls)%list /\
      calls ∈ cloudwatch_call_sequences /\
      (logs <> [] ->
       last calls = Some CwFilterLogEvents /\
       exists log_group stream events,
         cw_filter_log_events w log_group stream = Some events /\
         logs = map cw_log_entry events)).
  { intros s. exists [], s, []. rewrite app_nil_r.
    split; [reflexivity|]. split; [reflexivity|].
    split; [unfold cloudwatch_call_sequences; in_list|].
    intros H; contradiction. }
  unfold get_cloudwatch_logs, try_except, bind at 1, get_crash_info.
  destruct (negb (truthy (default PNone (crash_info st !! "failed_container"))));
    [apply Hnone|].
  unfold bind at 1.
  destruct (default PNone (crash_info st !! "failed_container"));
    simpl; try apply Hnone.
  destruct (negb _); [apply Hnone|].
  destruct (default (PStr EmptyString) (crash_info st !! "task_arn"));
    simpl; try apply Hnone.
  unfold bind at 1.
  destruct (get_log_configuration_run w st)
    as (cfg & st1 & calls1 & -> & Hc1 & Ht1 & Hcalls1).
  assert (Hstop : exists (logs : list pyval) (st' : Run) calls,
    (Ok [], st1) = (Ok logs, st') /\
    net_calls (trace st') = (net_calls (trace st) ++ calls)%list /\
    calls ∈ cloudwatch_call_sequences /\
    (logs <> [] ->
     last calls = Some CwFilterLogEvents /\
     exists log_group stream events,
       cw_filter_log_events w log_group stream = Some events /\
       logs = map cw_log_entry events)).
  { exists [], st1, calls1. split; [reflexivity|].
    split; [rewrite Ht1, net_calls_app, net_calls_map_Net; reflexivity|].
    split; [|intros H; contradiction].
    destruct Hcalls1 as [[-> _]| ->]; unfold cloudwatch_call_sequences;
      in_list. }
  destruct cfg as [cfg|]; [|exact Hstop].
  destruct Hcalls1 as [[_ Hcfg]| ->]; [discriminate|].
  destruct (bool_decide (cfg = ∅)); [exact Hstop|].
  unfold bind at 1.
  destruct (get_logs_with_config_run rt w cfg (last_segment s) st1)
    as (logs & st2 & calls2 & -> & Hc2 & Ht2 & Hcalls2 & Hfrom).
  assert (Hnet : net_calls (trace st2)
                 = (net_calls (trace st) ++ EcsDescribeTaskDefinition :: calls2)%list).
  { rewrite Ht2, Ht1, !net_calls_app, !net_calls_map_Net.
    rewrite <- app_assoc. reflexivity. }
  assert (Hin : EcsDescribeTaskDefinition :: calls2 ∈ cloudwatch_call_sequences).
  { unfold cloudwatch_call_sequences.
    destruct Hcalls2 as [[-> _]|[[-> _]|[[-> _]|[->| ->]]]]; in_list. }
  destruct logs as [|x l].
  - exists [], st2, (EcsDescribeTaskDefinition :: calls2).
    split; [reflexivity|]. split; [exact Hnet|]. split; [exact Hin|].
    intros H; contradiction.
  - exists (x :: l), (set_log_source CloudWatch st2).2,
           (EcsDescribeTaskDefinition :: calls2).
    split; [reflexivity|].
    split; [simpl; rewrite net_calls_app, Hnet; simpl; rewrite app_nil_r; reflexivity|].
    split; [exact Hin|]. intros Hne. split.
    + destruct Hcalls2 as [[_ H]|[[_ H]|[[_ H]|[->| ->]]]];
        try discriminate; reflexivity.
    + destruct (Hfrom Hne) as (stream & events & Hev & Hlogs). eauto.
Qed.

(** The CloudWatch adapter makes at most four network calls and always in
    this order: the task-definition lookup, one or two stream listings, one
    read of the events.  It never lists streams without having read the task
    definition and never reads events without having listed streams; and
    when it returns entries, its last call was the read of the events. *)
Theorem cloudwatch_call_sequence rt w st :
  exists logs st' calls,
    get_cloudwatch_logs rt w st = (Ok logs, st') /\
    net_calls (trace st') = (net_calls (trace st) ++ calls)%list /\
    calls ∈ cloudwatch_call_sequences /\
    (logs <> [] -> last calls = Some CwFilterLogEvents).
Proof.
  destruct (get_cloudwatch_logs_run rt w st)
    as (logs & st' & calls & Hrun & Hnet & Hin & Hlast).
  exists logs, st', calls. repeat split; auto.
  intros Hne. exact (proj1 (Hlast Hne)).
Qed.

(** * The timestamps, adapter by adapter *)

Lemma call_Ok {A} (a : api) (ans : option A) st r st' :
  call a ans st = (Ok r, st') -> ans = Some r.
Proof.
  unfold call, bind, emit. simpl. destruct ans as [x|]; simpl; [|discriminate].
  unfold ret. congruence.
Qed.

Lemma py_get_Ok v k dflt st x st' :
  py_get v k dflt st = (Ok x, st') ->
  exists d, v = PDict d /\ x = default dflt (dict_get k d) /\ st' = st.
Proof.
  destruct v; simpl; try discriminate.
  unfold ret. intros H. injection H as <- <-. eauto.
Qed.

Lemma py_iter_Ok v st l st' :
  py_iter v st = (Ok l, st') -> py_elements v = Some l /\ st' = st.
Proof.
  destruct v; simpl; try discriminate; unfold ret; intros H;
    injection H as <- <-; auto.
Qed.

Lemma py_iter_elements v l st :
  py_elements v = Some l -> py_iter v st = (Ok l, st).
Proof.
  destruct v; simpl; try discriminate; intros H; injection H as <-; reflexivity.
Qed.

Lemma mapM_Forall2 {A B} (P : A -> B -> Prop) (f : A -> M B) l :
  (forall x st y st', f x st = (Ok y, st') -> P x y) ->
  forall st ys st', mapM f l st = (Ok ys, st') -> Forall2 P l ys.
Proof.
  intros Hf. induction l as [|x l IH]; simpl; intros st ys st' H.
  - apply ret_Ok in H as <-. constructor.
  - apply bind_Ok in H as (y & st1 & Hy & H).
    apply bind_Ok in H as (ys' & st2 & Hys & H).
    apply ret_Ok in H as <-. constructor; eauto.
Qed.

(** The loop over the metadata pairs finds the metadata timestamp, and
    leaves the state alone. *)
Lemma cx_find_timestamp_Ok metas st v st' :
  cx_find_timestamp metas st = (Ok v, st') ->
  st' = st /\
  ((exists before meta after,
       metas = (before ++ PDict meta :: after)%list /\
       Forall other_pair before /\
       is_timestamp_pair meta = true /\
       v = default PNone (dict_get "value" meta)) \/
   (Forall other_pair metas /\ v = PNone)).
Proof.
  induction metas as [|m metas IH]; simpl; intros H.
  - unfold ret in H. injection H as <- <-. split; [reflexivity|].
    right. split; [constructor|reflexivity].
  - apply bind_Ok in H as (k & st1 & Hk & H).
    apply py_get_Ok in Hk as (d & -> & -> & ->).
    destruct (is_str "timestamp" (default PNone (dict_get "key" d))) eqn:Hkey.
    + apply py_get_Ok in H as (d' & Hd & -> & ->). injection Hd as <-.
      split; [reflexivity|]. left. exists [], d, metas.
      split; [reflexivity|]. split; [constructor|]. split; [exact Hkey|reflexivity].
    + destruct (IH H) as [-> Hcase]. split; [reflexivity|].
      assert (Hother : other_pair (PDict d)) by (exists d; split; [reflexivity|exact Hkey]).
      destruct Hcase as [(before & meta & after & -> & Hb & Hm & ->)|[Hall ->]].
      * left. exists (PDict d :: before), meta, after.
        split; [reflexivity|]. split; [constructor; assumption|]. auto.
      * right. split; [constructor; assumption|reflexivity].
Qed.

Lemma cx_find_timestamp_skip before rest st :
  Forall other_pair before ->
  cx_find_timestamp (before ++ rest) st = cx_find_timestamp rest st.
Proof.
  induction 1 as [|m before (d & -> & Hd) _ IH]; [reflexivity|].
  simpl. unfold bind. simpl. unfold is_timestamp_pair in Hd. rewrite Hd. exact IH.
Qed.

Lemma cx_find_timestamp_run metas v st :
  (exists before meta after,
      metas = (before ++ PDict meta :: after)%list /\
      Forall other_pair before /\
      is_timestamp_pair meta = true /\
      v = default PNone (dict_get "value" meta)) \/
  (Forall other_pair metas /\ v = PNone) ->
  cx_find_timestamp metas st = (Ok v, st).
Proof.
  intros [(before & meta & after & -> & Hb & Hm & ->)|[Hall ->]].
  - rewrite (cx_find_timestamp_skip _ _ _ Hb). simpl. unfold bind. simpl.
    unfold is_timestamp_pair in Hm. rewrite Hm. reflexivity.
  - rewrite <- (app_nil_r metas), (cx_find_timestamp_skip _ _ _ Hall). reflexivity.
Qed.

(** The conversion always gives a number, and the number is the parsed
    instant or a reading of the clock. *)
Lemma cx_timestamp_ms_run rt w v st :
  exists n st', cx_timestamp_ms rt w v st = (Ok n, st') /\ converted rt w v n.
Proof.
  assert (Hnow : forall P : Z -> Prop,
             (forall k, P (clock w k)) ->
             exists n st', now_ms w st = (Ok n, st') /\ P n).
  { intros P HP. eexists _, _. split; [reflexivity|apply HP]. }
  unfold cx_timestamp_ms, converted.
  destruct v; simpl; try (apply Hnow; eauto);
    try (destruct b; apply Hnow; eauto);
    try (destruct (negb (n =? 0)); apply Hnow; eauto);
    try (destruct l; apply Hnow; eauto);
    try (destruct d; apply Hnow; eauto).
  destruct (String.eqb s EmptyString); simpl; [apply Hnow; eauto|].
  destruct (fromisoformat_ms rt (replace_Z s)) as [m|]; [|apply Hnow; eauto].
  eexists _, _. split; reflexivity.
Qed.

Lemma cx_message_stateless rt l st : exists r, cx_message rt l st = (r, st).
Proof.
  unfold cx_message.
  destruct (truthy (default (PDict []) (dict_get "data" l))).
  - destruct (default (PDict []) (dict_get "data" l)); eexists; reflexivity.
  - destruct (default (PStr "{}") (dict_get "userData" l)); try (eexists; reflexivity).
    destruct (json_loads rt s) as [[]|]; eexists; reflexivity.
Qed.

(** One record of the DataPrime answer: the entry made from it is stamped
    with what becomes of the record's metadata timestamp. *)
Lemma cx_log_entry_record rt w log st e st' :
  cx_log_entry rt w log st = (Ok e, st') ->
  exists l v, log = PDict l /\ metadata_timestamp l v /\ converted rt w v e.1.
Proof.
  unfold cx_log_entry. intros H.
  apply bind_Ok in H as (_ & st1 & _ & H).
  destruct log as [| | | | |l]; try discriminate.
  apply bind_Ok in H as (message & st2 & _ & H).
  apply bind_Ok in H as (metas & st3 & Hmetas & H).
  apply bind_Ok in H as (timestamp_str & st4 & Hfind & H).
  apply bind_Ok in H as (timestamp_ms & st5 & Hts & H).
  apply ret_Ok in H as <-. simpl.
  destruct (cx_timestamp_ms_run rt w timestamp_str st4) as (n & s' & Hrun & Hconv).
  rewrite Hts in Hrun. injection Hrun as <- _.
  apply py_iter_Ok in Hmetas as [Hmetas _].
  apply cx_find_timestamp_Ok in Hfind as [_ Hfind].
  exists l, timestamp_str. split; [reflexivity|].
  split; [exists metas; split; assumption|exact Hconv].
Qed.

(** A record whose message can be extracted and whose metadata can be gone
    through gives an entry, whatever its metadata timestamp is. *)
Lemma cx_log_entry_total rt w l v msg st :
  metadata_timestamp l v ->
  (cx_message rt l st).1 = Ok msg ->
  exists n st',
    cx_log_entry rt w (PDict l) st = (Ok (n, msg), st') /\ converted rt w v n.
Proof.
  intros (metas & Hmetas & Hfind) Hmsg.
  destruct (cx_message_stateless rt l st) as [r Hr].
  rewrite Hr in Hmsg. simpl in Hmsg. subst r.
  destruct (cx_timestamp_ms_run rt w v st) as (n & st' & Hts & Hconv).
  exists n, st'. split; [|exact Hconv].
  unfold cx_log_entry, bind at 1. simpl.
  unfold bind at 1. rewrite Hr.
  unfold bind at 1. rewrite (py_iter_elements _ _ st Hmetas).
  unfold bind at 1. rewrite (cx_find_timestamp_run metas v st Hfind).
  unfold bind. rewrite Hts. reflexivity.
Qed.

Lemma get_coralogix_logs_records rt w st logs st' :
  get_coralogix_logs rt w st = (Ok logs, st') ->
  logs <> [] ->
  exists url api_key payload response_text records entries s s',
    cx_query w url api_key payload = Some response_text /\
    cx_collect rt (cx_response_lines response_text) [] s = (Ok records, s') /\
    Forall2 (fun record entry =>
               exists l v, record = PDict l /\ metadata_timestamp l v /\
                           converted rt w v entry.1) records entries /\
    logs = map log_entry (sort_desc entries).
Proof.
  unfold get_coralogix_logs. intros H Hne.
  apply try_except_nil_Ok in H as [H| ->]; [|contradiction].
  destruct (negb _); [apply ret_Ok in H as <-; contradiction|].
  apply bind_Ok in H as (ci & st1 & _ & H).
  destruct (negb _); [apply ret_Ok in H as <-; contradiction|].
  apply bind_Ok in H as (_ & st2 & _ & H).
  destruct (ci !! "service_name") as [service_name|]; [|discriminate].
  apply bind_Ok in H as (response_text & st3 & Hcall & H).
  apply call_Ok in Hcall.
  apply bind_Ok in H as (collected & st4 & Hcollect & H).
  destruct collected as [|c cs]; [apply ret_Ok in H as <-; contradiction|].
  apply bind_Ok in H as (log_entries & st5 & Hmap & H).
  apply ret_Ok in H as <-.
  eexists _, _, _, response_text, (c :: cs), log_entries, st3, st4.
  split; [exact Hcall|]. split; [exact Hcollect|]. split; [|reflexivity].
  eapply mapM_Forall2; [|exact Hmap].
  intros x s y s' Hx. exact (cx_log_entry_record _ _ _ _ _ _ Hx).
Qed.

Lemma es_log_entry_hit hit st e st' :
  es_log_entry hit st = (Ok e, st') ->
  exists v, hit_timestamp hit v /\ entry_timestamp e = Some v.
Proof.
  unfold es_log_entry. intros H.
  apply bind_Ok in H as (source & st1 & Hsource & H).
  apply py_get_Ok in Hsource as (h & -> & -> & ->).
  destruct (default (PDict []) (dict_get "_source" h)) as [| | | | |source] eqn:Hs;
    try discriminate.
  apply ret_Ok in H as <-.
  exists (default (PStr EmptyString) (dict_get "@timestamp" source)).
  split; [|reflexivity]. exists h, source. auto.
Qed.

Lemma get_elasticsearch_logs_hits w st logs st' :
  get_elasticsearch_logs w st = (Ok logs, st') ->
  logs <> [] ->
  exists url username password body result hits,
    es_search w url username password body = Some result /\
    es_answer_hits result hits /\
    Forall2 (fun hit entry =>
               exists v, hit_timestamp hit v /\ entry_timestamp entry = Some v)
            hits logs.
Proof.
  unfold get_elasticsearch_logs. intros H Hne.
  apply try_except_nil_Ok in H as [H| ->]; [|contradiction].
  destruct (negb _); [apply ret_Ok in H as <-; contradiction|].
  apply bind_Ok in H as (ci & st1 & _ & H).
  destruct (negb _); [apply ret_Ok in H as <-; contradiction|].
  apply bind_Ok in H as (_ & st2 & _ & H).
  apply bind_Ok in H as (result & st3 & Hcall & H).
  apply call_Ok in Hcall.
  apply bind_Ok in H as (outer & st4 & Houter & H).
  apply py_get_Ok in Houter as (r & -> & -> & ->).
  apply bind_Ok in H as (hits & st5 & Hhits & H).
  apply py_get_Ok in Hhits as (o & Ho & -> & ->).
  apply bind_Ok in H as (items & st6 & Hitems & H).
  apply py_iter_Ok in Hitems as [Hitems ->].
  apply bind_Ok in H as (log_entries & st7 & Hmap & H).
  apply bind_Ok in H as (_ & st8 & _ & H).
  apply bind_Ok in H as (_ & st9 & _ & H).
  apply ret_Ok in H as <-.
  eexists _, _, _, _, (PDict r), items.
  split; [exact Hcall|]. split; [exists r, o; auto|].
  eapply mapM_Forall2; [|exact Hmap].
  intros x s y s' Hx. exact (es_log_entry_hit _ _ _ _ Hx).
Qed.

(** C3, as the code has it, adapter by adapter.

    - DataPrime: the entries returned are made one by one from the records
      collected from the response and then sorted; each carries an integer,
      which is what becomes of its own record's metadata timestamp: the
      epoch milliseconds the ISO parser gives for a non-empty string it
      accepts, a reading of the clock in every other case.
    - DataPrime again: no timestamp fails an entry; a record whose message
      can be extracted and whose metadata can be gone through gives an
      entry, whatever its metadata timestamp is.
    - Search engine: nothing is converted; each entry belongs to one hit of
      the answer, in the order of the answer, and carries that hit's
      [@timestamp] as it came, the empty string when the hit has none.
    - CloudWatch: each entry belongs to one event of the answer, in the
      order of the answer, and carries that event's integer timestamp as it
      came. *)
Theorem timestamps_by_adapter rt w :
  (forall st logs st',
      get_coralogix_logs rt w st = (Ok logs, st') ->
      logs <> [] ->
      exists url api_key payload response_text records entries s s',
        cx_query w url api_key payload = Some response_text /\
        cx_collect rt (cx_response_lines response_text) [] s = (Ok records, s') /\
        Forall2 (fun record entry =>
                   exists l v, record = PDict l /\ metadata_timestamp l v /\
                               converted rt w v entry.1) records entries /\
        logs = map log_entry (sort_desc entries) /\
        Forall (fun e => exists n, entry_timestamp e = Some (PInt n)) logs) /\
  (forall l v msg st,
      metadata_timestamp l v ->
      (cx_message rt l st).1 = Ok msg ->
      exists n st',
        cx_log_entry rt w (PDict l) st = (Ok (n, msg), st') /\
        converted rt w v n) /\
  (forall st logs st',
      get_elasticsearch_logs w st = (Ok logs, st') ->
      logs <> [] ->
      exists url username password body result hits,
        es_search w url username password body = Some result /\
        es_answer_hits result hits /\
        Forall2 (fun hit entry =>
                   exists v, hit_timestamp hit v /\ entry_timestamp entry = Some v)
                hits logs) /\
  (forall st logs st',
      get_cloudwatch_logs rt w st = (Ok logs, st') ->
      logs <> [] ->
      exists log_group stream events,
        cw_filter_log_events w log_group stream = Some events /\
        Forall2 (fun ev entry =>
                   entry_timestamp entry = Some (PInt (ev_timestamp ev)))
                events logs).
Proof.
  split; [|split; [|split]].
  - intros st logs st' H Hne.
    destruct (get_coralogix_logs_records rt w st logs st' H Hne)
      as (url & api_key & payload & response_text & records & entries & s & s'
          & Hq & Hc & Hall & ->).
    exists url, api_key, payload, response_text, records, entries, s, s'.
    repeat (split; [assumption || reflexivity|]).
    apply Forall_map, Forall_forall. intros [n msg] _. exists n. reflexivity.
  - intros l v msg st. apply cx_log_entry_total.
  - exact (get_elasticsearch_logs_hits w).
  - intros st logs st' H Hne.
    destruct (get_cloudwatch_logs_run rt w st)
      as (logs' & st1 & calls & Hrun & _ & _ & Hfrom).
    rewrite H in Hrun. injection Hrun as <- <-.
    destruct (Hfrom Hne) as (_ & log_group & stream & events & Hev & ->).
    exists log_group, stream, events. split; [exact Hev|].
    clear. induction events as [|ev events IH]; constructor; [reflexivity|exact IH].
Qed.

(** On the samples: the two entries DataPrime returns, one stamped with the
    parsed instant of its record and one, whose record has no timestamp
    pair, with the clock; and an instant the parser puts before 1970 gives a
    negative timestamp. *)
Lemma timestamps_by_adapter_witness :
  (exists records entries,
      Forall2 (fun record entry =>
                 exists l v, record = PDict l /\ metadata_timestamp l v /\
                             converted sample_runtime sample_world_coralogix v entry.1)
              records entries /\
      (resolve sample_runtime sample_world_coralogix sample_crash_info).1
      = map log_entry (sort_desc entries)) /\
  (exists n st',
      cx_log_entry sample_runtime_1969 sample_world_coralogix
        (PDict [("metadata", PList [PDict [("key", PStr "timestamp");
                                           ("value", PStr "2025-09-21T09:59:32.100026178")]]);
                ("data", PDict [("message", PStr "boom")])])
        (initial sample_crash_info) = (Ok (n, "boom"), st') /\
      n = -1) /\
  (exists events,
      Forall2 (fun ev entry => entry_timestamp entry = Some (PInt (ev_timestamp ev)))
              events
              (resolve sample_runtime sample_world_cloudwatch sample_crash_info).1).
Proof.
  split; [|split].
  - destruct (proj1 (timestamps_by_adapter sample_runtime sample_world_coralogix)
                (initial sample_crash_info)
                (resolve sample_runtime sample_world_coralogix sample_crash_info).1
                (get_coralogix_logs sample_runtime sample_world_coralogix
                   (initial sample_crash_info)).2)
      as (_ & _ & _ & _ & records & entries & _ & _ & _ & _ & Hall & Hlogs & _).
    + vm_compute. reflexivity.
    + vm_compute. discriminate.
    + exists records, entries. split; [exact Hall|exact Hlogs].
  - destruct (proj1 (proj2 (timestamps_by_adapter sample_runtime_1969
                              sample_world_coralogix))
                [("metadata", PList [PDict [("key", PStr "timestamp");
                                            ("value", PStr "2025-09-21T09:59:32.100026178")]]);
                 ("data", PDict [("message", PStr "boom")])]
                (PStr "2025-09-21T09:59:32.100026178") "boom"
                (initial sample_crash_info))
      as (n & st' & Hrun & Hconv).
    + eexists. split; [reflexivity|]. left.
      exists [], [("key", PStr "timestamp");
                  ("value", PStr "2025-09-21T09:59:32.100026178")], [].
      split; [reflexivity|]. split; [constructor|]. split; reflexivity.
    + reflexivity.
    + exists n, st'. split; [exact Hrun|exact Hconv].
  - destruct (proj2 (proj2 (proj2 (timestamps_by_adapter sample_runtime
                                     sample_world_cloudwatch)))
                (initial sample_crash_info)
                (resolve sample_runtime sample_world_cloudwatch sample_crash_info).1
                (get_cloudwatch_logs sample_runtime sample_world_cloudwatch
                   (initial sample_crash_info)).2)
      as (_ & _ & events & _ & Hall).
    + vm_compute. reflexivity.
    + vm_compute. discriminate.
    + exists events. exact Hall.
Defined.

(** * Properties of the string helpers and the stream name *)

Lemma split_on_segments sep s :
  Forall (fun seg => has_char sep seg = false) (split_on sep s).
Proof.
  induction s as [|c s IH]; simpl.
  - repeat constructor.
  - destruct (Ascii.eqb c sep) eqn:Hc.
    + constructor; [reflexivity|exact IH].
    + destruct (split_on sep s) as [|h t].
      * constructor; [simpl; rewrite Hc; reflexivity|constructor].
      * apply Forall_cons in IH as [Hh Ht].
        constructor; [simpl; rewrite Hc; exact Hh|exact Ht].
Qed.

Lemma split_on_not_nil sep s : split_on sep s <> [].
Proof.
  destruct s as [|c s]; simpl; [discriminate|].
  destruct (Ascii.eqb c sep); [discriminate|].
  destruct (split_on sep s); discriminate.
Qed.

Lemma split_on_no_sep sep s : has_char sep s = false -> split_on sep s = [s].
Proof.
  induction s as [|c s IH]; simpl; [reflexivity|].
  destruct (Ascii.eqb c sep); simpl; [discriminate|].
  intros H. rewrite (IH H). reflexivity.
Qed.

Lemma split_on_app sep a b :
  split_on sep (a +:+ String sep b) = (split_on sep a ++ split_on sep b)%list.
Proof.
  induction a as [|c a IH]; simpl.
  - rewrite Ascii.eqb_refl. reflexivity.
  - destruct (Ascii.eqb c sep); [rewrite IH; reflexivity|].
    rewrite IH. pose proof (split_on_not_nil sep a) as Hne.
    destruct (split_on sep a) as [|h t]; [contradiction|]. reflexivity.
Qed.

Lemma last_app_singleton {A} (l : list A) x d : List.last (l ++ [x]) d = x.
Proof.
  induction l as [|y l IH]; [reflexivity|].
  simpl. destruct (l ++ [x])%list eqn:E; [|exact IH].
  destruct l; discriminate.
Qed.

Lemma Forall_last {A} (P : A -> Prop) l d :
  l <> [] -> Forall P l -> P (List.last l d).
Proof.
  induction l as [|x l IH]; [contradiction|].
  intros _ H. apply Forall_cons in H as [Hx Hl].
  destruct l as [|y l]; [exact Hx|]. apply IH; [discriminate|exact Hl].
Qed.

Lemma split_on_singleton sep s h : split_on sep s = [h] -> s = h.
Proof.
  revert h. induction s as [|c s IH]; simpl; intros h E.
  - congruence.
  - pose proof (split_on_not_nil sep s) as Hne.
    destruct (Ascii.eqb c sep).
    + destruct (split_on sep s); [contradiction|discriminate].
    + destruct (split_on sep s) as [|h1 t1]; [contradiction|].
      injection E as <- ->. f_equal. apply IH. reflexivity.
Qed.

Lemma split_on_last_suffix sep s :
  exists p, s = p +:+ List.last (split_on sep s) EmptyString.
Proof.
  induction s as [|c s [p IH]].
  - exists EmptyString. reflexivity.
  - pose proof (split_on_not_nil sep s) as Hne.
    pose proof (split_on_singleton sep s) as Hone.
    simpl. destruct (Ascii.eqb c sep).
    + exists (String c p).
      destruct (split_on sep s) as [|h t]; [contradiction|].
      transitivity (String c (p +:+ List.last (h :: t) EmptyString));
        [f_equal; exact IH|reflexivity].
    + destruct (split_on sep s) as [|h [|h' t]]; [contradiction| |].
      * exists EmptyString. simpl. rewrite (Hone h eq_refl). reflexivity.
      * exists (String c p).
        transitivity (String c (p +:+ List.last (h :: h' :: t) EmptyString));
          [f_equal; exact IH|reflexivity].
Qed.

(** The task id the CloudWatch adapter takes from a task ARN is the part
    after the last slash: it has no slash in it, the ARN ends with it, and an
    ARN without a slash is its own task id. *)
Theorem last_segment_spec s :
  has_char "/" (last_segment s) = false /\
  (exists p, s = p +:+ last_segment s) /\
  (has_char "/" s = false -> last_segment s = s).
Proof.
  unfold last_segment. split; [|split].
  - apply Forall_last; [apply split_on_not_nil|].
    apply (split_on_segments "/"%char s).
  - apply split_on_last_suffix.
  - intros H. rewrite (split_on_no_sep _ _ H). reflexivity.
Qed.

Lemma str_append_assoc a b c : (a +:+ b) +:+ c = a +:+ b +:+ c.
Proof.
  induction a as [|x a IH]; [reflexivity|].
  change (String x ((a +:+ b) +:+ c) = String x (a +:+ b +:+ c)).
  rewrite IH. reflexivity.
Qed.

Lemma prefixb_app p s : prefixb p (p +:+ s) = true.
Proof.
  induction p as [|c p IH]; simpl; [reflexivity|].
  rewrite Ascii.eqb_refl. exact IH.
Qed.

Lemma substringb_app_r needle a b :
  substringb needle b = true -> substringb needle (a +:+ b) = true.
Proof.
  intros H. induction a as [|c a IH]; simpl; [exact H|].
  rewrite IH. apply orb_true_r.
Qed.

Lemma substringb_refl s : substringb s s = true.
Proof.
  destruct s as [|c s]; simpl; [reflexivity|].
  rewrite Ascii.eqb_refl. simpl.
  pose proof (prefixb_app s EmptyString) as H.
  assert (E : s +:+ EmptyString = s).
  { clear. induction s as [|c s IH]; [reflexivity|].
    change (String c (s +:+ EmptyString) = String c s). f_equal. exact IH. }
  rewrite E in H. rewrite H. reflexivity.
Qed.

(** The stream name built from a prefix, a container name and a task id
    contains the task id, so a stream that bears the exact name also meets
    the test of the fallback search; and when the task id has no slash, as
    the one taken from a task ARN, it is the last segment of the name. *)
Theorem stream_name_carries_task_id stream_prefix container_name task_id :
  substringb task_id (stream_name stream_prefix container_name task_id) = true /\
  (has_char "/" task_id = false ->
   last_segment (stream_name stream_prefix container_name task_id) = task_id).
Proof.
  unfold stream_name. split.
  - destruct (String.eqb stream_prefix EmptyString);
      repeat apply substringb_app_r; apply substringb_refl.
  - intros Hid. unfold last_segment.
    assert (Hlast : forall a, List.last (split_on "/"%char (a +:+ "/" +:+ task_id))
                                EmptyString = task_id).
    { intros a. change ("/" +:+ task_id) with (String "/"%char task_id).
      rewrite split_on_app, (split_on_no_sep _ _ Hid). apply last_app_singleton. }
    destruct (String.eqb stream_prefix EmptyString).
    + apply Hlast.
    + assert (E : stream_prefix +:+ "/" +:+ container_name +:+ "/" +:+ task_id
                  = (stream_prefix +:+ "/" +:+ container_name) +:+ "/" +:+ task_id).
      { rewrite !str_append_assoc. reflexivity. }
      rewrite E. apply Hlast.
Qed.

Lemma lstrip_unfold s :
  lstrip s = match ws_head s with Some r => lstrip r | None => s end.
Proof.
  destruct s as [|c1 [|c2 [|c3 s]]]; simpl; try reflexivity.
  - destruct (is_space1 c1); reflexivity.
  - destruct (is_space1 c1); [reflexivity|].
    destruct (is_space2 c1 c2); reflexivity.
  - destruct (is_space1 c1); [reflexivity|].
    destruct (is_space2 c1 c2); [reflexivity|].
    destruct (is_space3 c1 c2 c3); reflexivity.
Qed.

Lemma ws_head_shorter s r :
  ws_head s = Some r -> (String.length r < String.length s)%nat.
Proof.
  destruct s as [|c1 [|c2 [|c3 s]]]; simpl; try discriminate.
  - destruct (is_space1 c1); [|discriminate]. intros H. injection H as <-. simpl. lia.
  - destruct (is_space1 c1); [intros H; injection H as <-; simpl; lia|].
    destruct (is_space2 c1 c2); [|discriminate].
    intros H. injection H as <-. simpl. lia.
  - destruct (is_space1 c1); [intros H; injection H as <-; simpl; lia|].
    destruct (is_space2 c1 c2); [intros H; injection H as <-; simpl; lia|].
    destruct (is_space3 c1 c2 c3); [|discriminate].
    intros H. injection H as <-. simpl. lia.
Qed.

Lemma ws_head_app a b r :
  ws_head a = Some r -> ws_head (a +:+ b) = Some (r +:+ b).
Proof.
  destruct a as [|c1 [|c2 [|c3 a]]]; simpl; try discriminate;
    (destruct (is_space1 c1); [intros H; injection H as <-; reflexivity|]);
    try discriminate;
    (destruct (is_space2 c1 c2); [intros H; injection H as <-; reflexivity|]);
    try discriminate.
  destruct (is_space3 c1 c2 c3); [|discriminate].
  intros H; injection H as <-; reflexivity.
Qed.

(** What [lstrip] returns does not start with whitespace. *)
Lemma ws_head_lstrip s : ws_head (lstrip s) = None.
Proof.
  remember (String.length s) as n eqn:Hn. revert s Hn.
  induction n as [n IH] using lt_wf_ind. intros s ->.
  rewrite lstrip_unfold. destruct (ws_head s) as [r|] eqn:Hr; [|exact Hr].
  exact (IH _ (ws_head_shorter s r Hr) r eq_refl).
Qed.

(** Whitespace in front of a string is stripped with it. *)
Lemma lstrip_blank_app a b : blank a = true -> lstrip (a +:+ b) = lstrip b.
Proof.
  remember (String.length a) as n eqn:Hn. revert a Hn.
  induction n as [n IH] using lt_wf_ind. intros a -> Ha.
  unfold blank in Ha. rewrite lstrip_unfold in Ha.
  destruct (ws_head a) as [r|] eqn:Hr.
  - rewrite (lstrip_unfold (a +:+ b)), (ws_head_app a b r Hr).
    apply (IH _ (ws_head_shorter a r Hr) r eq_refl).
    unfold blank. exact Ha.
  - destruct a; [reflexivity|discriminate].
Qed.

(** [rstrip] cuts whitespace off, and nothing else. *)
Lemma rstrip_cut s : exists ws, s = rstrip s +:+ ws /\ blank ws = true.
Proof.
  induction s as [|c s (ws & Hs & Hws)]; [exists EmptyString; split; reflexivity|].
  cbn [rstrip]. destruct (blank (String c s)) eqn:Hb.
  - exists (String c s). split; [reflexivity|exact Hb].
  - exists ws. split; [|exact Hws].
    change (String c s = String c (rstrip s +:+ ws)). f_equal. exact Hs.
Qed.

Lemma rstrip_idempotent s : rstrip (rstrip s) = rstrip s.
Proof.
  induction s as [|c s IH]; [reflexivity|].
  cbn [rstrip]. destruct (blank (String c s)) eqn:Hb; [reflexivity|].
  cbn [rstrip]. rewrite IH.
  destruct (blank (String c (rstrip s))) eqn:Hb'; [|reflexivity].
  destruct (rstrip_cut s) as (ws & Hs & Hws).
  assert (E : String c s = String c (rstrip s) +:+ ws).
  { change (String c s = String c (rstrip s +:+ ws)). f_equal. exact Hs. }
  unfold blank in Hb. rewrite E, (lstrip_blank_app _ _ Hb') in Hb.
  unfold blank in Hws. rewrite Hb in Hws. discriminate.
Qed.

(** Stripping is idempotent: a stripped message has no whitespace left at
    either end. *)
Lemma strip_idempotent s : strip (strip s) = strip s.
Proof.
  unfold strip.
  assert (H : lstrip (rstrip (lstrip s)) = rstrip (lstrip s)).
  { rewrite lstrip_unfold.
    destruct (ws_head (rstrip (lstrip s))) as [r|] eqn:Hr; [|reflexivity].
    destruct (rstrip_cut (lstrip s)) as (ws & Hs & _).
    pose proof (ws_head_lstrip s) as Hnone.
    rewrite Hs, (ws_head_app _ ws r Hr) in Hnone. discriminate. }
  rewrite H. apply rstrip_idempotent.
Qed.

(** A message that ends in a no-break space, a line separator and an
    ideographic space, after a tab in front: all four are stripped. *)
Example strip_unicode_whitespace :
  strip (String (ascii_of_nat 9)
           ("fatal"
            +:+ String (ascii_of_nat 194) (String (ascii_of_nat 160)
                 (String (ascii_of_nat 226) (String (ascii_of_nat 128)
                 (String (ascii_of_nat 168)
                 (String (ascii_of_nat 227) (String (ascii_of_nat 128)
                 (String (ascii_of_nat 128) EmptyString)))))))))
  = "fatal".
Proof. vm_compute. reflexivity. Qed.

(** The entries the CloudWatch adapter returns are the events of one read of
    one stream, one entry per event and in the order of the answer; each
    carries the event's timestamp as it is and the event's message with the
    whitespace at both ends removed. *)
Theorem cloudwatch_entries_mirror_events rt w st logs st' :
  get_cloudwatch_logs rt w st = (Ok logs, st') ->
  logs <> [] ->
  exists log_group stream events,
    cw_filter_log_events w log_group stream = Some events /\
    logs = map (fun e => log_entry (ev_timestamp e, strip (ev_message e))) events /\
    Forall (fun e => exists n msg, e = log_entry (n, msg) /\ strip msg = msg) logs.
Proof.
  intros Hrun Hne.
  destruct (get_cloudwatch_logs_run rt w st)
    as (logs' & st1 & calls & Hrun' & _ & _ & Hfrom).
  rewrite Hrun in Hrun'. injection Hrun' as <- <-.
  destruct (Hfrom Hne) as (_ & log_group & stream & events & Hev & ->).
  exists log_group, stream, events. split; [exact Hev|]. split; [reflexivity|].
  apply Forall_map. apply Forall_forall. intros e _.
  exists (ev_timestamp e), (strip (ev_message e)).
  split; [reflexivity|apply strip_idempotent].
Qed.

(** * Further properties of the DataPrime adapter *)

Lemma insert_desc_perm x l : insert_desc x l ≡ₚ x :: l.
Proof.
  induction l as [|y l IH]; simpl; [reflexivity|].
  destruct (y.1 <=? x.1); [reflexivity|].
  rewrite IH. apply Permutation_swap.
Qed.

Lemma insert_desc_sorted x l : newest_first l -> newest_first (insert_desc x l).
Proof.
  unfold newest_first. induction 1 as [|y l Hl IH Hy]; simpl.
  - repeat constructor.
  - destruct (Z.leb_spec y.1 x.1) as [Hle|Hlt].
    + constructor; [constructor; assumption|].
      constructor; [exact Hle|].
      eapply Forall_impl; [exact Hy|]. intros z Hz. simpl in *. lia.
    + constructor; [exact IH|].
      rewrite (insert_desc_perm x l). constructor; [lia|exact Hy].
Qed.

(** The sort of the DataPrime adapter returns the same entries, newest first. *)
Theorem sort_desc_sorts l : newest_first (sort_desc l) /\ sort_desc l ≡ₚ l.
Proof.
  unfold sort_desc. induction l as [|x l [IHs IHp]]; simpl.
  - split; [constructor|reflexivity].
  - split; [apply insert_desc_sorted; exact IHs|].
    rewrite insert_desc_perm, IHp. reflexivity.
Qed.

(** Equal timestamps keep the order the service sent them in: an entry goes
    in front of the entries of the same timestamp already placed. *)
Lemma insert_desc_stable x l :
  Forall (fun y => y.1 <= x.1) l -> insert_desc x l = x :: l.
Proof.
  intros H. destruct H as [|y l Hy Hl]; simpl; [reflexivity|].
  destruct (Z.leb_spec y.1 x.1); [reflexivity|lia].
Qed.

Lemma get_coralogix_logs_sorted rt w st logs st' :
  get_coralogix_logs rt w st = (Ok logs, st') ->
  exists raw, logs = map log_entry (sort_desc raw).
Proof.
  assert (Hnil : exists raw : list (Z * string), [] = map log_entry (sort_desc raw))
    by (exists []; reflexivity).
  unfold get_coralogix_logs. intros H.
  apply try_except_nil_Ok in H as [H| ->]; [|exact Hnil].
  destruct (negb _); [apply ret_Ok in H as <-; exact Hnil|].
  apply bind_Ok in H as (ci & st1 & _ & H).
  destruct (negb _); [apply ret_Ok in H as <-; exact Hnil|].
  apply bind_Ok in H as (_ & st2 & _ & H).
  destruct (ci !! "service_name") as [service_name|]; [|discriminate].
  apply bind_Ok in H as (response_text & st3 & _ & H).
  apply bind_Ok in H as (collected & st4 & _ & H).
  destruct collected as [|c cs]; [apply ret_Ok in H as <-; exact Hnil|].
  apply bind_Ok in H as (log_entries & st5 & _ & H).
  apply ret_Ok in H as <-. eauto.
Qed.

(** Whatever the DataPrime adapter returns is ordered newest first. *)
Theorem coralogix_newest_first rt w st logs st' :
  get_coralogix_logs rt w st = (Ok logs, st') ->
  exists entries, logs = map log_entry entries /\ newest_first entries.
Proof.
  intros H. destruct (get_coralogix_logs_sorted rt w st logs st' H) as [raw ->].
  exists (sort_desc raw). split; [reflexivity|]. apply sort_desc_sorts.
Qed.



(** * Further properties of the task-definition lookup *)

Lemma is_str_true s v : is_str s v = true -> v = PStr s.
Proof.
  destruct v; simpl; try discriminate.
  intros H. apply String.eqb_eq in H. congruence.
Qed.

(** The log options come from the first container definition that bears the
    crashed container's name, and only when that definition logs through
    [awslogs]; they are its options, or no options at all when it lists
    none. *)
Theorem find_log_options_sound container_name defs opts :
  find_log_options container_name defs = Some opts ->
  exists before def after name log_config,
    defs = (before ++ def :: after)%list /\
    Forall (fun d => cd_name d <> Some name) before /\
    container_name = PStr name /\
    cd_name def = Some name /\
    logConfiguration def = Some log_config /\
    logDriver log_config = Some "awslogs" /\
    opts = default ∅ (options log_config).
Proof.
  induction defs as [|d defs IH]; simpl; [discriminate|].
  destruct (cd_name d) as [n|] eqn:Hn.
  - destruct (is_str n container_name) eqn:Hm.
    + apply is_str_true in Hm as ->.
      destruct (logConfiguration d) as [lc|] eqn:Hlc; [|discriminate].
      destruct (logDriver lc) as [drv|] eqn:Hdrv; [|discriminate].
      destruct (String.eqb_spec drv "awslogs") as [->|]; [|discriminate].
      intros H. injection H as <-.
      exists [], d, defs, n, lc. repeat split; auto.
    + intros H. destruct (IH H) as (before & def & after & name & lc &
                                    -> & Hb & -> & H1 & H2 & H3 & H4).
      exists (d :: before), def, after, name, lc. repeat split; auto.
      constructor; [|exact Hb]. rewrite Hn. intros E. injection E as ->.
      simpl in Hm. rewrite String.eqb_refl in Hm. discriminate.
  - intros H. destruct (IH H) as (before & def & after & name & lc &
                                  -> & Hb & -> & H1 & H2 & H3 & H4).
    exists (d :: before), def, after, name, lc. repeat split; auto.
    constructor; [|exact Hb]. rewrite Hn. discriminate.
Qed.

(** A task definition without a container of the crashed container's name
    gives no log options, and so does one whose first container of that name
    uses another log driver, even if a later one of the same name uses
    [awslogs]. *)
Theorem find_log_options_none name defs :
  (Forall (fun d => cd_name d <> Some name) defs ->
   find_log_options (PStr name) defs = None) /\
  (forall before def after,
      defs = (before ++ def :: after)%list ->
      Forall (fun d => cd_name d <> Some name) before ->
      cd_name def = Some name ->
      (forall lc, logConfiguration def = Some lc -> logDriver lc <> Some "awslogs") ->
      find_log_options (PStr name) defs = None).
Proof.
  assert (Hskip : forall before rest,
             Forall (fun d => cd_name d <> Some name) before ->
             find_log_options (PStr name) (before ++ rest)
             = find_log_options (PStr name) rest).
  { intros before rest Hb. induction Hb as [|d before Hd Hb IH]; [reflexivity|].
    simpl. destruct (cd_name d) as [n|]; [|exact IH].
    simpl. destruct (String.eqb_spec name n) as [->|_]; [contradiction|exact IH]. }
  split.
  - intros H. rewrite <- (app_nil_r defs), (Hskip defs [] H). reflexivity.
  - intros before def after -> Hb Hname Hdrv.
    rewrite (Hskip _ _ Hb). simpl. rewrite Hname. simpl.
    rewrite String.eqb_refl.
    destruct (logConfiguration def) as [lc|]; [|reflexivity].
    specialize (Hdrv lc eq_refl).
    destruct (logDriver lc) as [drv|]; [|reflexivity].
    destruct (String.eqb_spec drv "awslogs") as [->|]; [contradiction|reflexivity].
Qed.

(** * Properties of the UI links *)

Lemma has_char_app c a b :
  has_char c (a +:+ b) = (has_char c a || has_char c b)%bool.
Proof.
  induction a as [|x a IH]; [reflexivity|].
  change (has_char c (String x (a +:+ b))
          = (has_char c (String x a) || has_char c b)%bool).
  cbn [has_char]. rewrite IH. apply orb_assoc.
Qed.

Lemma hex_digit_safe k : (k < 16)%nat -> always_safe (hex_digit k) = true.
Proof.
  intros H. do 16 (destruct k as [|k]; [reflexivity|]). lia.
Qed.

Lemma nat_of_ascii_bound c : (nat_of_ascii c < 256)%nat.
Proof.
  destruct c as [[] [] [] [] [] [] [] []]; vm_compute; repeat constructor.
Qed.

Lemma percent_encode_chars c x :
  has_char x (percent_encode c) = true ->
  (always_safe x || Ascii.eqb x "%"%char)%bool = true.
Proof.
  unfold percent_encode. pose proof (nat_of_ascii_bound c) as Hb.
  assert (H1 : (nat_of_ascii c / 16 < 16)%nat)
    by (apply Nat.Div0.div_lt_upper_bound; lia).
  assert (H2 : (nat_of_ascii c mod 16 < 16)%nat) by (apply Nat.mod_upper_bound; lia).
  cbn [has_char]. intros H.
  apply orb_true_iff in H as [H|H].
  { apply Ascii.eqb_eq in H as <-. reflexivity. }
  apply orb_true_iff in H as [H|H].
  { apply Ascii.eqb_eq in H as <-. rewrite (hex_digit_safe _ H1). reflexivity. }
  apply orb_true_iff in H as [H|H]; [|discriminate].
  apply Ascii.eqb_eq in H as <-. rewrite (hex_digit_safe _ H2). reflexivity.
Qed.

(** What [quote] lets through: every byte of its result is a letter, a
    digit, one of [_.-~], a byte of the [safe] argument, or the percent sign
    that starts an escape. *)
Theorem quote_alphabet safe s x :
  has_char x (quote safe s) = true ->
  (always_safe x || safe x || Ascii.eqb x "%"%char)%bool = true.
Proof.
  induction s as [|c s IH]; simpl; [discriminate|].
  rewrite has_char_app. intros H. apply orb_true_iff in H as [H|H]; [|exact (IH H)].
  destruct (always_safe c || safe c)%bool eqn:Hc.
  - cbn [has_char] in H. rewrite orb_false_r in H. apply Ascii.eqb_eq in H as <-.
    rewrite Hc. reflexivity.
  - apply percent_encode_chars in H.
    apply orb_true_iff in H as [->| ->]; [reflexivity|apply orb_true_r].
Qed.

Lemma hex_digit_inj a b :
  (a < 16)%nat -> (b < 16)%nat -> hex_digit a = hex_digit b -> a = b.
Proof.
  intros Ha Hb H.
  assert (E : nat_of_ascii (hex_digit a) = nat_of_ascii (hex_digit b)) by congruence.
  unfold hex_digit in E.
  destruct (Nat.ltb_spec a 10), (Nat.ltb_spec b 10);
    rewrite !nat_ascii_embedding in E by lia; lia.
Qed.

Lemma percent_encode_inj c1 c2 : percent_encode c1 = percent_encode c2 -> c1 = c2.
Proof.
  unfold percent_encode. cbv zeta.
  set (hi1 := (nat_of_ascii c1 / 16)%nat). set (lo1 := (nat_of_ascii c1 mod 16)%nat).
  set (hi2 := (nat_of_ascii c2 / 16)%nat). set (lo2 := (nat_of_ascii c2 mod 16)%nat).
  intros H. injection H as Hhi Hlo. subst hi1 lo1 hi2 lo2.
  pose proof (nat_of_ascii_bound c1) as B1. pose proof (nat_of_ascii_bound c2) as B2.
  apply hex_digit_inj in Hhi;
    [|apply Nat.Div0.div_lt_upper_bound; lia|apply Nat.Div0.div_lt_upper_bound; lia].
  apply hex_digit_inj in Hlo; [|apply Nat.mod_upper_bound; lia|apply Nat.mod_upper_bound; lia].
  assert (E : nat_of_ascii c1 = nat_of_ascii c2).
  { rewrite (Nat.div_mod_eq (nat_of_ascii c1) 16), (Nat.div_mod_eq (nat_of_ascii c2) 16).
    congruence. }
  rewrite <- (ascii_nat_embedding c1), <- (ascii_nat_embedding c2). congruence.
Qed.

Lemma percent_encode_app_inj c1 c2 a b :
  percent_encode c1 +:+ a = percent_encode c2 +:+ b -> c1 = c2 /\ a = b.
Proof.
  intros H.
  assert (E : percent_encode c1 = percent_encode c2 /\ a = b).
  { revert H. unfold percent_encode. cbv zeta.
    generalize (hex_digit (nat_of_ascii c1 / 16)) (hex_digit (nat_of_ascii c1 mod 16))
               (hex_digit (nat_of_ascii c2 / 16)) (hex_digit (nat_of_ascii c2 mod 16)).
    intros h1 l1 h2 l2 H.
    change (String "%"%char (String h1 (String l1 a))
            = String "%"%char (String h2 (String l2 b))) in H.
    injection H as -> -> ->. auto. }
  destruct E as [E ->]. split; [exact (percent_encode_inj _ _ E)|reflexivity].
Qed.

Lemma percent_encode_head c a :
  exists t, percent_encode c +:+ a = String "%"%char t.
Proof. unfold percent_encode. eexists. reflexivity. Qed.

(** [quote] loses nothing: as long as the percent sign is not declared safe,
    two strings with the same quoted form are the same string. *)
Theorem quote_injective safe s1 s2 :
  safe "%"%char = false ->
  quote safe s1 = quote safe s2 -> s1 = s2.
Proof.
  intros Hpct. revert s2.
  assert (Hsafe : forall c, (always_safe c || safe c)%bool = true -> c <> "%"%char).
  { intros c Hc ->. rewrite Hpct in Hc. discriminate. }
  induction s1 as [|c1 s1 IH]; intros [|c2 s2]; cbn [quote]; try reflexivity.
  - destruct (always_safe c2 || safe c2)%bool; [discriminate|].
    destruct (percent_encode_head c2 (quote safe s2)) as [t ->]. discriminate.
  - destruct (always_safe c1 || safe c1)%bool; [discriminate|].
    destruct (percent_encode_head c1 (quote safe s1)) as [t ->]. discriminate.
  - destruct (always_safe c1 || safe c1)%bool eqn:H1,
             (always_safe c2 || safe c2)%bool eqn:H2; intros H.
    + change (String c1 (quote safe s1) = String c2 (quote safe s2)) in H.
      injection H as -> H. f_equal. exact (IH _ H).
    + destruct (percent_encode_head c2 (quote safe s2)) as [t Ht].
      rewrite Ht in H. change (String c1 (quote safe s1) = String "%"%char t) in H.
      injection H as -> _. exfalso. exact (Hsafe _ H1 eq_refl).
    + destruct (percent_encode_head c1 (quote safe s1)) as [t Ht].
      rewrite Ht in H. change (String "%"%char t = String c2 (quote safe s2)) in H.
      injection H as <- _. exfalso. exact (Hsafe _ H2 eq_refl).
    + apply percent_encode_app_inj in H as [-> H]. f_equal. exact (IH _ H).
Qed.

(** The Kibana link exists exactly when [KIBANA_URL] is set and the crash
    context has a non-empty string as task ARN; and then the ARN sits in the
    link in a form that can neither close the quotation of the Kuery filter
    nor the parentheses around it. *)
Theorem kibana_link_spec w ci :
  (is_Some (generate_elasticsearch_ui_link w ci) <->
   env_set w "KIBANA_URL" = true /\
   exists arn, arn <> EmptyString /\ ci !! "task_arn" = Some (PStr arn)) /\
  (forall link, generate_elasticsearch_ui_link w ci = Some link ->
   exists arn,
     ci !! "task_arn" = Some (PStr arn) /\
     link = rstrip_slash (default EmptyString (environ w !! "KIBANA_URL"))
            +:+ "/app/discover#/?_g=(time:(from:now-1h,to:now))&_a=(query:(language:kuery,query:'ecs_task_arn:%22"
            +:+ quote safe_none arn +:+ "%22'))" /\
     has_char "'"%char (quote safe_none arn) = false /\
     has_char "("%char (quote safe_none arn) = false /\
     has_char ")"%char (quote safe_none arn) = false).
Proof.
  assert (Hclean : forall arn x,
             (always_safe x || safe_none x || Ascii.eqb x "%"%char)%bool = false ->
             has_char x (quote safe_none arn) = false).
  { intros arn x Hx. destruct (has_char x (quote safe_none arn)) eqn:E; [|reflexivity].
    rewrite (quote_alphabet _ _ _ E) in Hx. discriminate. }
  unfold generate_elasticsearch_ui_link.
  destruct (env_set w "KIBANA_URL"); simpl.
  2: { split; [split|]; [intros [? H]; discriminate|intros [H _]; discriminate|discriminate]. }
  destruct (ci !! "task_arn") as [v|]; simpl.
  2: { split; [split|]; [intros [? H]; discriminate| |discriminate].
       intros [_ (arn & _ & H)]. discriminate. }
  destruct v; simpl;
    try (split; [split|]; [intros [? H]; discriminate| |discriminate];
         intros [_ (arn & _ & H)]; discriminate).
  - destruct b; simpl;
      (split; [split|]; [intros [? H]; discriminate| |discriminate];
       intros [_ (arn & _ & H)]; discriminate).
  - destruct (n =? 0); simpl;
      (split; [split|]; [intros [? H]; discriminate| |discriminate];
       intros [_ (arn & _ & H)]; discriminate).
  - destruct (String.eqb_spec s EmptyString) as [->|Hs]; simpl.
    + split; [split|]; [intros [? H]; discriminate| |discriminate].
      intros [_ (arn & Hne & H)]. injection H as <-. contradiction.
    + split.
      * split; [intros _; split; [reflexivity|]; eauto|intros _; eauto].
      * intros link H. injection H as <-. exists s.
        split; [reflexivity|]. split.
        { reflexivity. }
        repeat split; apply Hclean; reflexivity.
  - destruct l; simpl;
      (split; [split|]; [intros [? H]; discriminate| |discriminate];
       intros [_ (arn & _ & H)]; discriminate).
  - destruct d; simpl;
      (split; [split|]; [intros [? H]; discriminate| |discriminate];
       intros [_ (arn & _ & H)]; discriminate).
Qed.

(** The DataPrime link needs the account, which the backend selection does
    not look at: it exists exactly when account and region are set, the
    crash context has a task identifier and it has a service name.  So
    DataPrime can be selected, and supply the entries, in a deployment where
    no link can be built. *)
Theorem coralogix_link_spec rt w ci logs_limit :
  (is_Some (generate_coralogix_ui_link rt w ci logs_limit) <->
   env_set w "CORALOGIX_ACCOUNT" = true /\ env_set w "CORALOGIX_REGION" = true /\
   has_task_arn ci = true /\ is_Some (ci !! "service_name")) /\
  is_coralogix_enabled w
  = (coralogix_ready w && env_set w "CORALOGIX_ACCOUNT")%bool.
Proof.
  split.
  - unfold generate_coralogix_ui_link. rewrite truthy_task_arn_empty.
    destruct (env_set w "CORALOGIX_ACCOUNT"), (env_set w "CORALOGIX_REGION"),
             (has_task_arn ci), (ci !! "service_name") as [sn|]; simpl;
      split; try (intros [? H]; discriminate);
      try (intros (H1 & H2 & H3 & [? H4]); discriminate);
      try (intros _; repeat split; eauto); eauto.
  - unfold is_coralogix_enabled, coralogix_ready, env_flag. cbv zeta.
    assert (E : lower (default EmptyString (environ w !! "ENABLE_CORALOGIX_INTEGRATION"))
                = lower (default "false" (environ w !! "ENABLE_CORALOGIX_INTEGRATION"))
                \/ environ w !! "ENABLE_CORALOGIX_INTEGRATION" = None).
    { destruct (environ w !! "ENABLE_CORALOGIX_INTEGRATION"); auto. }
    destruct E as [-> | ->].
    + destruct (String.eqb _ "true"), (env_set w "CORALOGIX_API_KEY"),
               (env_set w "CORALOGIX_REGION"), (env_set w "CORALOGIX_ACCOUNT"); reflexivity.
    + reflexivity.
Qed.

(** * Properties of the path from the event to the notifier *)

Lemma first_failed_Some items c :
  first_failed items = Some (Some c) ->
  py_ne_zero (default (PInt 0) (dict_get "exitCode" c)) = true /\
  exists before after,
    items = (before ++ PDict c :: after)%list /\ Forall healthy before.
Proof.
  induction items as [|x items IH]; simpl; [discriminate|].
  destruct x; try discriminate.
  destruct (py_ne_zero (default (PInt 0) (dict_get "exitCode" d))) eqn:Hd.
  - intros H. injection H as <-. split; [exact Hd|].
    exists [], items. split; [reflexivity|constructor].
  - intros H. destruct (IH H) as (Hc & before & after & -> & Hb).
    split; [exact Hc|]. exists (PDict d :: before), after.
    split; [reflexivity|]. constructor; [|exact Hb]. exists d. auto.
Qed.

Lemma first_failed_None items :
  first_failed items = Some None -> Forall healthy items.
Proof.
  induction items as [|x items IH]; simpl; [constructor|].
  destruct x; try discriminate.
  destruct (py_ne_zero (default (PInt 0) (dict_get "exitCode" d))) eqn:Hd;
    [discriminate|].
  intros H. constructor; [exists d; auto|exact (IH H)].
Qed.

(** The parts of [extract_crash_info] the log retrieval depends on. *)
Lemma extract_crash_info_fields now_iso d ci :
  extract_crash_info now_iso (PDict d) = Some ci ->
  exists items found,
    py_elements (default (PList []) (dict_get "containers" d)) = Some items /\
    first_failed items = Some found /\
    ci !! "task_arn" = Some (default (PStr EmptyString) (dict_get "taskArn" d)) /\
    ci !! "task_definition_arn"
      = Some (default (PStr EmptyString) (dict_get "taskDefinitionArn" d)) /\
    ci !! "log_source" = None /\
    ci !! "failed_container"
      = Some (match found with
              | Some c => PDict c
              | None => match items with PDict c :: _ => PDict c | _ => PNone end
              end) /\
    ci !! "exit_code"
      = Some (match found with
              | Some c => default PNone (dict_get "exitCode" c)
              | None => PNone
              end).
Proof.
  unfold extract_crash_info.
  destruct (last_part_or "/" "unknown" _) as [cluster_name|]; [|discriminate].
  simpl.
  destruct (default (PStr EmptyString) (dict_get "group" d)); try discriminate.
  simpl.
  destruct (py_elements _) as [items|]; [|discriminate]. simpl.
  destruct (first_failed items) as [found|] eqn:Hfound; [|discriminate]. simpl.
  destruct (last_part_or ":" "N/A" _) as [version|]; simpl.
  2: { destruct found as [c|]; [|destruct items as [|[] ?]]; discriminate. }
  intros H. exists items, found.
  split; [reflexivity|]. split; [exact Hfound|].
  clear Hfound.
  destruct found as [c|]; [|destruct items as [|[] ?]];
    injection H as <-; repeat split; reflexivity.
Qed.

(** Which container a crash is pinned on: the first container of the event
    whose exit code differs from zero, with that exit code; when every
    container has exit code zero or none, the first container and no exit
    code (a launch failure); and nothing when the event lists no
    container. *)
Theorem extract_crash_info_failed_container now_iso d ci :
  extract_crash_info now_iso (PDict d) = Some ci ->
  exists items,
    py_elements (default (PList []) (dict_get "containers" d)) = Some items /\
    ((exists before c after,
        items = (before ++ PDict c :: after)%list /\
        Forall healthy before /\
        py_ne_zero (default (PInt 0) (dict_get "exitCode" c)) = true /\
        ci !! "failed_container" = Some (PDict c) /\
        ci !! "exit_code" = Some (default PNone (dict_get "exitCode" c))) \/
     (Forall healthy items /\
      ci !! "exit_code" = Some PNone /\
      ci !! "failed_container" = Some (default PNone (head items)))).
Proof.
  intros H.
  destruct (extract_crash_info_fields now_iso d ci H)
    as (items & found & Hitems & Hfound & _ & _ & _ & Hfc & Hec).
  exists items. split; [exact Hitems|].
  destruct found as [c|].
  - left. destruct (first_failed_Some items c Hfound) as (Hc & before & after & -> & Hb).
    exists before, c, after. auto.
  - right. pose proof (first_failed_None items Hfound) as Hall.
    split; [exact Hall|]. split; [exact Hec|]. rewrite Hfc.
    destruct Hall as [|x items (c & -> & _) _]; reflexivity.
Qed.

(** An event that carries no task ARN, or lists no container, costs the log
    retrieval no network call: on the crash context made from it,
    [get_recent_logs] returns the empty sequence and leaves the state as it
    found it. *)
Theorem event_without_task_or_container_is_silent rt w now_iso d ci :
  extract_crash_info now_iso (PDict d) = Some ci ->
  truthy (default (PStr EmptyString) (dict_get "taskArn" d)) = false \/
  py_elements (default (PList []) (dict_get "containers" d)) = Some [] ->
  resolve rt w ci = ([], initial ci).
Proof.
  intros H Hcase.
  destruct (extract_crash_info_fields now_iso d ci H)
    as (items & found & Hitems & Hfound & Harn & _ & _ & Hfc & _).
  unfold resolve. destruct Hcase as [Htask|Hnone].
  - rewrite (get_recent_logs_no_task rt w (initial ci)); [reflexivity|].
    unfold has_task_arn. simpl. rewrite Harn. exact Htask.
  - rewrite Hnone in Hitems. injection Hitems as <-.
    simpl in Hfound. injection Hfound as <-.
    rewrite (get_recent_logs_no_container rt w (initial ci)); [reflexivity|].
    unfold has_failed_container. simpl. rewrite Hfc. reflexivity.
Qed.

Lemma get_recent_logs_total rt w st :
  exists logs st', get_recent_logs rt w st = (Ok logs, st').
Proof.
  unfold get_recent_logs.
  match goal with |- context [try_except ?m _ st] =>
    destruct (try_except_ret m [] st) as (x & Hx & _) end.
  eauto.
Qed.

Lemma get_task_definition_details_run er w arn st :
  exists details st',
    get_task_definition_details er w arn st = (Ok details, st') /\
    crash_info st' = crash_info st /\
    trace st' = (trace st ++ [Net EcsDescribeTaskDefinition])%list /\
    Forall (fun kv => kv.1 ∈ ["cpu"; "memory"; "network_mode"; "container_count"])
           details.
Proof.
  unfold get_task_definition_details, try_except, bind, call, bind, emit. simpl.
  destruct (ecs_describe_task_definition w arn) as [task_def|]; simpl.
  - destruct (td_attrs er task_def) as [[cpu memory] network_mode]. simpl.
    eexists _, _. repeat split.
    repeat constructor; simpl; in_list.
  - eexists _, _. repeat split. constructor.
Qed.

Lemma lookup_dict_update items d k :
  Forall (fun kv => kv.1 <> k) items -> dict_update items d !! k = d !! k.
Proof.
  unfold dict_update. revert d.
  induction items as [|[k' v] items IH]; intros d H; simpl; [reflexivity|].
  apply Forall_cons in H as [Hk H]. simpl in Hk.
  rewrite (IH _ H). apply lookup_insert_ne. exact Hk.
Qed.

(** What the notifier is handed.  For a crash context whose failed
    container is a non-empty dict: the enriched copy carries exactly the
    entries the resolution returned and the hint the resolution left in
    [crash_info]; every other key is as it was before the resolution, apart
    from the task-definition details and the error marker; and after the
    resolution at most one more network call is made, the task-definition
    lookup. *)
Theorem enrich_crash_data_hands_over er rt w st c :
  crash_info st !! "failed_container" = Some (PDict c) ->
  c <> [] ->
  exists logs st1,
    get_recent_logs rt w st = (Ok logs, st1) /\
    (enrich_crash_data er rt w st).1 !! "recent_logs" = Some (PList logs) /\
    (enrich_crash_data er rt w st).1 !! "log_source"
      = match crash_info st1 !! "log_source" with
        | Some v => Some v
        | None => crash_info st !! "log_source"
        end /\
    (forall k, k ∉ enrichment_keys ->
       (enrich_crash_data er rt w st).1 !! k = crash_info st !! k) /\
    crash_info (enrich_crash_data er rt w st).2 = crash_info st1 /\
    (trace (enrich_crash_data er rt w st).2 = trace st1 \/
     trace (enrich_crash_data er rt w st).2
     = (trace st1 ++ [Net EcsDescribeTaskDefinition])%list).
Proof.
  intros Hfc Hc.
  destruct (get_recent_logs_total rt w st) as (logs & st1 & Hrun).
  exists logs, st1. split; [exact Hrun|].
  unfold enrich_crash_data, enrich_logs. rewrite Hfc.
  destruct c as [|kv c]; [contradiction|]. cbn [truthy]. rewrite Hrun.
  set (enriched1 := match crash_info st1 !! "log_source" with
                    | Some log_source =>
                        <["log_source" := log_source]>
                          (<["recent_logs" := PList logs]> (crash_info st))
                    | None => <["recent_logs" := PList logs]> (crash_info st)
                    end).
  assert (H1 : enriched1 !! "recent_logs" = Some (PList logs)).
  { unfold enriched1. destruct (crash_info st1 !! "log_source").
    - rewrite lookup_insert_ne by discriminate. apply lookup_insert_eq.
    - apply lookup_insert_eq. }
  assert (H2 : enriched1 !! "log_source"
               = match crash_info st1 !! "log_source" with
                 | Some v => Some v
                 | None => crash_info st !! "log_source"
                 end).
  { unfold enriched1. destruct (crash_info st1 !! "log_source").
    - apply lookup_insert_eq.
    - apply lookup_insert_ne. discriminate. }
  assert (H3 : forall k, k ∉ enrichment_keys -> enriched1 !! k = crash_info st !! k).
  { intros k Hk. unfold enriched1.
    assert (k <> "log_source" /\ k <> "recent_logs") as [Ha Hb].
    { split; intros ->; apply Hk; unfold enrichment_keys; in_list. }
    destruct (crash_info st1 !! "log_source");
      rewrite ?lookup_insert_ne by congruence; reflexivity. }
  assert (Herr : forall msg,
    let out := <["enrichment_error" := PStr msg]> enriched1 in
    out !! "recent_logs" = Some (PList logs) /\
    out !! "log_source" = match crash_info st1 !! "log_source" with
                          | Some v => Some v
                          | None => crash_info st !! "log_source"
                          end /\
    (forall k, k ∉ enrichment_keys -> out !! k = crash_info st !! k)).
  { intros msg. simpl. split; [|split].
    - rewrite lookup_insert_ne by discriminate. exact H1.
    - rewrite lookup_insert_ne by discriminate. exact H2.
    - intros k Hk. rewrite lookup_insert_ne; [exact (H3 k Hk)|].
      intros <-. apply Hk. unfold enrichment_keys. in_list. }
  destruct (crash_info st1 !! "task_definition_arn") as [arn|] eqn:Harn.
  2: { destruct (Herr "'task_definition_arn'") as (E1 & E2 & E3).
       repeat split; auto. }
  destruct (truthy arn).
  2: { simpl. repeat split; auto. }
  destruct (get_task_definition_details_run er w arn st1)
    as (details & st2 & -> & Hci & Htr & Hkeys).
  simpl.
  assert (Hother : forall k,
             k ∉ ["cpu"; "memory"; "network_mode"; "container_count"] ->
             dict_update details enriched1 !! k = enriched1 !! k).
  { intros k Hk. apply lookup_dict_update.
    eapply Forall_impl; [exact Hkeys|]. intros item Hin <-. exact (Hk Hin). }
  split; [rewrite Hother; [exact H1|]|].
  { intros Hin. repeat (apply elem_of_cons in Hin as [Hin|Hin]; [discriminate|]).
    apply elem_of_nil in Hin. exact Hin. }
  split; [rewrite Hother; [exact H2|]|].
  { intros Hin. repeat (apply elem_of_cons in Hin as [Hin|Hin]; [discriminate|]).
    apply elem_of_nil in Hin. exact Hin. }
  split; [|split; [exact Hci|right; exact Htr]].
  intros k Hk. rewrite Hother; [exact (H3 k Hk)|].
  intros Hin. apply Hk. unfold enrichment_keys.
  repeat (apply elem_of_cons in Hin as [->|Hin]; [in_list|]).
  apply elem_of_nil in Hin. contradiction.
Qed.

(** An answer of the service that is already newest first is returned in the
    order it came in, entries of equal timestamp included. *)
Theorem sort_desc_keeps_sorted l : newest_first l -> sort_desc l = l.
Proof.
  unfold newest_first, sort_desc. induction 1 as [|x l Hl IH Hx]; simpl.
  - reflexivity.
  - rewrite IH. apply insert_desc_stable. exact Hx.
Qed.

(** * The further properties on the sample inputs *)

Lemma empty_resolution_keeps_primary_hint_witness :
  hint_names Elasticsearch
    (resolve sample_runtime sample_world_no_hit sample_crash_info_no_task_def).2.
Proof.
  apply (empty_resolution_keeps_primary_hint sample_runtime sample_world_no_hit
           sample_crash_info_no_task_def); vm_compute; reflexivity.
Defined.

Lemma coralogix_then_cloudwatch_witness :
  exists cx_logs st1,
    get_coralogix_logs sample_runtime sample_world_coralogix
      (initial sample_crash_info) = (Ok cx_logs, st1) /\
    (EsSearch ∉ net_calls (trace (resolve sample_runtime sample_world_coralogix
                                    sample_crash_info).2)) /\
    (cx_logs <> [] ->
     (resolve sample_runtime sample_world_coralogix sample_crash_info).1 = cx_logs /\
     net_calls (trace (resolve sample_runtime sample_world_coralogix
                         sample_crash_info).2) = [CxQuery] /\
     hint_names Coralogix
       (resolve sample_runtime sample_world_coralogix sample_crash_info).2) /\
    (cx_logs = [] ->
     exists cw_logs st2,
       get_cloudwatch_logs sample_runtime sample_world_coralogix st1
       = (Ok cw_logs, st2) /\
       (resolve sample_runtime sample_world_coralogix sample_crash_info).1 = cw_logs).
Proof.
  apply (coralogix_then_cloudwatch sample_runtime sample_world_coralogix
           sample_crash_info); vm_compute; reflexivity.
Defined.

Lemma verify_log_stream_choice_witness :
  (exists rest,
      cw_streams_by_prefix sample_world_no_hit "/ecs/app" "ecs/web/abc123"
      = Some ("ecs/web/abc123" :: rest)) \/
  (cw_streams_by_prefix sample_world_no_hit "/ecs/app" "ecs/web/abc123" = Some [] /\
   substringb "abc123" "ecs/web/abc123" = true /\
   exists before after,
     cw_streams_recent sample_world_no_hit "/ecs/app"
     = Some (before ++ "ecs/web/abc123" :: after)%list /\
     Forall (fun s => substringb "abc123" s = false) before).
Proof.
  apply (verify_log_stream_choice sample_world_no_hit "/ecs/app" "ecs/web/abc123"
           "abc123" (initial sample_crash_info) "ecs/web/abc123"
           {| crash_info := sample_crash_info;
              trace := [Net CwDescribeLogStreams];
              ticks := 0 |}).
  reflexivity.
Defined.

Lemma cloudwatch_entries_mirror_events_witness :
  exists log_group stream events,
    cw_filter_log_events sample_world_no_hit log_group stream = Some events /\
    (get_cloudwatch_logs sample_runtime sample_world_no_hit
       (initial sample_crash_info)).1
    = Ok (map (fun e => log_entry (ev_timestamp e, strip (ev_message e))) events).
Proof.
  destruct (cloudwatch_entries_mirror_events sample_runtime sample_world_no_hit
              (initial sample_crash_info)
              (map cw_log_entry sample_events)
              (get_cloudwatch_logs sample_runtime sample_world_no_hit
                 (initial sample_crash_info)).2)
    as (log_group & stream & events & Hev & Hlogs & _).
  - vm_compute. reflexivity.
  - discriminate.
  - exists log_group, stream, events. split; [exact Hev|].
    rewrite <- Hlogs. vm_compute. reflexivity.
Defined.

Lemma coralogix_newest_first_witness :
  exists entries,
    (resolve sample_runtime sample_world_coralogix sample_crash_info).1
    = map log_entry entries /\ newest_first entries.
Proof.
  apply (coralogix_newest_first sample_runtime sample_world_coralogix
           (initial sample_crash_info)
           (resolve sample_runtime sample_world_coralogix sample_crash_info).1
           (get_coralogix_logs sample_runtime sample_world_coralogix
              (initial sample_crash_info)).2).
  vm_compute. reflexivity.
Defined.

Lemma sort_desc_keeps_sorted_witness :
  sort_desc [(5, "b"); (5, "a"); (3, "c")] = [(5, "b"); (5, "a"); (3, "c")].
Proof.
  apply sort_desc_keeps_sorted. unfold newest_first.
  repeat constructor; simpl; lia.
Defined.


Lemma find_log_options_sound_witness :
  exists before def after name log_config,
    containerDefinitions sample_task_definition = (before ++ def :: after)%list /\
    Forall (fun d => cd_name d <> Some name) before /\
    PStr "web" = PStr name /\
    cd_name def = Some name /\
    logConfiguration def = Some log_config /\
    logDriver log_config = Some "awslogs" /\
    list_to_map [("awslogs-group", "/ecs/app"); ("awslogs-stream-prefix", "ecs");
                 ("awslogs-region", "eu-west-1")]
    = default ∅ (options log_config).
Proof.
  apply (find_log_options_sound (PStr "web")
           (containerDefinitions sample_task_definition)).
  reflexivity.
Defined.

Lemma extract_crash_info_failed_container_witness :
  exists items,
    py_elements (default (PList []) (dict_get "containers" sample_detail))
    = Some items /\
    ((exists before c after,
        items = (before ++ PDict c :: after)%list /\
        Forall healthy before /\
        py_ne_zero (default (PInt 0) (dict_get "exitCode" c)) = true /\
        sample_extracted !! "failed_container" = Some (PDict c) /\
        sample_extracted !! "exit_code"
        = Some (default PNone (dict_get "exitCode" c))) \/
     (Forall healthy items /\
      sample_extracted !! "exit_code" = Some PNone /\
      sample_extracted !! "failed_container" = Some (default PNone (head items)))).
Proof.
  apply (extract_crash_info_failed_container "2025-09-21T10:00:00+00:00"
           sample_detail sample_extracted).
  vm_compute. reflexivity.
Defined.

Lemma event_without_task_or_container_is_silent_witness :
  resolve sample_runtime sample_world_no_hit sample_extracted_no_container
  = ([], initial sample_extracted_no_container).
Proof.
  apply (event_without_task_or_container_is_silent sample_runtime sample_world_no_hit
           "2025-09-21T10:00:00+00:00" sample_detail_no_container
           sample_extracted_no_container).
  - vm_compute. reflexivity.
  - right. reflexivity.
Defined.

Lemma enrich_crash_data_hands_over_witness :
  exists logs st1,
    get_recent_logs sample_runtime sample_world_no_hit (initial sample_crash_info)
    = (Ok logs, st1) /\
    (enrich_crash_data sample_enrich_runtime sample_runtime sample_world_no_hit
       (initial sample_crash_info)).1 !! "recent_logs" = Some (PList logs) /\
    (enrich_crash_data sample_enrich_runtime sample_runtime sample_world_no_hit
       (initial sample_crash_info)).1 !! "log_source"
      = match crash_info st1 !! "log_source" with
        | Some v => Some v
        | None => crash_info (initial sample_crash_info) !! "log_source"
        end /\
    (forall k, k ∉ enrichment_keys ->
       (enrich_crash_data sample_enrich_runtime sample_runtime sample_world_no_hit
          (initial sample_crash_info)).1 !! k
       = crash_info (initial sample_crash_info) !! k) /\
    crash_info (enrich_crash_data sample_enrich_runtime sample_runtime
                  sample_world_no_hit (initial sample_crash_info)).2
    = crash_info st1 /\
    (trace (enrich_crash_data sample_enrich_runtime sample_runtime
              sample_world_no_hit (initial sample_crash_info)).2 = trace st1 \/
     trace (enrich_crash_data sample_enrich_runtime sample_runtime
              sample_world_no_hit (initial sample_crash_info)).2
     = (trace st1 ++ [Net EcsDescribeTaskDefinition])%list).
Proof.
  apply (enrich_crash_data_hands_over sample_enrich_runtime sample_runtime
           sample_world_no_hit (initial sample_crash_info)
           [("name", PStr "web"); ("exitCode", PInt 1)]).
  - vm_compute. reflexivity.
  - discriminate.
Defined.

(** The whole path on the sample event: the crash is pinned on [web], the
    entries come from CloudWatch after the search engine found nothing, and
    the notifier is told so. *)
Example sample_event_end_to_end :
  (ci ← extract_crash_info "2025-09-21T10:00:00+00:00" (PDict sample_detail);
   let out := enrich_crash_data sample_enrich_runtime sample_runtime
                sample_world_no_hit (initial ci) in
   Some (out.1 !! "log_source", out.1 !! "exit_code", net_calls (trace out.2)))
  = Some (Some (PStr "cloudwatch"), Some (PInt 137),
          [EsSearch; EcsDescribeTaskDefinition; CwDescribeLogStreams;
           CwFilterLogEvents; EcsDescribeTaskDefinition]).
Proof. vm_compute. reflexivity. Qed.

Lemma append_inj_l a x y : a +:+ x = a +:+ y -> x = y.
Proof.
  induction a as [|c a IH]; intros H; [exact H|].
  change (String c (a +:+ x) = String c (a +:+ y)) in H.
  injection H as H. exact (IH H).
Qed.

Lemma length_append a b :
  String.length (a +:+ b) = (String.length a + String.length b)%nat.
Proof.
  induction a as [|c a IH]; [reflexivity|].
  change (S (String.length (a +:+ b)) = S (String.length a + String.length b)).
  rewrite IH. reflexivity.
Qed.

Lemma append_inj_r s x y : x +:+ s = y +:+ s -> x = y.
Proof.
  revert y. induction x as [|c x IH]; intros [|d y] H; [reflexivity| | |].
  - exfalso. apply (f_equal String.length) in H.
    rewrite !length_append in H. simpl in H. lia.
  - exfalso. apply (f_equal String.length) in H.
    rewrite !length_append in H. simpl in H. lia.
  - change (String c (x +:+ s) = String d (y +:+ s)) in H.
    injection H as -> H. f_equal. exact (IH _ H).
Qed.

(** In one deployment, two crash contexts that get the same Kibana link have
    the same task ARN: the link identifies the task. *)
Theorem kibana_link_injective w ci1 ci2 link :
  generate_elasticsearch_ui_link w ci1 = Some link ->
  generate_elasticsearch_ui_link w ci2 = Some link ->
  ci1 !! "task_arn" = ci2 !! "task_arn".
Proof.
  assert (Hshape : forall ci l,
    generate_elasticsearch_ui_link w ci = Some l ->
    exists arn,
      ci !! "task_arn" = Some (PStr arn) /\
      l = (rstrip_slash (default EmptyString (environ w !! "KIBANA_URL"))
           +:+ "/app/discover#/?_g=(time:(from:now-1h,to:now))&_a=(query:(language:kuery,query:'ecs_task_arn:%22")
          +:+ quote safe_none arn +:+ "%22'))").
  { intros ci l. unfold generate_elasticsearch_ui_link.
    destruct (negb (env_set w "KIBANA_URL")); [discriminate|].
    destruct (ci !! "task_arn") as [v|]; simpl; [|discriminate].
    destruct (negb (truthy v)); [discriminate|].
    destruct v; try discriminate.
    intros H. injection H as <-. exists s. split; [reflexivity|].
    rewrite str_append_assoc. reflexivity. }
  intros H1 H2.
  destruct (Hshape _ _ H1) as (arn1 & -> & E1).
  destruct (Hshape _ _ H2) as (arn2 & -> & E2).
  rewrite E1 in E2. apply append_inj_l, append_inj_r in E2.
  apply quote_injective in E2; [congruence|reflexivity].
Qed.

Lemma kibana_link_injective_witness :
  sample_crash_info !! "task_arn" = sample_extracted !! "task_arn".
Proof.
  apply (kibana_link_injective
           (sample_world (<["KIBANA_URL" := "https://kibana.example.com/"]> sample_environ)
              [] sample_cx_text)
           sample_crash_info sample_extracted
           ("https://kibana.example.com/app/discover#/?_g=(time:(from:now-1h,to:now))&_a=(query:(language:kuery,query:'ecs_task_arn:%22"
            +:+ "arn%3Aaws%3Aecs%3Aeu-west-1%3A123456789012%3Atask%2Fprod%2Fabc123"
            +:+ "%22'))")); vm_compute; reflexivity.
Defined.

Lemma prefixb_has_last p c s :
  prefixb (p +:+ String c EmptyString) s = true -> has_char c s = true.
Proof.
  revert s. induction p as [|x p IH]; intros [|y s]; simpl; try discriminate.
  - destruct (Ascii.eqb c y) eqn:E; [|discriminate].
    intros _. rewrite Ascii.eqb_sym, E. reflexivity.
  - change (prefixb (String x (p +:+ String c EmptyString)) (String y s))
      with (Ascii.eqb x y && prefixb (p +:+ String c EmptyString) s)%bool.
    intros H. apply andb_true_iff in H as [_ H].
    rewrite (IH _ H). apply orb_true_r.
Qed.

Lemma remove_sub_from_absent s :
  has_char ":"%char s = false -> remove_sub_from "service:" 0 s = s.
Proof.
  induction s as [|c s IH]; [reflexivity|].
  intros H.
  assert (Hp : prefixb "service:" (String c s) = false).
  { destruct (prefixb "service:" (String c s)) eqn:E; [|reflexivity].
    rewrite (prefixb_has_last "service" ":"%char _ E) in H. discriminate. }
  cbn [remove_sub_from]. rewrite Hp.
  cbn [has_char] in H. apply orb_false_elim in H as [_ H].
  rewrite (IH H). reflexivity.
Qed.

Lemma extract_crash_info_name_fields now_iso d ci :
  extract_crash_info now_iso (PDict d) = Some ci ->
  exists g,
    default (PStr EmptyString) (dict_get "group" d) = PStr g /\
    ci !! "service_name"
    = Some (PStr (if prefixb "service:" g then remove_sub "service:" g else g)) /\
    Some (ci !! "cluster_name")
    = Some <$> last_part_or "/"%char "unknown"
                 (default (PStr EmptyString) (dict_get "clusterArn" d)).
Proof.
  unfold extract_crash_info.
  destruct (last_part_or "/" "unknown" _) as [cluster_name|]; [|discriminate].
  cbn [mbind option_bind].
  destruct (default (PStr EmptyString) (dict_get "group" d)) as [| | |g| |];
    try discriminate.
  set (svc := PStr (if prefixb "service:" g then remove_sub "service:" g else g)).
  cbn [mbind option_bind].
  destruct (py_elements _) as [items|]; [|discriminate].
  cbn [mbind option_bind].
  destruct (first_failed items) as [found|]; [|discriminate].
  cbn [mbind option_bind].
  destruct (last_part_or ":" "N/A" _) as [version|]; cbn [mbind option_bind].
  2: { destruct found as [c|]; [|destruct items as [|[] ?]]; discriminate. }
  intros H. exists g. split; [reflexivity|].
  destruct found as [c|]; [|destruct items as [|[] ?]];
    injection H as <-; split; reflexivity.
Qed.

(** The service name of an event whose group is [service:NAME], for a NAME
    without a colon, is NAME; the cluster name is what follows the last slash
    of the cluster ARN. *)
Theorem extract_crash_info_names now_iso d ci name cluster_arn :
  extract_crash_info now_iso (PDict d) = Some ci ->
  dict_get "group" d = Some (PStr ("service:" +:+ name)) ->
  has_char ":"%char name = false ->
  dict_get "clusterArn" d = Some (PStr cluster_arn) ->
  cluster_arn <> EmptyString ->
  ci !! "service_name" = Some (PStr name) /\
  ci !! "cluster_name" = Some (PStr (last_segment cluster_arn)).
Proof.
  intros H Hgroup Hname Hcluster Hne.
  destruct (extract_crash_info_name_fields now_iso d ci H) as (g & Hg & Hsvc & Hcn).
  rewrite Hgroup in Hg. injection Hg as <-.
  rewrite Hcluster in Hcn. split.
  - rewrite Hsvc, prefixb_app. unfold remove_sub.
    change (remove_sub_from "service:" 0 ("service:" +:+ name))
      with (remove_sub_from "service:" 0 name).
    rewrite (remove_sub_from_absent name Hname). reflexivity.
  - unfold last_part_or in Hcn.
    change (default (PStr EmptyString) (Some (PStr cluster_arn)))
      with (PStr cluster_arn) in Hcn.
    cbn [truthy] in Hcn.
    destruct (String.eqb_spec cluster_arn EmptyString) as [->|_]; [contradiction|].
    cbn [negb fmap option_fmap option_map] in Hcn.
    injection Hcn as ->. reflexivity.
Qed.

Lemma extract_crash_info_names_witness :
  sample_extracted !! "service_name" = Some (PStr "api") /\
  sample_extracted !! "cluster_name"
  = Some (PStr (last_segment "arn:aws:ecs:eu-west-1:123456789012:cluster/prod")).
Proof.
  apply (extract_crash_info_names "2025-09-21T10:00:00+00:00" sample_detail
           sample_extracted "api" "arn:aws:ecs:eu-west-1:123456789012:cluster/prod");
    try (vm_compute; reflexivity).
  discriminate.
Defined.

Lemma network_calls_shape_witness :
  exists primary cw,
    net_calls (trace (resolve sample_runtime sample_world_no_hit sample_crash_info).2)
    = (primary ++ cw)%list /\
    primary = [EsSearch] /\
    Forall (fun a => api_backend a = CloudWatch) cw.
Proof.
  destruct (network_calls_shape sample_runtime sample_world_no_hit sample_crash_info)
    as (primary & cw & Hnet & Hprim & Hcw).
  exists primary, cw. split; [exact Hnet|]. split; [|exact Hcw].
  destruct Hprim as [->|[[_ ->]|[Hd _]]].
  - vm_compute in Hnet. rewrite <- Hnet in Hcw.
    apply Forall_inv in Hcw. discriminate.
  - reflexivity.
  - vm_compute in Hd. discriminate.
Defined.

Lemma cloudwatch_call_sequence_witness :
  exists calls,
    calls ∈ cloudwatch_call_sequences /\ last calls = Some CwFilterLogEvents.
Proof.
  destruct (cloudwatch_call_sequence sample_runtime sample_world_no_hit
              (initial sample_crash_info))
    as (logs & st' & calls & Hrun & _ & Hin & Hlast).
  exists calls. split; [exact Hin|]. apply Hlast.
  vm_compute in Hrun. injection Hrun as <- _. discriminate.
Defined.

Lemma last_segment_spec_witness : last_segment "abc123" = "abc123".
Proof. apply (proj2 (proj2 (last_segment_spec "abc123"))). reflexivity. Defined.

Lemma stream_name_carries_task_id_witness :
  last_segment (stream_name "ecs" "web" "abc123") = "abc123".
Proof.
  apply (proj2 (stream_name_carries_task_id "ecs" "web" "abc123")). reflexivity.
Defined.

Lemma find_log_options_none_witness :
  find_log_options (PStr "web")
    [{| cd_name := Some "sidecar"; logConfiguration := None |};
     {| cd_name := Some "web";
        logConfiguration := Some {| logDriver := Some "fluentd"; options := None |} |};
     {| cd_name := Some "web";
        logConfiguration := Some {| logDriver := Some "awslogs"; options := None |} |}]
  = None.
Proof.
  apply (proj2 (find_log_options_none "web" _)
           [{| cd_name := Some "sidecar"; logConfiguration := None |}]
           {| cd_name := Some "web";
              logConfiguration :=
                Some {| logDriver := Some "fluentd"; options := None |} |}
           [{| cd_name := Some "web";
               logConfiguration :=
                 Some {| logDriver := Some "awslogs"; options := None |} |}]).
  - reflexivity.
  - repeat constructor. simpl. discriminate.
  - reflexivity.
  - simpl. intros lc H. injection H as <-. simpl. discriminate.
Defined.

Lemma kibana_link_spec_witness :
  exists arn,
    sample_crash_info !! "task_arn" = Some (PStr arn) /\
    has_char "'"%char (quote safe_none arn) = false.
Proof.
  destruct (proj2 (kibana_link_spec
              (sample_world (<["KIBANA_URL" := "https://kibana.example.com/"]> sample_environ)
                 [] sample_cx_text)
              sample_crash_info)
              ("https://kibana.example.com/app/discover#/?_g=(time:(from:now-1h,to:now))&_a=(query:(language:kuery,query:'ecs_task_arn:%22"
               +:+ "arn%3Aaws%3Aecs%3Aeu-west-1%3A123456789012%3Atask%2Fprod%2Fabc123"
               +:+ "%22'))"))
    as (arn & Harn & _ & Hq & _).
  - vm_compute. reflexivity.
  - exists arn. split; [exact Harn|exact Hq].
Defined.

Lemma coralogix_link_spec_witness :
  generate_coralogix_ui_link sample_runtime sample_world_coralogix sample_crash_info 50
  = None /\
  detect_log_destination sample_world_coralogix = Coralogix.
Proof.
  split; [|vm_compute; reflexivity].
  destruct (generate_coralogix_ui_link sample_runtime sample_world_coralogix
              sample_crash_info 50) as [link|] eqn:E; [|reflexivity].
  destruct (proj1 (proj1 (coralogix_link_spec sample_runtime sample_world_coralogix
                            sample_crash_info 50))) as [Hacc _].
  - rewrite E. eauto.
  - vm_compute in Hacc. discriminate.
Defined.
